(** * actions-cost-guard: the workflow cost estimator (estimator.ts)

    A shallow embedding of the estimator core: the input sanitizer
    [sanitizeEstimateInput], the line scanner [parseJobsAndSteps], the
    per-OS aggregation [aggregateByOs] and [estimateWorkflowCost] with its
    budget policy; of the workflow import (workflow-import.ts):
    [sanitizeWorkflowUrl], [resolveRawWorkflowUrl] and [fetchWorkflowYaml];
    and of the helpers of the server (server.ts): [parseBoolean],
    [normalizeSource], [calculateCounts], [safeErrorCode] and the error
    answer of the request handler.

    - JavaScript strings are sequences of UTF-16 code units ([list N]).
    - JavaScript numbers are IEEE-754 binary64 values, taken from the
      Standard Library's executable specification [SpecFloat]
      (precision 53, emax 1024).
    - The regular expressions of the source are terms of a small regex
      syntax, run by a backtracking matcher that follows the ECMAScript
      matching order (greedy quantifiers, first capture group). *)

From Stdlib Require Import ZArith NArith List Bool Lia String Ascii.
From Stdlib Require Import Floats.SpecFloat.
From Stdlib Require Import Reals Lra.
Import ListNotations.

Set Implicit Arguments.

(* ================================================================== *)
(** ** JavaScript strings *)
(* ================================================================== *)

Module JsString.

(** A UTF-16 code unit. *)
Definition char := N.
Definition jsstring := list char.

(** An ASCII literal of the source as a JavaScript string. *)
Definition lit (s : string) : jsstring :=
  List.map N_of_ascii (list_ascii_of_string s).

Definition chr (a : ascii) : char := N_of_ascii a.

(** Line terminators: LF, CR, U+2028, U+2029. *)
Definition is_line_terminator (c : char) : bool :=
  (c =? 10)%N || (c =? 13)%N || (c =? 8232)%N || (c =? 8233)%N.

(** The class [\s] (and the characters removed by [String.prototype.trim]):
    TAB, LF, VT, FF, CR, SPACE, NBSP, U+1680, U+2000..U+200A, U+2028,
    U+2029, U+202F, U+205F, U+3000, U+FEFF. *)
Definition is_space (c : char) : bool :=
  ((9 <=? c) && (c <=? 13))%N
  || (c =? 32)%N || (c =? 160)%N || (c =? 5760)%N
  || ((8192 <=? c) && (c <=? 8202))%N
  || (c =? 8232)%N || (c =? 8233)%N || (c =? 8239)%N
  || (c =? 8287)%N || (c =? 12288)%N || (c =? 65279)%N.

(** The class [.] (no [s] flag): anything but a line terminator. *)
Definition is_dot (c : char) : bool := negb (is_line_terminator c).

(** The class [[a-zA-Z0-9_-]]. *)
Definition is_ident (c : char) : bool :=
  ((97 <=? c) && (c <=? 122))%N || ((65 <=? c) && (c <=? 90))%N
  || ((48 <=? c) && (c <=? 57))%N || (c =? 95)%N || (c =? 45)%N.

Fixpoint trimStart (s : jsstring) : jsstring :=
  match s with
  | c :: s' => if is_space c then trimStart s' else s
  | [] => []
  end.

Definition trimEnd (s : jsstring) : jsstring := rev (trimStart (rev s)).

Definition trim (s : jsstring) : jsstring := trimEnd (trimStart s).

(** [toLowerCase], one code unit at a time. ASCII capitals get their
    small letter; U+212A (KELVIN SIGN) becomes "k" and U+0130 becomes "i"
    followed by U+0307, the only code units outside ASCII whose lower case
    contains an ASCII letter. Every other code unit outside ASCII
    lower-cases to code units outside ASCII and is kept as it is: the
    source only compares lower-cased strings with ASCII literals ([===],
    [includes]), and those comparisons come out the same. *)
Definition lower_unit (c : char) : list char :=
  if ((65 <=? c) && (c <=? 90))%N then [(c + 32)%N]
  else if (c =? 8490)%N then [107%N]
  else if (c =? 304)%N then [105%N; 775%N]
  else [c].

Definition toLowerCase (s : jsstring) : jsstring := flat_map lower_unit s.

Fixpoint startsWith (p s : jsstring) : bool :=
  match p, s with
  | [], _ => true
  | a :: p', b :: s' => (a =? b)%N && startsWith p' s'
  | _ :: _, [] => false
  end.

(** [a === b] on strings. *)
Fixpoint str_eqb (a b : jsstring) : bool :=
  match a, b with
  | [], [] => true
  | x :: a', y :: b' => (x =? y)%N && str_eqb a' b'
  | _, _ => false
  end.

Fixpoint includes (s needle : jsstring) : bool :=
  startsWith needle s
  || match s with
     | [] => false
     | _ :: s' => includes s' needle
     end.

(** [s.split(/\r?\n/)]: the pieces between the separators "\r\n" and
    "\n", scanned left to right; [acc] holds the current piece in
    reverse. *)
Fixpoint split_from (acc : jsstring) (s : jsstring) : list jsstring :=
  match s with
  | [] => [rev acc]
  | c :: s' =>
      if (c =? 10)%N then rev acc :: split_from [] s'
      else if (c =? 13)%N then
        match s' with
        | d :: s'' =>
            if (d =? 10)%N then rev acc :: split_from [] s''
            else split_from (c :: acc) s'
        | [] => split_from (c :: acc) s'
        end
      else split_from (c :: acc) s'
  end.

Definition split_lines (s : jsstring) : list jsstring := split_from [] s.

End JsString.

(* ================================================================== *)
(** ** Regular expressions *)
(* ================================================================== *)

Module Regex.
Import JsString.

(** The fragment of the ECMAScript pattern syntax the source uses. All
    patterns are written without the leading [^]: a pattern that starts
    with [^] (no [m] flag) can only match at index 0, which is where
    [test] and [exec] below start. *)
Inductive regex : Type :=
| Cls (p : char -> bool)       (* a character class *)
| Seq (r1 r2 : regex)          (* r1 r2 *)
| Star (r : regex)             (* r*, greedy *)
| Grp (r : regex)              (* ( r ), capture group 1 *)
| Eol.                         (* $ *)

Definition Plus (r : regex) : regex := Seq r (Star r).
Definition Chr (a : ascii) : regex := Cls (N.eqb (chr a)).

Fixpoint Lit (s : list ascii) : regex -> regex :=
  match s with
  | [] => fun k => k
  | a :: s' => fun k => Seq (Chr a) (Lit s' k)
  end.

Definition Str (s : string) (k : regex) : regex :=
  Lit (list_ascii_of_string s) k.

Section Matcher.
Variable R : Type.

(** A continuation receives the rest of the input and the current
    value of capture group 1. *)
Definition cont := jsstring -> option jsstring -> option R.

(** The prefix of [s] consumed when [rest] is what remains. *)
Definition consumed (s rest : jsstring) : jsstring :=
  firstn (List.length s - List.length rest) s.

(** The iterations of a greedy star over the matcher [m] of its body:
    one more iteration is tried first, the continuation [k] is the
    fallback. An iteration that consumes nothing is rejected, as the
    ECMAScript RepeatMatcher does; [fuel] bounds the number of
    iterations by the length of the input. *)
Fixpoint star_loop (m : jsstring -> option jsstring -> cont -> option R)
    (k : cont) (fuel : nat) (s : jsstring) (cap : option jsstring) : option R :=
  match fuel with
  | O => k s cap
  | S fuel' =>
      match m s cap
              (fun rest cap' =>
                 if (List.length rest <? List.length s)%nat
                 then star_loop m k fuel' rest cap' else None) with
      | Some x => Some x
      | None => k s cap
      end
  end.

(** Backtracking matcher in continuation-passing style. *)
Fixpoint rmatch (r : regex) : jsstring -> option jsstring -> cont -> option R :=
  match r with
  | Cls p => fun s cap k =>
      match s with
      | c :: s' => if p c then k s' cap else None
      | [] => None
      end
  | Seq r1 r2 => fun s cap k =>
      rmatch r1 s cap (fun s1 cap1 => rmatch r2 s1 cap1 k)
  | Star r' => fun s cap k =>
      star_loop (rmatch r') k (List.length s) s cap
  | Grp r' => fun s cap k =>
      rmatch r' s cap (fun rest _ => k rest (Some (consumed s rest)))
  | Eol => fun s cap k =>
      match s with
      | [] => k [] cap
      | _ :: _ => None
      end
  end.
End Matcher.

(** [RegExp.prototype.test] for an anchored pattern. *)
Definition test (r : regex) (s : jsstring) : bool :=
  match rmatch r s None (fun _ _ => Some tt) with
  | Some _ => true
  | None => false
  end.

(** [String.prototype.match] for an anchored pattern without the [g]
    flag: [None] is the [null] result, [Some cap] a match whose group 1
    is [cap]. *)
Definition exec (r : regex) (s : jsstring) : option (option jsstring) :=
  rmatch r s None (fun _ cap => Some cap).

(** [s.replace(r, "")] for an unanchored pattern without the [g] flag:
    the leftmost match is removed. *)
Fixpoint remove_first (r : regex) (s : jsstring) : jsstring :=
  match rmatch r s None (fun rest _ => Some rest) with
  | Some rest => rest
  | None =>
      match s with
      | [] => []
      | c :: s' => c :: remove_first r s'
      end
  end.

End Regex.

(* ================================================================== *)
(** ** JavaScript numbers *)
(* ================================================================== *)

Module JsNumber.
Import JsString.

(** IEEE-754 binary64. *)
Definition prec : Z := 53.
Definition emax : Z := 1024.

Definition num := spec_float.

Definition NaN : num := S754_nan.
Definition pos_zero : num := S754_zero false.

(** The number [m * 2^e], rounded to nearest even. *)
Definition of_scaled (m e : Z) : num := binary_normalize prec emax m e false.
Definition of_Z (z : Z) : num := of_scaled z 0.

Definition add : num -> num -> num := SFadd prec emax.
Definition mul : num -> num -> num := SFmul prec emax.
Definition div : num -> num -> num := SFdiv prec emax.

(** [a < b], [a <= b], [a > b]: false as soon as one side is NaN. *)
Definition lt (a b : num) : bool := SFltb a b.
Definition le (a b : num) : bool := SFleb a b.
Definition gt (a b : num) : bool := SFltb b a.

(** [Number.isFinite]. *)
Definition isFinite (x : num) : bool :=
  match x with
  | S754_zero _ | S754_finite _ _ _ => true
  | S754_infinity _ | S754_nan => false
  end.

(** [Number.EPSILON] = 2^-52. *)
Definition EPSILON : num := of_scaled 1 (-52).

(** A decimal literal [n / 10^k] of the source with [n] and [10^k] below
    2^53: both are exact doubles and IEEE division is correctly rounded,
    so the quotient is the double the literal denotes. *)
Definition decimal (n : Z) (k : Z) : num := div (of_Z n) (of_Z (10 ^ k)).

(** [Math.round]: the nearest integer, ties towards +infinity; NaN,
    infinities and zeros are returned as they are, and a negative
    argument that rounds to zero gives -0. *)
Definition Math_round (x : num) : num :=
  match x with
  | S754_finite s m e =>
      if (0 <=? e)%Z then x
      else
        let n := Z.shiftr (cond_Zopp s (Zpos m) + 2 ^ (- e - 1)) (- e) in
        if (n =? 0)%Z then S754_zero s else of_Z n
  | _ => x
  end.

(** *** [Number.parseFloat] *)

Definition is_digit (c : char) : bool := ((48 <=? c) && (c <=? 57))%N.

(** Reads a run of decimal digits: their value continuing [acc], their
    number, and the rest of the input. *)
Fixpoint read_digits (acc : Z) (n : Z) (s : jsstring) : Z * Z * jsstring :=
  match s with
  | c :: s' =>
      if is_digit c then read_digits (10 * acc + (Z.of_N c - 48)) (n + 1) s'
      else (acc, n, s)
  | [] => (acc, n, s)
  end.

(** The optional ExponentPart [[eE][+-]?digits]; 0 when absent or
    incomplete. *)
Definition read_exponent (s : jsstring) : Z :=
  match s with
  | c :: s' =>
      if (c =? 101)%N || (c =? 69)%N then
        let '(neg, s'') :=
          match s' with
          | d :: t => if (d =? 45)%N then (true, t)
                      else if (d =? 43)%N then (false, t) else (false, s')
          | [] => (false, s')
          end in
        let '(v, n, _) := read_digits 0 0 s'' in
        if (n =? 0)%Z then 0%Z else if neg then (- v)%Z else v
      else 0%Z
  | [] => 0%Z
  end.

(** The double nearest to [(-1)^neg * m * 10^e]. *)
Definition of_decimal (neg : bool) (m : Z) (e : Z) : num :=
  match m with
  | Zpos p =>
      if (0 <=? e)%Z then
        binary_normalize prec emax (cond_Zopp neg (Zpos p * 10 ^ e)) 0 false
      else
        let '(q, e', l) := SFdiv_core_binary prec emax (Zpos p) 0 (10 ^ (- e)) 0 in
        binary_round_aux prec emax neg q e' l
  | _ => S754_zero neg
  end.

(** The longest prefix that is a StrUnsignedDecimalLiteral. *)
Definition parse_unsigned (neg : bool) (s : jsstring) : num :=
  if startsWith (lit "Infinity") s then S754_infinity neg
  else
    let '(ip, ni, s1) := read_digits 0 0 s in
    let '(m, nf, s2) :=
      match s1 with
      | c :: t =>
          if (c =? 46)%N then
            let '(m, nf, s2) := read_digits ip 0 t in
            (* "." alone is no literal: nothing is consumed *)
            if (ni =? 0)%Z && (nf =? 0)%Z then (ip, 0%Z, s1) else (m, nf, s2)
          else (ip, 0%Z, s1)
      | [] => (ip, 0%Z, s1)
      end in
    if (ni =? 0)%Z && (nf =? 0)%Z then NaN
    else of_decimal neg m (read_exponent s2 - nf).

Definition parseFloat (s : jsstring) : num :=
  match trimStart s with
  | c :: t =>
      if (c =? 45)%N then parse_unsigned true t
      else if (c =? 43)%N then parse_unsigned false t
      else parse_unsigned false (c :: t)
  | [] => NaN
  end.

End JsNumber.

(* ================================================================== *)
(** ** Thrown values *)
(* ================================================================== *)

Module JsError.
Import JsString.

(** What a [catch] clause receives, as far as the source looks at it:
    an [Error] with its [name] and [message], or any other value. *)
Inductive thrown : Type :=
| ThrownError (name message : jsstring)
| ThrownOther.

(** [new Error(message)] *)
Definition new_Error (message : string) : thrown :=
  ThrownError (lit "Error") (lit message).

(** A returned value or a thrown value. *)
Inductive outcome (A : Type) : Type :=
| Ok (a : A)
| Raise (e : thrown).
Arguments Ok {A} a.
Arguments Raise {A} e.

(** The class [[a-z0-9_]] of the error-code patterns. *)
Definition is_code_char (c : char) : bool :=
  ((97 <=? c) && (c <=? 122))%N || ((48 <=? c) && (c <=? 57))%N || (c =? 95)%N.

End JsError.

(* ================================================================== *)
(** ** The estimator *)
(* ================================================================== *)

Module Estimator.
Import JsString Regex JsNumber JsError.

Local Open Scope Z_scope.
Local Open Scope string_scope.
Local Open Scope list_scope.

Infix ";;" := Seq (at level 61, right associativity).

(** *** Types *)

(** [PolicyMode] is a string at run time; the sanitizer is what
    restricts it to "warn" and "block". *)
Record EstimateInput : Type := {
  workflowYaml : jsstring;
  monthlyRuns : num;
  budgetUsd : num;
  policyMode : jsstring
}.

(** The element type of the scanner's job list. Step and job counts are
    integers that only grow by one per input line: they stay far below
    2^53, where the double arithmetic of the source is exact. *)
Module Job.
Record t : Type := { os : string; steps : Z; minutes : num }.
End Job.

Module OsEstimate.
Record t : Type := {
  os : string;
  jobs : Z;
  stepCount : Z;
  minutesPerRun : num;
  costPerRunUsd : num
}.
End OsEstimate.

Module Summary.
Record t : Type := {
  jobs : Z;
  stepCount : Z;
  minutesPerRun : num;
  costPerRunUsd : num;
  monthlyRuns : num;
  monthlyCostUsd : num;
  budgetUsd : num;
  policyMode : jsstring;
  policyDecision : jsstring
}.
End Summary.

Record EstimateResult : Type := {
  summary : Summary.t;
  byOs : list OsEstimate.t;
  assumptions : list string
}.

(** *** Constants *)

Definition OS_RATE_PER_MINUTE_USD (os : string) : option num :=
  if String.eqb os "linux" then Some (decimal 8 3)
  else if String.eqb os "windows" then Some (decimal 16 3)
  else if String.eqb os "macos" then Some (decimal 8 2)
  else None.

Definition STEP_MINUTES_uses : num := decimal 15 1.
Definition STEP_MINUTES_run : num := of_Z 3.

Definition roundMoney (value : num) : num :=
  div (Math_round (mul (add value EPSILON) (of_Z 100))) (of_Z 100).

(** *** The scanner *)

Definition parseRunsOn (raw : jsstring) : string :=
  let normalized := toLowerCase (trim raw) in
  if includes normalized (lit "windows") then "windows"
  else if includes normalized (lit "macos") || includes normalized (lit "mac")
  then "macos"
  else "linux".

Definition ws : regex := Cls is_space.

(** [/#.*$/] *)
Definition re_comment : regex := Chr "#" ;; Star (Cls is_dot) ;; Eol.
(** [/^jobs\s*:/] *)
Definition re_jobs : regex := Str "jobs" (Star ws ;; Chr ":").
(** [/^\s{2}[a-zA-Z0-9_-]+\s*:\s*$/] *)
Definition re_job_header : regex :=
  ws ;; ws ;; Plus (Cls is_ident) ;; Star ws ;; Chr ":" ;; Star ws ;; Eol.
(** [/^\s{4}runs-on\s*:\s*(.+)\s*$/] *)
Definition re_runs_on : regex :=
  ws ;; ws ;; ws ;; ws ;;
  Str "runs-on" (Star ws ;; Chr ":" ;; Star ws ;; Grp (Plus (Cls is_dot)) ;; Star ws ;; Eol).
(** [/^\s{6}-\s+uses\s*:/] *)
Definition re_uses : regex :=
  ws ;; ws ;; ws ;; ws ;; ws ;; ws ;;
  Chr "-" ;; Plus ws ;; Str "uses" (Star ws ;; Chr ":").
(** [/^\s{6}-\s+run\s*:/] *)
Definition re_run : regex :=
  ws ;; ws ;; ws ;; ws ;; ws ;; ws ;;
  Chr "-" ;; Plus ws ;; Str "run" (Star ws ;; Chr ":").

(** The loop variables of [parseJobsAndSteps]. *)
Record ScanState : Type := {
  jobs : list Job.t;
  inJobs : bool;
  currentJob : option Job.t
}.

Definition scan_init : ScanState :=
  {| jobs := []; inJobs := false; currentJob := None |}.

Definition new_job : Job.t :=
  {| Job.os := "linux"; Job.steps := 0; Job.minutes := of_Z 2 |}.

Definition fallback_job : Job.t :=
  {| Job.os := "linux"; Job.steps := 3; Job.minutes := decimal 85 1 |}.

(** [jobs.push(currentJob)] when there is a current job. *)
Definition push_current (st : ScanState) : list Job.t :=
  match currentJob st with
  | Some j => jobs st ++ [j]
  | None => jobs st
  end.

Definition add_step (j : Job.t) (m : num) : Job.t :=
  {| Job.os := Job.os j;
     Job.steps := Job.steps j + 1;
     Job.minutes := add (Job.minutes j) m |}.

(** Group 1 of [re_runs_on] takes part in every match. *)
Definition group1 (cap : option jsstring) : jsstring :=
  match cap with Some c => c | None => [] end.

Definition isJobHeader (line : jsstring) : bool := test re_job_header line.

(** One iteration of the loop over the lines. *)
Definition scan_line (st : ScanState) (rawLine : jsstring) : ScanState :=
  let line := remove_first re_comment rawLine in
  let trimmed := trim line in
  if negb (inJobs st) && test re_jobs trimmed then
    {| jobs := jobs st; inJobs := true; currentJob := currentJob st |}
  else if negb (inJobs st) || match trimmed with [] => true | _ => false end then
    st
  else if isJobHeader line then
    {| jobs := push_current st; inJobs := inJobs st; currentJob := Some new_job |}
  else
    match currentJob st with
    | None => st
    | Some j =>
        match exec re_runs_on line with
        | Some cap =>
            {| jobs := jobs st; inJobs := inJobs st;
               currentJob := Some {| Job.os := parseRunsOn (group1 cap);
                                     Job.steps := Job.steps j;
                                     Job.minutes := Job.minutes j |} |}
        | None =>
            if test re_uses line then
              {| jobs := jobs st; inJobs := inJobs st;
                 currentJob := Some (add_step j STEP_MINUTES_uses) |}
            else if test re_run line then
              {| jobs := jobs st; inJobs := inJobs st;
                 currentJob := Some (add_step j STEP_MINUTES_run) |}
            else st
        end
    end.

Definition scan (workflowYaml : jsstring) : ScanState :=
  fold_left scan_line (split_lines workflowYaml) scan_init.

(** The job list after the final [jobs.push(currentJob)]. *)
Definition recognized_jobs (workflowYaml : jsstring) : list Job.t :=
  push_current (scan workflowYaml).

Definition parseJobsAndSteps (workflowYaml : jsstring) : list Job.t :=
  match recognized_jobs workflowYaml with
  | [] => [fallback_job]
  | js => js
  end.

(** *** The aggregator *)

(** [Map<string, OsEstimate>]: entries in insertion order; [set] on a
    present key keeps its position. *)
Definition OsMap := list (string * OsEstimate.t).

Fixpoint map_get (m : OsMap) (k : string) : option OsEstimate.t :=
  match m with
  | [] => None
  | (k', v) :: m' => if String.eqb k' k then Some v else map_get m' k
  end.

Fixpoint map_set (m : OsMap) (k : string) (v : OsEstimate.t) : OsMap :=
  match m with
  | [] => [(k, v)]
  | (k', v') :: m' =>
      if String.eqb k' k then (k', v) :: m' else (k', v') :: map_set m' k v
  end.

Definition rate_of (os : string) : num :=
  match OS_RATE_PER_MINUTE_USD os with
  | Some r => r
  | None => decimal 8 3
  end.

Definition add_job (byOsMap : OsMap) (job : Job.t) : OsMap :=
  let rate := rate_of (Job.os job) in
  let existing :=
    match map_get byOsMap (Job.os job) with
    | Some e => e
    | None => {| OsEstimate.os := Job.os job; OsEstimate.jobs := 0;
                 OsEstimate.stepCount := 0;
                 OsEstimate.minutesPerRun := pos_zero;
                 OsEstimate.costPerRunUsd := pos_zero |}
    end in
  map_set byOsMap (Job.os job)
    {| OsEstimate.os := OsEstimate.os existing;
       OsEstimate.jobs := OsEstimate.jobs existing + 1;
       OsEstimate.stepCount := OsEstimate.stepCount existing + Job.steps job;
       OsEstimate.minutesPerRun := add (OsEstimate.minutesPerRun existing) (Job.minutes job);
       OsEstimate.costPerRunUsd :=
         add (OsEstimate.costPerRunUsd existing) (mul (Job.minutes job) rate) |}.

Definition emit (entry : OsEstimate.t) : OsEstimate.t :=
  {| OsEstimate.os := OsEstimate.os entry;
     OsEstimate.jobs := OsEstimate.jobs entry;
     OsEstimate.stepCount := OsEstimate.stepCount entry;
     OsEstimate.minutesPerRun := roundMoney (OsEstimate.minutesPerRun entry);
     OsEstimate.costPerRunUsd := roundMoney (OsEstimate.costPerRunUsd entry) |}.

Definition aggregateByOs (jobs : list Job.t) : list OsEstimate.t :=
  List.map (fun kv => emit (snd kv)) (fold_left add_job jobs []).

(** *** The estimate *)

(** The accumulators of the loop over [byOs]:
    minutesPerRun, costPerRunUsd, totalJobs, totalSteps. *)
Definition totals := (num * num * Z * Z)%type.

Definition add_entry (acc : totals) (osEntry : OsEstimate.t) : totals :=
  let '(minutesPerRun, costPerRunUsd, totalJobs, totalSteps) := acc in
  (add minutesPerRun (OsEstimate.minutesPerRun osEntry),
   add costPerRunUsd (OsEstimate.costPerRunUsd osEntry),
   totalJobs + OsEstimate.jobs osEntry,
   totalSteps + OsEstimate.stepCount osEntry).

Definition sum_entries (byOs : list OsEstimate.t) : totals :=
  fold_left add_entry byOs (pos_zero, pos_zero, 0, 0).

Definition the_assumptions : list string :=
  [ "Default base runtime is 2 minutes per job before step costs.";
    "Step runtime assumptions: uses=1.5m, run=3m.";
    "Hosted runner rates used: Linux $0.008/min, Windows $0.016/min, macOS $0.08/min.";
    "Matrix expansion is not modeled explicitly unless represented as separate jobs in YAML." ].

Definition estimateWorkflowCost (input : EstimateInput) : EstimateResult :=
  let jobs := parseJobsAndSteps (workflowYaml input) in
  let byOs := aggregateByOs jobs in
  let '(minutesPerRun, costPerRunUsd, totalJobs, totalSteps) := sum_entries byOs in
  let monthlyCostUsd := roundMoney (mul costPerRunUsd (monthlyRuns input)) in
  let policyDecision :=
    if gt monthlyCostUsd (budgetUsd input) then policyMode input else lit "pass" in
  {| summary :=
       {| Summary.jobs := totalJobs;
          Summary.stepCount := totalSteps;
          Summary.minutesPerRun := roundMoney minutesPerRun;
          Summary.costPerRunUsd := roundMoney costPerRunUsd;
          Summary.monthlyRuns := monthlyRuns input;
          Summary.monthlyCostUsd := monthlyCostUsd;
          Summary.budgetUsd := budgetUsd input;
          Summary.policyMode := policyMode input;
          Summary.policyDecision := policyDecision |};
     byOs := byOs;
     assumptions := the_assumptions |}.

(** *** The sanitizer *)

(** A field of the untyped payload, as far as the sanitizer looks at
    it: a number, a string, or any other value, given by what
    [String(v)] does with it. For undefined (a missing field), null, a
    boolean, an array or an object with a string form it returns the
    string [str]; for a value without primitive form it throws [error]:
    a TypeError for an object whose [toString] and [valueOf] give no
    primitive (the JSON value [{"toString": null}]), or whatever its
    conversion method throws. *)
Inductive jsvalue : Type :=
| VNumber (n : num)
| VString (s : jsstring)
| VOther (str : jsstring)
| VNoString (error : thrown).

Module Payload.
Record t : Type := {
  workflowYaml : jsvalue;
  monthlyRuns : jsvalue;
  budgetUsd : jsvalue;
  policyMode : jsvalue
}.
End Payload.

(** A returned value, an [Error] thrown by the function itself, with
    its message, or the exception of a call inside it that it does not
    catch. *)
Inductive result (A : Type) : Type :=
| Return (a : A)
| Throw (message : string)
| Rethrown (error : thrown).
Arguments Return {A} a.
Arguments Throw {A} message.
Arguments Rethrown {A} error.

Definition bind (A B : Type) (r : result A) (f : A -> result B) : result B :=
  match r with
  | Return a => f a
  | Throw message => Throw message
  | Rethrown error => Rethrown error
  end.

(** [typeof v === "number" ? v : Number.parseFloat(String(v))]:
    [String] is called on every value that is no number, and its
    exception is not caught. *)
Definition number_of (v : jsvalue) : result num :=
  match v with
  | VNumber n => Return n
  | VString s => Return (parseFloat s)
  | VOther str => Return (parseFloat str)
  | VNoString error => Rethrown error
  end.

(** [typeof v === "string" ? f(v) : ""] *)
Definition string_or_empty (f : jsstring -> jsstring) (v : jsvalue) : jsstring :=
  match v with
  | VString s => f s
  | _ => []
  end.

Definition is_empty (s : jsstring) : bool :=
  match s with [] => true | _ => false end.

Definition sanitizeEstimateInput (payload : Payload.t) : result EstimateInput :=
  let workflowYaml := string_or_empty trim (Payload.workflowYaml payload) in
  if is_empty workflowYaml || (100000 <? Z.of_nat (List.length workflowYaml))%Z then
    Throw "invalid_workflow_yaml"
  else
    bind (number_of (Payload.monthlyRuns payload)) (fun monthlyRuns =>
    if negb (isFinite monthlyRuns) || le monthlyRuns pos_zero
       || gt monthlyRuns (of_Z 1000000) then
      Throw "invalid_monthly_runs"
    else
      bind (number_of (Payload.budgetUsd payload)) (fun budgetUsd =>
      if negb (isFinite budgetUsd) || le budgetUsd pos_zero
         || gt budgetUsd (of_Z 1000000) then
        Throw "invalid_budget_usd"
      else
        let modeRaw :=
          string_or_empty (fun s => toLowerCase (trim s)) (Payload.policyMode payload) in
        if negb (str_eqb modeRaw (lit "warn"))
           && negb (str_eqb modeRaw (lit "block")) then
          Throw "invalid_policy_mode"
        else
          Return {| workflowYaml := workflowYaml;
                    monthlyRuns := Math_round monthlyRuns;
                    budgetUsd := roundMoney budgetUsd;
                    policyMode := modeRaw |})).

End Estimator.

(* ================================================================== *)
(** ** The workflow import (workflow-import.ts) *)
(* ================================================================== *)

Module WorkflowImport.
Import JsString Regex JsNumber Estimator JsError.

Local Open Scope Z_scope.
Local Open Scope string_scope.
Local Open Scope list_scope.

Definition MAX_WORKFLOW_YAML_BYTES : Z := 100000.

(** The field of the untyped payload [sanitizeWorkflowUrl] reads. *)
Module ImportPayload.
Record t : Type := { workflowUrl : jsvalue }.
End ImportPayload.

Definition sanitizeWorkflowUrl (payload : ImportPayload.t) : result jsstring :=
  let workflowUrl := string_or_empty trim (ImportPayload.workflowUrl payload) in
  if is_empty workflowUrl || (2048 <? Z.of_nat (List.length workflowUrl))%Z then
    Throw "invalid_workflow_url"
  else Return workflowUrl.

(** *** [assertYamlPath] *)

(** A letter of a pattern with the [i] flag (and no [u] flag): a code
    unit matches when its upper case is the letter's, and a code unit
    outside ASCII never canonicalizes to an ASCII letter. *)
Definition ci (a : ascii) : regex :=
  Cls (fun c => (c =? chr a)%N || (c =? chr a - 32)%N).

(** [/\.ya?ml$/i] tried at the start of [s]. The optional [a?] is the
    bounded repetition [a{0,1}]: one iteration of the greedy loop. *)
Definition yaml_ext_at (s : jsstring) : option unit :=
  rmatch (Chr "." ;; ci "y") s None
    (fun s1 cap1 =>
       star_loop (rmatch (ci "a"))
         (fun s2 cap2 => rmatch (ci "m" ;; ci "l" ;; Eol) s2 cap2 (fun _ _ => Some tt))
         1 s1 cap1).

(** [RegExp.prototype.test] for a pattern without [^]: the match is
    tried at every index from the left, the end of the input included. *)
Fixpoint search (m : jsstring -> option unit) (s : jsstring) : bool :=
  match m s with
  | Some _ => true
  | None =>
      match s with
      | [] => false
      | _ :: s' => search m s'
      end
  end.

Definition assertYamlPath (pathname : jsstring) : result unit :=
  if negb (search yaml_ext_at pathname) then Throw "invalid_workflow_path"
  else Return tt.

(** *** [resolveRawWorkflowUrl] *)

(** The fields of a parsed [URL] the source reads; [toString()] is
    [href]. *)
Record URL : Type := {
  protocol : jsstring;
  hostname : jsstring;
  pathname : jsstring;
  href : jsstring
}.

(** [s.split(sep)] for a separator of one code unit; [acc] holds the
    current piece in reverse. *)
Fixpoint split_on (sep : char) (acc : jsstring) (s : jsstring) : list jsstring :=
  match s with
  | [] => [rev acc]
  | c :: s' =>
      if (c =? sep)%N then rev acc :: split_on sep [] s'
      else split_on sep (c :: acc) s'
  end.

(** [parts.join(sep)] *)
Fixpoint join (sep : char) (parts : list jsstring) : jsstring :=
  match parts with
  | [] => []
  | [p] => p
  | p :: parts' => p ++ sep :: join sep parts'
  end.

(** [.filter(Boolean)] on strings keeps the non-empty ones. *)
Definition filter_Boolean (l : list jsstring) : list jsstring :=
  filter (fun s => negb (is_empty s)) l.

Definition SLASH : char := chr "/".

Section Resolve.

(** [new URL(s)] of the platform: [None] when it throws. *)
Variable new_URL : jsstring -> option URL.

Definition resolveRawWorkflowUrl (workflowUrl : jsstring) : result jsstring :=
  match new_URL workflowUrl with
  | None => Throw "invalid_workflow_url"
  | Some parsed =>
      if negb (str_eqb (protocol parsed) (lit "https:")) then
        Throw "invalid_workflow_url"
      else
        let host := toLowerCase (hostname parsed) in
        if str_eqb host (lit "raw.githubusercontent.com") then
          match assertYamlPath (pathname parsed) with
          | Throw m => Throw m
          | Rethrown e => Rethrown e
          | Return _ => Return (href parsed)
          end
        else if negb (str_eqb host (lit "github.com")) then
          Throw "invalid_workflow_host"
        else
          let segments := filter_Boolean (split_on SLASH [] (pathname parsed)) in
          if (Z.of_nat (List.length segments) <? 6)%Z then
            Throw "invalid_workflow_path"
          else
            match segments with
            | owner :: repo :: mode :: ref :: fileParts =>
                if (negb (str_eqb mode (lit "blob")) && negb (str_eqb mode (lit "raw")))
                   || is_empty owner || is_empty repo || is_empty ref
                   || (Z.of_nat (List.length fileParts) =? 0)%Z
                then Throw "invalid_workflow_path"
                else
                  let filePath := join SLASH fileParts in
                  match assertYamlPath filePath with
                  | Throw m => Throw m
                  | Rethrown e => Rethrown e
                  | Return _ =>
                      Return (lit "https://raw.githubusercontent.com/"
                              ++ owner ++ SLASH :: repo ++ SLASH :: ref
                              ++ SLASH :: filePath)
                  end
            | _ =>
                (* fewer than four segments: [owner], [repo] or [ref]
                   would be undefined *)
                Throw "invalid_workflow_path"
            end
  end.

End Resolve.

(** *** [fetchWorkflowYaml] *)

(** [Buffer.byteLength(s, "utf8")]: one to three bytes for a code
    unit of the basic plane, four for a surrogate pair, three for a
    lone surrogate (encoded as U+FFFD). *)
Definition is_high_surrogate (c : char) : bool := ((55296 <=? c) && (c <=? 56319))%N.
Definition is_low_surrogate (c : char) : bool := ((56320 <=? c) && (c <=? 57343))%N.

Fixpoint byteLength (s : jsstring) : Z :=
  match s with
  | [] => 0
  | c :: s' =>
      if (c <? 128)%N then 1 + byteLength s'
      else if (c <? 2048)%N then 2 + byteLength s'
      else if is_high_surrogate c then
        match s' with
        | d :: s'' =>
            if is_low_surrogate d then 4 + byteLength s''
            else 3 + byteLength s'
        | [] => 3
        end
      else 3 + byteLength s'
  end.

(** How [response.text()] and [fetchFn(url, init)] settle. A request
    aborted by the timer is a rejection with an [AbortError]. *)
Inductive text_result : Type :=
| TextOf (text : jsstring)
| TextRejected (e : thrown).

Inductive fetch_result : Type :=
| Responded (ok : bool) (text : text_result)
| Rejected (e : thrown).

(** [/^workflow_[a-z0-9_]+$/] *)
Definition re_workflow_message : regex :=
  Str "workflow_" (Plus (Cls is_code_char) ;; Eol).

(** The body of the [try] block. *)
Definition fetch_attempt (response : fetch_result) : outcome jsstring :=
  match response with
  | Rejected e => Raise e
  | Responded ok text =>
      if negb ok then Raise (new_Error "workflow_fetch_failed")
      else
        match text with
        | TextRejected e => Raise e
        | TextOf workflowYaml =>
            let payloadSize := byteLength workflowYaml in
            if is_empty (trim workflowYaml) then Raise (new_Error "workflow_empty")
            else if (MAX_WORKFLOW_YAML_BYTES <? payloadSize)%Z then
              Raise (new_Error "workflow_too_large")
            else Ok workflowYaml
        end
  end.

Definition fetchWorkflowYaml (rawWorkflowUrl : jsstring)
    (fetchFn : jsstring -> fetch_result) : outcome jsstring :=
  match fetch_attempt (fetchFn rawWorkflowUrl) with
  | Ok workflowYaml => Ok workflowYaml
  | Raise error =>
      match error with
      | ThrownError name message =>
          if str_eqb name (lit "AbortError") then
            Raise (new_Error "workflow_fetch_timeout")
          else if test re_workflow_message message then Raise error
          else Raise (new_Error "workflow_fetch_failed")
      | ThrownOther => Raise (new_Error "workflow_fetch_failed")
      end
  end.

End WorkflowImport.

(* ================================================================== *)
(** ** The helpers of the server (server.ts) *)
(* ================================================================== *)

Module Server.
Import JsString Regex JsNumber Estimator JsError.

Local Open Scope Z_scope.
Local Open Scope string_scope.
Local Open Scope list_scope.

(** A value of type [unknown], as far as [parseBoolean] and
    [normalizeSource] tell values apart. *)
Inductive unknown : Type :=
| UTrue                     (* the boolean [true] *)
| UNumber (n : num)
| UString (s : jsstring)
| UOther.                   (* false, null, undefined, arrays, objects *)

Definition parseBoolean (value : unknown) : bool :=
  match value with
  | UTrue => true
  | UNumber n => SFeqb n (of_Z 1)
  | UString s =>
      let normalized := toLowerCase (trim s) in
      str_eqb normalized (lit "true") || str_eqb normalized (lit "1")
      || str_eqb normalized (lit "yes")
  | UOther => false
  end.

(** [[a-z0-9]] and [[a-z0-9_-]] *)
Definition is_lower_digit (c : char) : bool :=
  ((97 <=? c) && (c <=? 122))%N || ((48 <=? c) && (c <=? 57))%N.

Definition is_source_char (c : char) : bool :=
  is_lower_digit c || (c =? 95)%N || (c =? 45)%N.

(** [/^[a-z0-9][a-z0-9_-]{0,39}$/]: the bounded repetition is the
    greedy loop with at most 39 iterations. *)
Definition test_source (s : jsstring) : bool :=
  match rmatch (Cls is_lower_digit) s None
          (fun s1 cap1 =>
             star_loop (rmatch (Cls is_source_char))
               (fun s2 cap2 => rmatch Eol s2 cap2 (fun _ _ => Some tt))
               39 s1 cap1) with
  | Some _ => true
  | None => false
  end.

(** The lower-cased text is returned only when it passes [test_source],
    that is when it is made of ASCII letters, digits, "_" and "-":
    on those texts [toLowerCase] above is exact. *)
Definition normalizeSource (value : unknown) (fallback : jsstring) : jsstring :=
  match value with
  | UString s =>
      let normalized := toLowerCase (trim s) in
      if negb (test_source normalized) then fallback else normalized
  | _ => fallback
  end.

(** *** Metrics *)

Inductive EventType : Type := landing_view | estimate_generated | checkout_started.

Module MetricsCounts.
Record t : Type := {
  landing_view : Z;
  estimate_generated : Z;
  checkout_started : Z
}.
End MetricsCounts.

(** An element of [state.events], with the two fields [calculateCounts]
    reads. [selfTest] is [None] when the stored value is no boolean
    (an event loaded from the state file may hold anything there). *)
Module EventRecord.
Record t : Type := {
  eventType : EventType;
  selfTest : option bool
}.
End EventRecord.

Definition emptyCounts : MetricsCounts.t :=
  {| MetricsCounts.landing_view := 0;
     MetricsCounts.estimate_generated := 0;
     MetricsCounts.checkout_started := 0 |}.

(** [counts[eventType] += 1] *)
Definition increment (counts : MetricsCounts.t) (eventType : EventType) : MetricsCounts.t :=
  match eventType with
  | landing_view =>
      {| MetricsCounts.landing_view := MetricsCounts.landing_view counts + 1;
         MetricsCounts.estimate_generated := MetricsCounts.estimate_generated counts;
         MetricsCounts.checkout_started := MetricsCounts.checkout_started counts |}
  | estimate_generated =>
      {| MetricsCounts.landing_view := MetricsCounts.landing_view counts;
         MetricsCounts.estimate_generated := MetricsCounts.estimate_generated counts + 1;
         MetricsCounts.checkout_started := MetricsCounts.checkout_started counts |}
  | checkout_started =>
      {| MetricsCounts.landing_view := MetricsCounts.landing_view counts;
         MetricsCounts.estimate_generated := MetricsCounts.estimate_generated counts;
         MetricsCounts.checkout_started := MetricsCounts.checkout_started counts + 1 |}
  end.

(** [event.selfTest !== selfTestFilter] *)
Definition differs (selfTest : option bool) (selfTestFilter : bool) : bool :=
  match selfTest with
  | Some b => negb (Bool.eqb b selfTestFilter)
  | None => true
  end.

(** [calculateCounts] over [state.events]; the optional argument is
    [None] when it is left out. *)
Definition calculateCounts (events : list EventRecord.t)
    (selfTestFilter : option bool) : MetricsCounts.t :=
  fold_left
    (fun counts event =>
       match selfTestFilter with
       | Some f =>
           if differs (EventRecord.selfTest event) f then counts
           else increment counts (EventRecord.eventType event)
       | None => increment counts (EventRecord.eventType event)
       end)
    events emptyCounts.

(** *** Error codes *)

(** [/^invalid_[a-z0-9_]+$/] and [/^workflow_[a-z0-9_]+$/] *)
Definition re_invalid : regex :=
  Str "invalid_" (Plus (Cls is_code_char) ;; Eol).
Definition re_workflow : regex :=
  Str "workflow_" (Plus (Cls is_code_char) ;; Eol).

Definition safeErrorCode (error : thrown) : jsstring :=
  match error with
  | ThrownError _ message =>
      if test re_invalid message || test re_workflow message then message
      else lit "invalid_request"
  | ThrownOther => lit "invalid_request"
  end.

(** The [catch] clause of the request handler: the status code and
    the [error] field of the JSON answer. *)
Definition error_response (error : thrown) : Z * jsstring :=
  let code := safeErrorCode error in
  if str_eqb code (lit "payload_too_large") then (413, code)
  else (400, code).

End Server.

(* ================================================================== *)
(** ** Definitions used to state the properties *)
(* ================================================================== *)

Module Props.
Import JsString Regex JsNumber JsError Estimator.

(** The job-header pattern as the specification words it,
    [^  [A-Za-z0-9_-]+:\s*$]: two space characters, an identifier,
    a colon directly after it, optional trailing whitespace. *)
Definition re_job_header_spec : regex :=
  Chr " " ;; Chr " " ;; Plus (Cls is_ident) ;; Chr ":" ;; Star ws ;; Eol.

(** The lines [re_job_header] accepts, spelled out: two whitespace
    characters, a non-empty identifier, optional whitespace, a colon,
    optional whitespace up to the end of the line. *)
Definition job_header_shape (line : jsstring) : Prop :=
  exists a b ident w1 w2,
    line = a :: b :: ident ++ w1 ++ chr ":" :: w2
    /\ is_space a = true /\ is_space b = true
    /\ ident <> [] /\ forallb is_ident ident = true
    /\ forallb is_space w1 = true /\ forallb is_space w2 = true.

Definition TAB : char := 9%N.
Definition LF : char := 10%N.

(** Joins lines with "\n". *)
Fixpoint unlines (ls : list string) : jsstring :=
  match ls with
  | [] => []
  | l :: ls' => lit l ++ LF :: unlines ls'
  end.

(** The line of a workflow once its comment is stripped. *)
Definition strip (rawLine : jsstring) : jsstring :=
  remove_first re_comment rawLine.

(** A [runs-on:] line or a [- uses:] / [- run:] step line. *)
Definition is_field_line (line : jsstring) : bool :=
  match exec re_runs_on line with Some _ => true | None => false end
  || test re_uses line || test re_run line.

Definition is_os_label (os : string) : Prop :=
  os = "linux"%string \/ os = "windows"%string \/ os = "macos"%string.

(** The three rejection tests of the sanitizer before the policy mode. *)
Definition workflow_rejected (v : jsvalue) : bool :=
  let y := string_or_empty trim v in
  is_empty y || (100000 <? Z.of_nat (List.length y))%Z.

(** Used to state properties only: the string that [String(v)]
    returns for a field that is no number, and the number that
    [number_of v] returns, where they return. For a field without
    string form, where the source throws, they are the empty string
    and the number read from it. *)
Definition String_of (v : jsvalue) : jsstring :=
  match v with
  | VString s => s
  | VOther str => str
  | _ => []
  end.

Definition to_number (v : jsvalue) : num :=
  match v with
  | VNumber n => n
  | _ => parseFloat (String_of v)
  end.

(** The exception of [String(v)], for a field without string form. *)
Definition no_string (v : jsvalue) : option thrown :=
  match v with
  | VNoString error => Some error
  | _ => None
  end.

Definition number_rejected (v : jsvalue) : bool :=
  let n := to_number v in
  negb (isFinite n) || le n pos_zero || gt n (of_Z 1000000).

(** Scenario B: an [ubuntu-latest] job with two [uses] steps and one
    [run] step, and a [windows-latest] job with one [uses] step. *)
Definition scenario_B : jsstring :=
  unlines [ "name: CI";
            "on: [push]";
            "jobs:";
            "  build:";
            "    runs-on: ubuntu-latest";
            "    steps:";
            "      - uses: actions/checkout@v4";
            "      - uses: actions/setup-node@v4";
            "      - run: npm test";
            "  package:";
            "    runs-on: windows-latest";
            "    steps:";
            "      - uses: actions/checkout@v4" ]%string.

End Props.

(* ================================================================== *)
(** ** Real values of doubles *)
(* ================================================================== *)

Module Values.
Import JsNumber Estimator.
Local Open Scope R_scope.

(** Powers of two and the number [m * 2^e]. *)
Definition bpow (e : Z) : R := powerRZ 2 e.
Definition F2R (m e : Z) : R := IZR m * bpow e.

(** The value of a double; zeros, infinities and NaN count as 0. *)
Definition B2R (f : spec_float) : R :=
  match f with
  | S754_finite s m e => F2R (cond_Zopp s (Zpos m)) e
  | _ => 0
  end.

(** The unit roundoff 2^-53. *)
Definition u : R := / 9007199254740992.

(** A positive normal double. *)
Definition pnormal (f : spec_float) : Prop :=
  exists m e, f = S754_finite false m e
              /\ digits2_pos m = 53%positive /\ (-1074 <= e <= 971)%Z.

(** Where [x] lies in the interval from [m * 2^e] to [(m+1) * 2^e]. *)
Definition inbetween (m e : Z) (x : R) (l : location) : Prop :=
  match l with
  | loc_Exact => x = F2R m e
  | loc_Inexact Lt => F2R m e < x < F2R m e + bpow e / 2
  | loc_Inexact Eq => x = F2R m e + bpow e / 2
  | loc_Inexact Gt => F2R m e + bpow e / 2 < x < F2R m e + bpow e
  end.

(** The invariant of the right shifts of [binary_round_aux]: the
    mantissa is not negative and the round and sticky bits locate [x]. *)
Definition shr_inv (mrs : shr_record) (e : Z) (x : R) : Prop :=
  (0 <= shr_m mrs)%Z /\ inbetween (shr_m mrs) e x (loc_of_shr_record mrs).

(** The range in which the cost computation stays. *)
Definition small : R := / 1000000000000000000.
Definition big : R := 1000000000000000000.

(** The loop that adds up the costs of [byOs], and the exact sum. *)
Definition fsum (cs : list num) : num := fold_left add cs pos_zero.
Definition sumR (cs : list num) : R := fold_right (fun c a => B2R c + a) 0 cs.

Definition costs (byOs : list OsEstimate.t) : list num :=
  List.map OsEstimate.costPerRunUsd byOs.

End Values.

(* ================================================================== *)
(** ** Invariants of the scanner and of the aggregation *)
(* ================================================================== *)

Module Invariants.
Import JsString Regex JsNumber Estimator Props Values.
Local Open Scope list_scope.
Local Open Scope Z_scope.

Definition job_ok (j : Job.t) : Prop := is_os_label (Job.os j).

(** Every job the scanner holds carries one of the three labels. *)
Definition state_ok (st : ScanState) : Prop :=
  Forall job_ok (jobs st) /\ (forall j, currentJob st = Some j -> job_ok j).

(** Keys are distinct, each entry sits under its own [os], and counts
    at least one job. *)
Definition entry_ok (kv : string * OsEstimate.t) : Prop :=
  OsEstimate.os (snd kv) = fst kv /\ 1 <= OsEstimate.jobs (snd kv).

Definition map_ok (m : OsMap) : Prop :=
  NoDup (List.map fst m) /\ Forall entry_ok m.

Local Open Scope R_scope.

(** One for the header line of a job plus one per step line. *)
Definition job_weight (j : Job.t) : Z := 1 + Job.steps j.

Definition total_weight (js : list Job.t) : Z :=
  fold_right (fun j a => (job_weight j + a)%Z) 0%Z js.

(** The minutes of a job are a normal double between its base of 2 and
    4 minutes per line of the job. *)
Definition job_sized (j : Job.t) : Prop :=
  (0 <= Job.steps j)%Z
  /\ pnormal (Job.minutes j)
  /\ 2 <= B2R (Job.minutes j) <= 4 * IZR (job_weight j).

Definition scan_sized (st : ScanState) (n : Z) : Prop :=
  Forall job_sized (push_current st) /\ (total_weight (push_current st) <= n)%Z.

(** After jobs of total weight [t], an accumulated cost is a normal
    double between 0.015 and 0.4 USD per unit of weight. *)
Definition cost_sized (t : Z) (e : OsEstimate.t) : Prop :=
  pnormal (OsEstimate.costPerRunUsd e)
  /\ 3 / 200 <= B2R (OsEstimate.costPerRunUsd e) <= 2 / 5 * IZR t.

Definition map_sized (t : Z) (m : OsMap) : Prop :=
  Forall (fun kv => cost_sized t (snd kv)) m.

(** A number of cents [n], as the double [n / 100]. *)
Definition cents (n : Z) (c : num) : Prop :=
  (1 <= n <= 5000000)%Z /\ c = div (of_Z n) (of_Z 100).

Definition in_cents (c : num) : Prop := exists n, cents n c.

End Invariants.

(* ================================================================== *)
(** ** Concrete inputs *)
(* ================================================================== *)

Module Examples.
Import JsString Regex JsNumber JsError Estimator Props.
Local Open Scope list_scope.
Local Open Scope Z_scope.

(** The scanner state right after the [jobs:] line. *)
Definition jobs_marker_seen : ScanState :=
  {| jobs := []; inJobs := true; currentJob := None |}.

(** The [byOs] entry of the fallback job. *)
Definition fallback_entry : OsEstimate.t :=
  {| OsEstimate.os := "linux";
     OsEstimate.jobs := 1;
     OsEstimate.stepCount := 3;
     OsEstimate.minutesPerRun := decimal 85 1;
     OsEstimate.costPerRunUsd := decimal 7 2 |}.

(** A text whose jobs section holds no job header. *)
Definition no_jobs_input : EstimateInput :=
  {| workflowYaml := unlines ["name: CI"; "on: [push]"; "jobs:"; "- build"]%string;
     monthlyRuns := of_Z 100;
     budgetUsd := of_Z 20;
     policyMode := lit "warn" |}.

(** Scenario B costs 0.12 USD per run: 60.00 USD for 500 runs. *)
Definition over_budget : EstimateInput :=
  {| workflowYaml := scenario_B; monthlyRuns := of_Z 500;
     budgetUsd := of_Z 40; policyMode := lit "block" |}.

(** The same with a budget equal to the monthly cost. *)
Definition on_budget : EstimateInput :=
  {| workflowYaml := scenario_B; monthlyRuns := of_Z 500;
     budgetUsd := of_Z 60; policyMode := lit "block" |}.

Definition payload (y r b m : jsvalue) : Payload.t :=
  {| Payload.workflowYaml := y; Payload.monthlyRuns := r;
     Payload.budgetUsd := b; Payload.policyMode := m |}.

Definition minus_one : num := of_Z (-1).

(** A payload whose numbers pass the range tests and round to zero. *)
Definition tiny_payload : Payload.t :=
  payload (VString (lit "jobs:")) (VNumber (decimal 3 1))
          (VNumber (decimal 1 3)) (VString (lit "warn")).

(** The TypeError of [String(v)] for an object without primitive form
    (the message is the one of V8). *)
Definition no_primitive_form : thrown :=
  ThrownError (lit "TypeError") (lit "Cannot convert object to primitive value").

(** The payloads with the JSON value [{"toString": null}] as
    [monthlyRuns] and as [budgetUsd]. *)
Definition runs_without_string : Payload.t :=
  payload (VString (lit "jobs:")) (VNoString no_primitive_form)
          (VNumber (of_Z 20)) (VString (lit "warn")).

Definition budget_without_string : Payload.t :=
  payload (VString (lit "jobs:")) (VNumber (of_Z 500))
          (VNoString no_primitive_form) (VString (lit "warn")).

Definition rounded_to_zero : EstimateInput :=
  {| workflowYaml := lit "jobs:";
     monthlyRuns := pos_zero;
     budgetUsd := pos_zero;
     policyMode := lit "warn" |}.

End Examples.

(* ================================================================== *)
(** ** Definitions used to state the properties of texts *)
(* ================================================================== *)

Module TextProps.
Import JsString.
Local Open Scope list_scope.

(** A text that does not start with whitespace. *)
Definition starts_black (s : jsstring) : Prop :=
  match s with
  | c :: _ => is_space c = false
  | [] => True
  end.

(** A text without the separator [sep]. *)
Definition no_sep (sep : char) (x : jsstring) : Prop :=
  forallb (fun c => negb (c =? sep)%N) x = true.

End TextProps.

(* ================================================================== *)
(** ** Definitions used to state the properties of the scanner *)
(* ================================================================== *)

Module Reading.
Import JsString Regex JsNumber Estimator Props.
Local Open Scope list_scope.
Local Open Scope Z_scope.

(** The test of the scanner for the [jobs:] line, on a raw line. *)
Definition is_jobs_marker (rawLine : jsstring) : bool :=
  test re_jobs (trim (strip rawLine)).

(** The lines that follow the first [jobs:] line. *)
Fixpoint after_marker (lines : list jsstring) : list jsstring :=
  match lines with
  | [] => []
  | l :: ls => if is_jobs_marker l then ls else after_marker ls
  end.

(** The job-header lines among [lines]. *)
Definition header_lines (lines : list jsstring) : list jsstring :=
  filter (fun l => isJobHeader (strip l)) lines.

(** The lines [ls] joined by the line break [eol]. *)
Fixpoint join_lines (eol : jsstring) (ls : list jsstring) : jsstring :=
  match ls with
  | [] => []
  | [l] => l
  | l :: ls' => l ++ eol ++ join_lines eol ls'
  end.

Definition CRLF : jsstring := [13%N; 10%N].

(** A line without CR and LF. *)
Definition plain (l : jsstring) : Prop :=
  forallb (fun c => negb (c =? 10)%N && negb (c =? 13)%N) l = true.

(** The lines that follow the first job-header line. *)
Fixpoint after_first_header (lines : list jsstring) : list jsstring :=
  match lines with
  | [] => []
  | l :: ls => if isJobHeader (strip l) then ls else after_first_header ls
  end.

(** A [- uses:] or [- run:] step line. *)
Definition is_step_line (rawLine : jsstring) : bool :=
  test re_uses (strip rawLine) || test re_run (strip rawLine).

(** The number of steps of a job list. *)
Definition total_steps (js : list Job.t) : Z :=
  fold_right (fun j a => Job.steps j + a) 0 js.

(** The elements of [l] in the order of their first occurrence,
    leaving out those of [seen]. *)
Fixpoint first_seen (seen l : list string) : list string :=
  match l with
  | [] => []
  | x :: l' =>
      if existsb (String.eqb x) seen then first_seen seen l'
      else x :: first_seen (seen ++ [x]) l'
  end.

(** The jobs of a job list that run on [os], and their steps. *)
Definition jobs_on (os : string) (js : list Job.t) : list Job.t :=
  filter (fun j => String.eqb (Job.os j) os) js.

(** What the map of the aggregation holds for the key [k] after the
    jobs [js]. *)
Definition entry_counts (js : list Job.t) (k : string) (r : option OsEstimate.t) : Prop :=
  match r with
  | Some e => OsEstimate.os e = k
              /\ OsEstimate.jobs e = Z.of_nat (List.length (jobs_on k js))
              /\ OsEstimate.stepCount e = total_steps (jobs_on k js)
  | None => jobs_on k js = []
  end.

(** The jobs and the steps counted by a list of [byOs] entries. *)
Definition jobs_of (l : list OsEstimate.t) : Z :=
  fold_right (fun e acc => OsEstimate.jobs e + acc) 0 l.

Definition steps_of (l : list OsEstimate.t) : Z :=
  fold_right (fun e acc => OsEstimate.stepCount e + acc) 0 l.

(** [/#.*$/] matches at the start of [s]: a "#" followed by
    anything but line terminators up to the end. *)
Definition comment_at (s : jsstring) : bool :=
  match s with
  | c :: s' => (chr "#" =? c)%N && forallb is_dot s'
  | [] => false
  end.

End Reading.

(* ================================================================== *)
(** ** Definitions used to state the properties of the amounts *)
(* ================================================================== *)

Module Amounts.
Import JsString Regex JsNumber Estimator Props.
Local Open Scope list_scope.
Local Open Scope Z_scope.

(** The double of an amount of [n] cents, as the source computes it. *)
Definition of_cents (n : Z) : num := div (of_Z n) (of_Z 100).

(** An input within the bounds of the data model: a trimmed workflow
    text of 1 to 100,000 code units, 1 to 1,000,000 monthly runs, a
    budget of 0.01 to 1,000,000.00 USD in whole cents, and a policy
    mode. *)
Definition in_bounds (input : EstimateInput) : Prop :=
  trim (workflowYaml input) = workflowYaml input
  /\ workflowYaml input <> []
  /\ Z.of_nat (List.length (workflowYaml input)) <= 100000
  /\ (exists n, 1 <= n <= 1000000 /\ monthlyRuns input = of_Z n)
  /\ (exists k, 1 <= k <= 100000000 /\ budgetUsd input = of_cents k)
  /\ (policyMode input = lit "warn" \/ policyMode input = lit "block").

(** The payload that holds the fields of an input. *)
Definition payload_of (input : EstimateInput) : Payload.t :=
  {| Payload.workflowYaml := VString (workflowYaml input);
     Payload.monthlyRuns := VNumber (monthlyRuns input);
     Payload.budgetUsd := VNumber (budgetUsd input);
     Payload.policyMode := VString (policyMode input) |}.

(** The input with another budget. *)
Definition with_budget (input : EstimateInput) (budget : num) : EstimateInput :=
  {| workflowYaml := workflowYaml input;
     monthlyRuns := monthlyRuns input;
     budgetUsd := budget;
     policyMode := policyMode input |}.

(** The number a text of decimal digits spells. *)
Definition digits_value (ds : jsstring) : Z :=
  fold_left (fun acc c => 10 * acc + (Z.of_N c - 48)) ds 0.

(** Scenario B as the sanitizer returns it, 420 times a month on a
    budget of 20.00 USD. *)
Definition sample_input : EstimateInput :=
  {| workflowYaml := trim scenario_B;
     monthlyRuns := of_Z 420;
     budgetUsd := of_cents 2000;
     policyMode := lit "warn" |}.

End Amounts.

(* ================================================================== *)
(** ** Definitions used to state the properties of the server *)
(* ================================================================== *)

Module ServiceProps.
Import JsString Regex JsNumber Estimator JsError WorkflowImport Server.
Local Open Scope list_scope.

(** The texts [normalizeSource] lets through: a small letter or a
    digit, then up to 39 small letters, digits, "_" or "-". *)
Definition source_shape (s : jsstring) : Prop :=
  exists c w, s = c :: w /\ is_lower_digit c = true
              /\ forallb is_source_char w = true /\ (List.length w <= 39)%nat.

(** The sum of the three counters. *)
Definition total (counts : MetricsCounts.t) : Z :=
  (MetricsCounts.landing_view counts + MetricsCounts.estimate_generated counts
   + MetricsCounts.checkout_started counts)%Z.

(** Every counter of [a] is at most the one of [b]. *)
Definition counts_le (a b : MetricsCounts.t) : Prop :=
  (MetricsCounts.landing_view a <= MetricsCounts.landing_view b
   /\ MetricsCounts.estimate_generated a <= MetricsCounts.estimate_generated b
   /\ MetricsCounts.checkout_started a <= MetricsCounts.checkout_started b)%Z.

(** A letter in either case. *)
Definition letter (a : ascii) (c : char) : bool :=
  (c =? chr a)%N || (c =? chr a - 32)%N.

(** ".yml" or ".yaml", in any mix of cases. *)
Definition is_yaml_ext (e : jsstring) : bool :=
  match e with
  | [d; y; m; l] =>
      (chr "." =? d)%N && letter "y" y && letter "m" m && letter "l" l
  | [d; y; a; m; l] =>
      (chr "." =? d)%N && letter "y" y && letter "a" a && letter "m" m && letter "l" l
  | _ => false
  end.

Definition ends_yaml (s : jsstring) : Prop :=
  exists p e, s = p ++ e /\ is_yaml_ext e = true.

(** The address of the unit test of the import, as the platform
    parses it, and a parser that knows this address only. *)
Definition checkout_blob : URL :=
  {| protocol := lit "https:";
     hostname := lit "github.com";
     pathname := lit "/actions/checkout/blob/main/.github/workflows/test.yml";
     href := lit "https://github.com/actions/checkout/blob/main/.github/workflows/test.yml" |}.

Definition parse_checkout (s : jsstring) : option URL :=
  if str_eqb s (href checkout_blob) then Some checkout_blob else None.

(** A server that answers every request with a two-line workflow. *)
Definition fetch_two_lines (url : jsstring) : fetch_result :=
  Responded true (TextOf (Props.unlines ["name: CI"; "on: [push]"]%string)).

End ServiceProps.

(* ================================================================== *)
(** ** Definitions used to state the properties of the minutes *)
(* ================================================================== *)

Module Minutes.
Import JsString Regex JsNumber Estimator Props Values Invariants Reading.
Local Open Scope list_scope.
Local Open Scope Z_scope.

(** A [- uses:] line, and a [- run:] line that is no [- uses:] line,
    in the order in which the scanner tests them. *)
Definition is_uses_line (rawLine : jsstring) : bool :=
  test re_uses (strip rawLine).

Definition is_run_line (rawLine : jsstring) : bool :=
  negb (test re_uses (strip rawLine)) && test re_run (strip rawLine).

(** The number of half minutes of a positive double: its integral part
    when doubled. *)
Definition half_minutes (x : num) : Z :=
  match x with
  | S754_finite false m e => Z.shiftl (Zpos m) (e + 1)
  | _ => 0
  end.

(** A normal double that is a whole number of half minutes. *)
Definition whole_halves (x : num) : Prop :=
  pnormal x /\ B2R x = (IZR (half_minutes x) / 2)%R.

(** The half minutes of a job list and of the entries of the map. *)
Definition job_halves (js : list Job.t) : Z :=
  fold_right (fun j a => half_minutes (Job.minutes j) + a) 0 js.

Definition entry_halves (l : list OsEstimate.t) : Z :=
  fold_right (fun e a => half_minutes (OsEstimate.minutesPerRun e) + a) 0 l.

(** A job whose minutes are exact, and an accumulated entry after jobs
    of total weight [t]. *)
Definition job_exact (j : Job.t) : Prop :=
  job_sized j /\ whole_halves (Job.minutes j).

Definition minutes_sized (t : Z) (e : OsEstimate.t) : Prop :=
  whole_halves (OsEstimate.minutesPerRun e)
  /\ (2 <= B2R (OsEstimate.minutesPerRun e) <= 4 * IZR t)%R.


Definition map_exact (t : Z) (m : OsMap) : Prop :=
  Forall (fun kv => minutes_sized t (snd kv)) m.

(** The minutes of the [byOs] entries. *)
Definition minutes_of (byOs : list OsEstimate.t) : list num :=
  List.map OsEstimate.minutesPerRun byOs.

End Minutes.

(* ================================================================== *)
(** ** Facts about the matcher *)
(* ================================================================== *)

Module RegexFacts.
Import JsString Regex.

Section Success.
Variable R : Type.
Implicit Types (k : cont R) (s : jsstring) (cap : option jsstring).

Lemma rmatch_cls_ok p s cap k :
  rmatch (Cls p) s cap k <> None <->
  exists c s', s = c :: s' /\ p c = true /\ k s' cap <> None.
Proof.
  simpl. destruct s as [|c s'].
  - split; [congruence | intros (c & s' & E & _); discriminate].
  - destruct (p c) eqn:Hp.
    + split.
      * intros H. exists c, s'. auto.
      * intros (c' & s'' & E & _ & H). inversion E; subst. exact H.
    + split; [congruence|].
      intros (c' & s'' & E & Hp' & _). inversion E; subst. congruence.
Qed.

Lemma rmatch_eol_ok s cap k :
  rmatch Eol s cap k <> None <-> s = [] /\ k [] cap <> None.
Proof.
  simpl. destruct s.
  - tauto.
  - split; [congruence | intros [E _]; discriminate].
Qed.

Lemma star_loop_S m k fuel s cap :
  star_loop m k (S fuel) s cap =
  match m s cap (fun rest cap' =>
                   if (List.length rest <? List.length s)%nat
                   then star_loop m k fuel rest cap' else None) with
  | Some x => Some x
  | None => k s cap
  end.
Proof. reflexivity. Qed.

Lemma rmatch_cls_cons p c s cap k :
  rmatch (Cls p) (c :: s) cap k = if p c then k s cap else None.
Proof. reflexivity. Qed.

Lemma length_lt_cons (c : char) s :
  (List.length s <? List.length (c :: s))%nat = true.
Proof. apply Nat.ltb_lt. simpl. lia. Qed.

(** A greedy star over a character class succeeds exactly when some
    run of class characters can be followed by the continuation. *)
Lemma star_cls_sound p k fuel : forall s cap,
  star_loop (rmatch (Cls p)) k fuel s cap <> None ->
  exists w rest, s = w ++ rest /\ forallb p w = true /\ k rest cap <> None.
Proof.
  induction fuel as [|fuel IH]; intros s cap H.
  - exists [], s. auto.
  - rewrite star_loop_S in H.
    destruct s as [|c s'].
    + exists [], []. auto.
    + rewrite rmatch_cls_cons, length_lt_cons in H.
      destruct (p c) eqn:Hp.
      * destruct (star_loop (rmatch (Cls p)) k fuel s' cap) eqn:E.
        -- destruct (IH s' cap) as (w & rest & Es & Hw & Hk); [congruence|].
           exists (c :: w), rest. subst s'. simpl. rewrite Hp.
           split; [reflexivity | split; assumption].
        -- exists [], (c :: s'). auto.
      * exists [], (c :: s'). auto.
Qed.

Lemma star_cls_complete p k : forall w fuel rest cap,
  (List.length (w ++ rest) <= fuel)%nat ->
  forallb p w = true -> k rest cap <> None ->
  star_loop (rmatch (Cls p)) k fuel (w ++ rest) cap <> None.
Proof.
  induction w as [|c w IH]; intros fuel rest cap Hlen Hw Hk.
  - simpl. destruct fuel as [|fuel]; [exact Hk|].
    rewrite star_loop_S.
    match goal with |- context [match ?x with _ => _ end] => destruct x end;
      congruence.
  - simpl in Hw. apply andb_prop in Hw as [Hp Hw].
    destruct fuel as [|fuel]; [simpl in Hlen; lia|].
    change ((c :: w) ++ rest) with (c :: (w ++ rest)).
    rewrite star_loop_S, rmatch_cls_cons, length_lt_cons, Hp.
    specialize (IH fuel rest cap). simpl in Hlen.
    destruct (star_loop (rmatch (Cls p)) k fuel (w ++ rest) cap) eqn:E.
    + congruence.
    + exfalso. apply IH; auto. lia.
Qed.

Lemma rmatch_star_cls_ok p s cap k :
  rmatch (Star (Cls p)) s cap k <> None <->
  exists w rest, s = w ++ rest /\ forallb p w = true /\ k rest cap <> None.
Proof.
  cbn [rmatch]. split.
  - apply star_cls_sound.
  - intros (w & rest & -> & Hw & Hk). apply star_cls_complete; auto.
Qed.

Lemma rmatch_seq r1 r2 s cap k :
  rmatch (Seq r1 r2) s cap k = rmatch r1 s cap (fun s1 cap1 => rmatch r2 s1 cap1 k).
Proof. reflexivity. Qed.

End Success.

Lemma test_true r s :
  test r s = true <-> rmatch r s None (fun _ _ => Some tt) <> None.
Proof.
  unfold test. destruct (rmatch r s None _); split; congruence.
Qed.

End RegexFacts.

(* ================================================================== *)
(** ** Facts about numbers and about the scanner *)
(* ================================================================== *)

Module NumFacts.
Import JsNumber.

Lemma SFcompare_antisym a b c :
  SFcompare a b = Some c -> SFcompare b a = Some (CompOpp c).
Proof.
  destruct a as [sa|sa| |sa ma ea], b as [sb|sb| |sb mb eb]; simpl;
    try discriminate;
    try (destruct sa; intros [= <-]; reflexivity);
    try (destruct sb; intros [= <-]; reflexivity);
    try (intros [= <-]; reflexivity).
  - destruct sa, sb; intros [= <-]; reflexivity.
  - intros [= <-]. f_equal.
    destruct sa, sb; try reflexivity;
      rewrite (Z.compare_antisym ea eb);
      destruct (ea ?= eb)%Z; simpl; try reflexivity;
      change (PosDef.Pos.compare_cont Eq mb ma) with (Pos.compare mb ma);
      change (PosDef.Pos.compare_cont Eq ma mb) with (Pos.compare ma mb);
      rewrite (Pos.compare_antisym ma mb);
      destruct (Pos.compare ma mb); reflexivity.
Qed.

Lemma le_not_gt a b : le a b = true -> gt a b = false.
Proof.
  unfold le, gt, SFleb, SFltb.
  destruct (SFcompare a b) as [c|] eqn:E; [|discriminate].
  apply SFcompare_antisym in E. rewrite E.
  destruct c; simpl; congruence.
Qed.
End NumFacts.

Module ScanFacts.
Import JsString Regex JsNumber Estimator Props RegexFacts NumFacts.
Local Open Scope list_scope.

(** *** Character classes *)

Lemma is_ident_range c : is_ident c = true -> (45 <= c <= 122)%N.
Proof.
  unfold is_ident. rewrite !orb_true_iff, !andb_true_iff, !N.leb_le, !N.eqb_eq. lia.
Qed.

Lemma is_space_range c : is_space c = true -> (c <= 32 \/ 160 <= c)%N.
Proof.
  unfold is_space. rewrite !orb_true_iff, !andb_true_iff, !N.leb_le, !N.eqb_eq. lia.
Qed.

Lemma space_not_ident c : is_space c = true -> is_ident c = false.
Proof.
  intros Hs. destruct (is_ident c) eqn:Hi; [|reflexivity].
  apply is_ident_range in Hi. apply is_space_range in Hs. lia.
Qed.

(** A line whose third character is whitespace is no job header. *)
Lemma third_space_not_header a b c l :
  is_space c = true -> isJobHeader (a :: b :: c :: l) = false.
Proof.
  intros Hc. destruct (isJobHeader (a :: b :: c :: l)) eqn:E; [|reflexivity].
  unfold isJobHeader in E. apply test_true in E. unfold re_job_header, Plus in E.
  rewrite rmatch_seq in E. apply rmatch_cls_ok in E as (a' & l1 & E1 & _ & E).
  rewrite rmatch_seq in E. apply rmatch_cls_ok in E as (b' & l2 & E2 & _ & E).
  rewrite !rmatch_seq in E. apply rmatch_cls_ok in E as (c' & l3 & E3 & Hi & _).
  subst l1 l2. injection E1 as _ _ <- _.
  rewrite (space_not_ident _ Hc) in Hi. discriminate.
Qed.

(** What any pattern that starts with three whitespace characters needs. *)
Lemma three_spaces R r s cap (k : cont R) :
  rmatch (ws ;; ws ;; ws ;; r) s cap k <> None ->
  exists a b c l, s = a :: b :: c :: l /\ is_space c = true.
Proof.
  intros H.
  rewrite rmatch_seq in H. apply rmatch_cls_ok in H as (a & l1 & -> & _ & H).
  rewrite rmatch_seq in H. apply rmatch_cls_ok in H as (b & l2 & -> & _ & H).
  rewrite rmatch_seq in H. apply rmatch_cls_ok in H as (c & l3 & -> & Hc & H).
  exists a, b, c, l3. auto.
Qed.

Lemma field_line_not_header line :
  is_field_line line = true -> isJobHeader line = false.
Proof.
  unfold is_field_line. rewrite !orb_true_iff. intros [[H|H]|H].
  - unfold exec, re_runs_on in H.
    destruct (rmatch _ line None _) eqn:E; [|discriminate].
    assert (E' : rmatch (ws;; ws;; ws;; ws;;
                  Str "runs-on" (Star ws;; Chr ":";; Star ws;; Grp (Plus (Cls is_dot));; Star ws;; Eol))
                  line None (fun _ cap => Some cap) <> None) by congruence.
    apply three_spaces in E' as (a & b & c & l & -> & Hc).
    apply third_space_not_header; exact Hc.
  - apply test_true in H. apply three_spaces in H as (a & b & c & l & -> & Hc).
    apply third_space_not_header; exact Hc.
  - apply test_true in H. apply three_spaces in H as (a & b & c & l & -> & Hc).
    apply third_space_not_header; exact Hc.
Qed.

End ScanFacts.

(* ================================================================== *)
(** ** The scanner: job headers, ignored lines, the fallback *)
(* ================================================================== *)

Module ScannerClaims.
Import Examples.
Import JsString Regex JsNumber Estimator Props RegexFacts NumFacts ScanFacts.
Local Open Scope list_scope.
Local Open Scope Z_scope.

(** C4, as the specification words it, fails: a line indented with two
    tabs and a line with a space before the colon both start a job,
    and neither matches [^  [A-Za-z0-9_-]+:\s*$]. *)
Lemma C4_spec_pattern_refuted :
  isJobHeader (TAB :: TAB :: lit "build:") = true
  /\ test re_job_header_spec (TAB :: TAB :: lit "build:") = false
  /\ isJobHeader (lit "  build :") = true
  /\ test re_job_header_spec (lit "  build :") = false
  /\ parseJobsAndSteps (lit "jobs:" ++ LF :: TAB :: TAB :: lit "build:") = [new_job].
Proof. repeat split; vm_compute; reflexivity. Qed.

(** C4 (amended): the scanner recognizes a comment-stripped line as a
    job header exactly when it matches [^\s{2}[a-zA-Z0-9_-]+\s*:\s*$]:
    two leading whitespace characters of any kind, a non-empty
    identifier, optional whitespace, a colon, optional trailing
    whitespace and nothing else. *)
Theorem C4_job_header_pattern (line : jsstring) :
  isJobHeader line = true <-> job_header_shape line.
Proof.
  unfold isJobHeader. rewrite test_true. unfold re_job_header, Plus, job_header_shape.
  split.
  - intros H.
    rewrite rmatch_seq in H. apply rmatch_cls_ok in H as (a & l1 & -> & Ha & H).
    rewrite rmatch_seq in H. apply rmatch_cls_ok in H as (b & l2 & -> & Hb & H).
    rewrite !rmatch_seq in H. apply rmatch_cls_ok in H as (c & l3 & -> & Hc & H).
    apply rmatch_star_cls_ok in H as (w & l4 & -> & Hw & H).
    rewrite rmatch_seq in H. apply rmatch_star_cls_ok in H as (w1 & l5 & -> & Hw1 & H).
    rewrite rmatch_seq in H. apply rmatch_cls_ok in H as (d & l6 & -> & Hd & H).
    rewrite rmatch_seq in H. apply rmatch_star_cls_ok in H as (w2 & l7 & -> & Hw2 & H).
    apply rmatch_eol_ok in H as [-> _].
    apply N.eqb_eq in Hd. subst d.
    exists a, b, (c :: w), w1, w2. rewrite app_nil_r. simpl. rewrite Hc.
    repeat split; auto. discriminate.
  - intros (a & b & ident & w1 & w2 & -> & Ha & Hb & Hne & Hid & Hw1 & Hw2).
    destruct ident as [|c w]; [congruence|]. simpl in Hid.
    apply andb_prop in Hid as [Hc Hw].
    rewrite rmatch_seq. apply rmatch_cls_ok. exists a, ((b :: c :: w) ++ w1 ++ chr ":" :: w2).
    split; [reflexivity|]. split; [exact Ha|].
    rewrite rmatch_seq. apply rmatch_cls_ok. eexists _, _.
    split; [reflexivity|]. split; [exact Hb|].
    rewrite !rmatch_seq. apply rmatch_cls_ok. eexists _, _.
    split; [reflexivity|]. split; [exact Hc|].
    apply rmatch_star_cls_ok. eexists _, _.
    split; [reflexivity|]. split; [exact Hw|].
    rewrite rmatch_seq. apply rmatch_star_cls_ok. eexists _, _.
    split; [reflexivity|]. split; [exact Hw1|].
    rewrite rmatch_seq. apply rmatch_cls_ok. eexists _, _.
    split; [reflexivity|]. split; [apply N.eqb_refl|].
    rewrite rmatch_seq. apply rmatch_star_cls_ok. exists w2, [].
    split; [symmetry; apply app_nil_r|]. split; [exact Hw2|].
    apply rmatch_eol_ok. split; [reflexivity | discriminate].
Qed.

(** Inside the jobs section and with no job open, a line that is no
    job header leaves the scanner state as it is. *)
Lemma scan_line_no_job st rawLine :
  inJobs st = true -> currentJob st = None ->
  isJobHeader (strip rawLine) = false ->
  scan_line st rawLine = st.
Proof.
  intros Hin Hcur Hh. unfold scan_line. fold (strip rawLine).
  rewrite Hin, Hh, Hcur. simpl.
  destruct (trim (strip rawLine)); reflexivity.
Qed.

(** C9: inside the jobs section, a [runs-on:] line or a [- uses:] /
    [- run:] step line met while no job header has been recognized
    (no job is open) changes nothing: no job is created and no OS,
    step count or minutes are recorded. *)
Theorem C9_fields_before_first_job_ignored st rawLine :
  inJobs st = true -> currentJob st = None ->
  is_field_line (strip rawLine) = true ->
  scan_line st rawLine = st.
Proof.
  intros Hin Hcur Hf. apply scan_line_no_job; auto.
  apply field_line_not_header; exact Hf.
Qed.

Lemma C9_fields_before_first_job_ignored_witness :
  scan_line jobs_marker_seen (lit "    runs-on: windows-latest") = jobs_marker_seen
  /\ scan_line jobs_marker_seen (lit "      - uses: actions/checkout@v4") = jobs_marker_seen
  /\ scan_line jobs_marker_seen (lit "      - run: npm test") = jobs_marker_seen.
Proof.
  split; [|split];
    apply C9_fields_before_first_job_ignored; vm_compute; reflexivity.
Defined.

(** No job is open until a header is recognized. *)
Lemma scan_no_header_state : forall lines st,
  currentJob st = None -> jobs st = [] ->
  (forall l, In l lines -> isJobHeader (strip l) = false) ->
  let st' := fold_left scan_line lines st in
  currentJob st' = None /\ jobs st' = [].
Proof.
  induction lines as [|l lines IH]; intros st Hc Hj Hno; simpl.
  - auto.
  - assert (Hl : isJobHeader (strip l) = false) by (apply Hno; left; reflexivity).
    assert (Hst : currentJob (scan_line st l) = None /\ jobs (scan_line st l) = []).
    { unfold scan_line. fold (strip l). rewrite Hl, Hc.
      destruct (negb (inJobs st) && test re_jobs (trim (strip l))); simpl; auto.
      destruct (negb (inJobs st) || _); auto. }
    destruct Hst as [Hc' Hj'].
    apply IH; auto. intros l' Hin. apply Hno. right; exact Hin.
Qed.

(** A text without any job-header line yields no recognized job. *)
Lemma no_header_no_job workflowYaml :
  (forall l, In l (split_lines workflowYaml) -> isJobHeader (strip l) = false) ->
  recognized_jobs workflowYaml = [].
Proof.
  intros Hno. unfold recognized_jobs, scan, push_current.
  destruct (scan_no_header_state (split_lines workflowYaml) scan_init
              eq_refl eq_refl Hno) as [Hc Hj].
  rewrite Hc. exact Hj.
Qed.

(** C5: when the scanner recognizes no job in the workflow text, the
    estimate is that of the synthetic fallback job: one job, three
    steps, 8.5 minutes per run, and a single [linux] entry in [byOs]. *)
Theorem C5_fallback_estimate (input : EstimateInput) :
  recognized_jobs (workflowYaml input) = [] ->
  let r := estimateWorkflowCost input in
  Summary.jobs (summary r) = 1
  /\ Summary.stepCount (summary r) = 3
  /\ Summary.minutesPerRun (summary r) = decimal 85 1
  /\ byOs r = [fallback_entry]
  /\ OsEstimate.os fallback_entry = "linux"%string.
Proof.
  intros H. unfold estimateWorkflowCost, parseJobsAndSteps. rewrite H.
  repeat split; vm_compute; reflexivity.
Qed.

Lemma C5_fallback_estimate_witness :
  let r := estimateWorkflowCost no_jobs_input in
  Summary.jobs (summary r) = 1
  /\ Summary.stepCount (summary r) = 3
  /\ Summary.minutesPerRun (summary r) = decimal 85 1
  /\ byOs r = [fallback_entry]
  /\ OsEstimate.os fallback_entry = "linux"%string.
Proof.
  apply (C5_fallback_estimate no_jobs_input). vm_compute. reflexivity.
Defined.

(** C6: Scenario B gives two [byOs] entries: [linux] with 8.0 minutes
    and 0.06 USD per run, [windows] with 3.5 minutes and 0.06 USD per
    run, whatever the other input fields are. *)
Theorem C6_scenario_B (runs budget : num) (mode : jsstring) :
  byOs (estimateWorkflowCost
          {| workflowYaml := scenario_B; monthlyRuns := runs;
             budgetUsd := budget; policyMode := mode |})
  = [ {| OsEstimate.os := "linux"; OsEstimate.jobs := 1;
         OsEstimate.stepCount := 3;
         OsEstimate.minutesPerRun := of_Z 8;
         OsEstimate.costPerRunUsd := decimal 6 2 |};
      {| OsEstimate.os := "windows"; OsEstimate.jobs := 1;
         OsEstimate.stepCount := 1;
         OsEstimate.minutesPerRun := decimal 35 1;
         OsEstimate.costPerRunUsd := decimal 6 2 |} ].
Proof. vm_compute. reflexivity. Qed.

End ScannerClaims.

(* ================================================================== *)
(** ** The policy decision and the sanitizer *)
(* ================================================================== *)

Module PolicyClaims.
Import Examples.
Import JsString Regex JsNumber Estimator Props NumFacts.
Local Open Scope list_scope.
Local Open Scope Z_scope.

Lemma policyDecision_eq input :
  let s := summary (estimateWorkflowCost input) in
  Summary.policyDecision s =
    if gt (Summary.monthlyCostUsd s) (Summary.budgetUsd s)
    then policyMode input else lit "pass".
Proof.
  unfold estimateWorkflowCost.
  destruct (sum_entries _) as [[[m c] j] t]. reflexivity.
Qed.

(** C1: the decision is [pass] when the monthly cost is at most the
    budget (equality included) and is the input's policy mode when the
    monthly cost exceeds the budget. *)
Theorem C1_policy_decision (input : EstimateInput) :
  let s := summary (estimateWorkflowCost input) in
  (le (Summary.monthlyCostUsd s) (Summary.budgetUsd s) = true ->
     Summary.policyDecision s = lit "pass")
  /\ (gt (Summary.monthlyCostUsd s) (Summary.budgetUsd s) = true ->
        Summary.policyDecision s = policyMode input).
Proof.
  intros s. subst s. rewrite policyDecision_eq. cbv zeta. split; intros H.
  - apply le_not_gt in H. rewrite H. reflexivity.
  - rewrite H. reflexivity.
Qed.

Lemma C1_policy_decision_witness :
  Summary.policyDecision (summary (estimateWorkflowCost on_budget)) = lit "pass"
  /\ Summary.policyDecision (summary (estimateWorkflowCost over_budget)) = lit "block".
Proof.
  split.
  - apply (proj1 (C1_policy_decision on_budget)). vm_compute. reflexivity.
  - apply (proj2 (C1_policy_decision over_budget)). vm_compute. reflexivity.
Defined.

End PolicyClaims.

Module FieldFacts.
Import JsString Regex JsNumber JsError Estimator Props.
Local Open Scope list_scope.
Local Open Scope Z_scope.

(** [number_of] returns the number of a field with a string form and
    lets the exception of [String] out for any other field. *)
Lemma number_of_cases v :
  match no_string v with
  | Some error => number_of v = Rethrown error
  | None => number_of v = Return (to_number v)
  end.
Proof. destruct v; reflexivity. Qed.

(** The sanitizer, with the conversions of the two numbers spelled out. *)
Lemma sanitizeEstimateInput_eq p :
  sanitizeEstimateInput p =
    if workflow_rejected (Payload.workflowYaml p) then Throw "invalid_workflow_yaml"
    else
      match no_string (Payload.monthlyRuns p) with
      | Some error => Rethrown error
      | None =>
          if number_rejected (Payload.monthlyRuns p) then Throw "invalid_monthly_runs"
          else
            match no_string (Payload.budgetUsd p) with
            | Some error => Rethrown error
            | None =>
                if number_rejected (Payload.budgetUsd p) then Throw "invalid_budget_usd"
                else
                  let modeRaw :=
                    string_or_empty (fun s => toLowerCase (trim s)) (Payload.policyMode p) in
                  if negb (str_eqb modeRaw (lit "warn"))
                     && negb (str_eqb modeRaw (lit "block")) then
                    Throw "invalid_policy_mode"
                  else
                    Return {| workflowYaml := string_or_empty trim (Payload.workflowYaml p);
                              monthlyRuns := Math_round (to_number (Payload.monthlyRuns p));
                              budgetUsd := roundMoney (to_number (Payload.budgetUsd p));
                              policyMode := modeRaw |}
            end
      end.
Proof.
  unfold sanitizeEstimateInput, workflow_rejected, number_rejected. cbv zeta.
  destruct (is_empty _ || _); [reflexivity|].
  pose proof (number_of_cases (Payload.monthlyRuns p)) as Hr.
  destruct (no_string (Payload.monthlyRuns p)); rewrite Hr; cbn [bind]; [reflexivity|].
  destruct (negb (isFinite (to_number (Payload.monthlyRuns p))) || _ || _); [reflexivity|].
  pose proof (number_of_cases (Payload.budgetUsd p)) as Hb.
  destruct (no_string (Payload.budgetUsd p)); rewrite Hb; cbn [bind]; reflexivity.
Qed.

End FieldFacts.

Module SanitizerClaims.
Import Examples.
Import JsString Regex JsNumber JsError Estimator Props NumFacts FieldFacts.
Local Open Scope list_scope.
Local Open Scope Z_scope.

(** What the sanitizer does on every payload: it returns an input,
    throws one of its four codes, or lets out the exception of
    [String] for a [monthlyRuns] or a [budgetUsd] without string form.
    It throws [invalid_workflow_yaml] on an empty workflow text
    whatever the other fields are; with [monthlyRuns = -1] it throws
    [invalid_monthly_runs] unless the workflow text is rejected first;
    with [policyMode = "noop"] it throws [invalid_policy_mode] unless
    an earlier field is rejected or has no string form. *)
Lemma sanitizer_outcomes :
  (forall p : Payload.t,
      (exists input, sanitizeEstimateInput p = Return input)
      \/ sanitizeEstimateInput p = Throw "invalid_workflow_yaml"
      \/ sanitizeEstimateInput p = Throw "invalid_monthly_runs"
      \/ sanitizeEstimateInput p = Throw "invalid_budget_usd"
      \/ sanitizeEstimateInput p = Throw "invalid_policy_mode"
      \/ (exists error,
             sanitizeEstimateInput p = Rethrown error
             /\ (Payload.monthlyRuns p = VNoString error
                 \/ Payload.budgetUsd p = VNoString error)))
  /\ (forall r b m,
         sanitizeEstimateInput (payload (VString []) r b m)
         = Throw "invalid_workflow_yaml")
  /\ (forall y b m,
         sanitizeEstimateInput (payload y (VNumber minus_one) b m)
         = if workflow_rejected y then Throw "invalid_workflow_yaml"
           else Throw "invalid_monthly_runs")
  /\ (forall y r b,
         no_string r = None -> no_string b = None ->
         sanitizeEstimateInput (payload y r b (VString (lit "noop")))
         = if workflow_rejected y then Throw "invalid_workflow_yaml"
           else if number_rejected r then Throw "invalid_monthly_runs"
           else if number_rejected b then Throw "invalid_budget_usd"
           else Throw "invalid_policy_mode").
Proof.
  split; [|split; [|split]].
  - intros p. rewrite sanitizeEstimateInput_eq. cbv zeta.
    destruct (workflow_rejected _); [eauto 6|].
    destruct (Payload.monthlyRuns p) eqn:Er; cbn [no_string];
      try (right; right; right; right; right; eexists; split; [reflexivity|]; left; reflexivity).
    all: destruct (number_rejected _); [eauto 6|].
    all: destruct (Payload.budgetUsd p) eqn:Eb; cbn [no_string];
      try (right; right; right; right; right; eexists; split; [reflexivity|]; right; reflexivity).
    all: destruct (number_rejected _); [eauto 6|].
    all: destruct (negb _ && _); eauto 7.
  - intros r b m. reflexivity.
  - intros y b m. rewrite sanitizeEstimateInput_eq. cbn [payload Payload.workflowYaml Payload.monthlyRuns no_string].
    destruct (workflow_rejected y); reflexivity.
  - intros y r b Hr Hb. rewrite sanitizeEstimateInput_eq.
    cbn [payload Payload.workflowYaml Payload.monthlyRuns Payload.budgetUsd Payload.policyMode].
    rewrite Hr, Hb.
    destruct (workflow_rejected y); [reflexivity|].
    destruct (number_rejected r); [reflexivity|].
    destruct (number_rejected b); reflexivity.
Qed.

(** C7 fails on the code: for a [monthlyRuns] or a [budgetUsd] without
    primitive form, as the JSON value [{"toString": null}], the call
    [String(v)] throws a TypeError that the sanitizer does not catch: it
    neither returns an input nor throws one of its four codes. The
    tests of the two text fields do answer with their code for the
    same value. *)
Theorem C7_string_conversion_escapes :
  sanitizeEstimateInput runs_without_string = Rethrown no_primitive_form
  /\ sanitizeEstimateInput budget_without_string = Rethrown no_primitive_form
  /\ (forall input, sanitizeEstimateInput runs_without_string <> Return input)
  /\ (forall code, sanitizeEstimateInput runs_without_string <> Throw code)
  /\ sanitizeEstimateInput
       (payload (VNoString no_primitive_form) (VNumber (of_Z 500))
                (VNumber (of_Z 20)) (VString (lit "warn")))
     = Throw "invalid_workflow_yaml"
  /\ sanitizeEstimateInput
       (payload (VString (lit "jobs:")) (VNumber (of_Z 500))
                (VNumber (of_Z 20)) (VNoString no_primitive_form))
     = Throw "invalid_policy_mode".
Proof.
  assert (E : sanitizeEstimateInput runs_without_string = Rethrown no_primitive_form)
    by (vm_compute; reflexivity).
  repeat split; try (vm_compute; reflexivity);
    intros x; rewrite E; discriminate.
Qed.

Lemma str_eqb_eq : forall a b, str_eqb a b = true -> a = b.
Proof.
  induction a as [|x a IH]; destruct b as [|y b]; simpl; try discriminate.
  - reflexivity.
  - intros H. apply andb_prop in H as [H1 H2].
    apply N.eqb_eq in H1. subst y. f_equal. apply IH, H2.
Qed.

(** The part of the data-model bounds that the sanitizer does ensure:
    the text is not empty and has at most 100,000 characters, and the
    policy mode is "warn" or "block". *)
Lemma sanitize_text_and_mode p input :
  sanitizeEstimateInput p = Return input ->
  workflowYaml input <> []
  /\ Z.of_nat (List.length (workflowYaml input)) <= 100000
  /\ (policyMode input = lit "warn" \/ policyMode input = lit "block").
Proof.
  rewrite sanitizeEstimateInput_eq. unfold workflow_rejected. cbv zeta.
  destruct (is_empty _ || _) eqn:E1; [discriminate|].
  destruct (no_string (Payload.monthlyRuns p)); [discriminate|].
  destruct (number_rejected (Payload.monthlyRuns p)); [discriminate|].
  destruct (no_string (Payload.budgetUsd p)); [discriminate|].
  destruct (number_rejected (Payload.budgetUsd p)); [discriminate|].
  destruct (negb (str_eqb _ (lit "warn")) && _) eqn:E2; [discriminate|].
  intros [= <-]. cbn [workflowYaml policyMode].
  apply orb_false_elim in E1 as [E1a E1b]. apply Z.ltb_ge in E1b.
  split; [|split; [exact E1b|]].
  - intros H. rewrite H in E1a. discriminate.
  - apply andb_false_elim in E2 as [E2|E2]; apply negb_false_iff, str_eqb_eq in E2; auto.
Qed.

(** C3 fails on the code: a payload with [monthlyRuns = 0.3] and
    [budgetUsd = 0.001] passes the range tests, which run before the
    rounding, and the returned input has [monthlyRuns = 0] and
    [budgetUsd = 0]: values that the same range tests reject when the
    returned input is sanitized again. *)
Theorem C3_rounding_after_range_test :
  sanitizeEstimateInput tiny_payload = Return rounded_to_zero
  /\ sanitizeEstimateInput
       (payload (VString (workflowYaml rounded_to_zero))
                (VNumber (monthlyRuns rounded_to_zero))
                (VNumber (budgetUsd rounded_to_zero))
                (VString (policyMode rounded_to_zero)))
     = Throw "invalid_monthly_runs"
  /\ le (monthlyRuns rounded_to_zero) pos_zero = true
  /\ le (budgetUsd rounded_to_zero) pos_zero = true.
Proof. repeat split; vm_compute; reflexivity. Qed.

End SanitizerClaims.

(* ================================================================== *)
(** ** Shape of the result: the entries of [byOs] *)
(* ================================================================== *)

Module AggregateFacts.
Import Invariants.
Import JsString Regex JsNumber Estimator Props.
Local Open Scope list_scope.
Local Open Scope Z_scope.

Lemma parseRunsOn_label raw : is_os_label (parseRunsOn raw).
Proof.
  unfold parseRunsOn, is_os_label.
  destruct (includes _ (lit "windows")); auto.
  destruct (includes _ (lit "macos") || includes _ (lit "mac")); auto.
Qed.

Lemma push_current_ok st : state_ok st -> Forall job_ok (push_current st).
Proof.
  intros [Hj Hc]. unfold push_current.
  destruct (currentJob st) as [j|]; [|exact Hj].
  apply Forall_app. split; [exact Hj|]. constructor; auto.
Qed.

Lemma new_job_ok : job_ok new_job.
Proof. left. reflexivity. Qed.

Lemma scan_line_ok st rawLine : state_ok st -> state_ok (scan_line st rawLine).
Proof.
  intros Hst. pose proof Hst as [Hj Hc]. unfold scan_line.
  destruct (negb (inJobs st) && _); [split; assumption|].
  destruct (negb (inJobs st) || _); [exact Hst|].
  destruct (isJobHeader _).
  { split; simpl.
    - apply push_current_ok; exact Hst.
    - intros j [= <-]. apply new_job_ok. }
  destruct (currentJob st) as [j|] eqn:Ej; [|exact Hst].
  destruct (exec re_runs_on _) as [cap|].
  { split; simpl; [exact Hj|]. intros j' [= <-]. apply parseRunsOn_label. }
  destruct (test re_uses _).
  { split; simpl; [exact Hj|]. intros j' [= <-]. apply (Hc j eq_refl). }
  destruct (test re_run _).
  { split; simpl; [exact Hj|]. intros j' [= <-]. apply (Hc j eq_refl). }
  exact Hst.
Qed.

Lemma fold_scan_ok : forall lines st,
  state_ok st -> state_ok (fold_left scan_line lines st).
Proof.
  induction lines as [|l lines IH]; intros st H; simpl; [exact H|].
  apply IH, scan_line_ok, H.
Qed.

Lemma parseJobsAndSteps_ok workflowYaml :
  parseJobsAndSteps workflowYaml <> []
  /\ Forall job_ok (parseJobsAndSteps workflowYaml).
Proof.
  unfold parseJobsAndSteps.
  assert (H : Forall job_ok (recognized_jobs workflowYaml)).
  { apply push_current_ok, fold_scan_ok. split; [constructor | discriminate]. }
  destruct (recognized_jobs workflowYaml) as [|j js].
  - split; [discriminate|]. constructor; [left; reflexivity | constructor].
  - split; [discriminate | exact H].
Qed.

(** *** The map of [aggregateByOs] *)

Lemma map_get_none m k :
  map_get m k = None -> ~ In k (List.map fst m).
Proof.
  induction m as [|[k' v'] m IH]; simpl; [tauto|].
  destruct (String.eqb k' k) eqn:E; [discriminate|].
  apply String.eqb_neq in E. intros H [H'|H']; [congruence|]. apply (IH H H').
Qed.

Lemma map_get_some m k v :
  map_get m k = Some v -> In (k, v) m.
Proof.
  induction m as [|[k' v'] m IH]; simpl; [discriminate|].
  destruct (String.eqb k' k) eqn:E.
  - apply String.eqb_eq in E. intros [= ->]. left. congruence.
  - intros H. right. apply IH, H.
Qed.

Lemma map_set_keys m k v :
  List.map fst (map_set m k v) =
    if in_dec string_dec k (List.map fst m)
    then List.map fst m else List.map fst m ++ [k].
Proof.
  induction m as [|[k' v'] m IH]; simpl; [reflexivity|].
  destruct (String.eqb k' k) eqn:E.
  - apply String.eqb_eq in E. subst k'. simpl.
    destruct (string_dec k k); [|congruence].
    reflexivity.
  - apply String.eqb_neq in E. simpl. rewrite IH.
    destruct (string_dec k' k); [congruence|].
    destruct (in_dec string_dec k (List.map fst m)); reflexivity.
Qed.

Lemma map_set_entries m k v :
  Forall entry_ok m -> entry_ok (k, v) -> Forall entry_ok (map_set m k v).
Proof.
  intros Hm Hkv. induction m as [|[k' v'] m IH]; simpl.
  - constructor; [exact Hkv | constructor].
  - inversion Hm as [|? ? H1 H2]; subst.
    destruct (String.eqb k' k) eqn:E.
    + apply String.eqb_eq in E. subst k'. constructor; [exact Hkv | exact H2].
    + constructor; [exact H1 | apply IH, H2].
Qed.

Lemma add_job_keys m job :
  List.map fst (add_job m job) =
    if in_dec string_dec (Job.os job) (List.map fst m)
    then List.map fst m else List.map fst m ++ [Job.os job].
Proof. unfold add_job. apply map_set_keys. Qed.

Lemma add_job_ok m job : map_ok m -> map_ok (add_job m job).
Proof.
  intros [Hnd Hall]. split.
  - rewrite add_job_keys.
    destruct (in_dec string_dec (Job.os job) (List.map fst m)) as [Hin|Hin];
      [exact Hnd|].
    apply NoDup_app; [exact Hnd | repeat constructor; simpl; tauto |].
    intros x Hx [<-|[]]. exact (Hin Hx).
  - unfold add_job. apply map_set_entries; [exact Hall|].
    destruct (map_get m (Job.os job)) as [e|] eqn:E; unfold entry_ok; simpl.
    + apply map_get_some in E.
      rewrite Forall_forall in Hall. destruct (Hall _ E) as [Ho Hj].
      simpl in *. split; [exact Ho | lia].
    + split; [reflexivity | lia].
Qed.

Lemma add_job_nonempty m job : add_job m job <> [].
Proof.
  unfold add_job. destruct m as [|[k v] m]; simpl; [discriminate|].
  destruct (String.eqb k (Job.os job)); discriminate.
Qed.

Lemma add_job_labels m job :
  Forall is_os_label (List.map fst m) -> job_ok job ->
  Forall is_os_label (List.map fst (add_job m job)).
Proof.
  intros Hm Hj. rewrite add_job_keys.
  destruct (in_dec _ _ _); [exact Hm|].
  apply Forall_app. split; [exact Hm | constructor; [exact Hj | constructor]].
Qed.

Lemma fold_add_job : forall js m,
  map_ok m -> Forall is_os_label (List.map fst m) -> Forall job_ok js ->
  let m' := fold_left add_job js m in
  map_ok m' /\ Forall is_os_label (List.map fst m') /\ (m <> [] \/ js <> [] -> m' <> []).
Proof.
  induction js as [|j js IH]; intros m Hm Hl Hj; simpl.
  - split; [exact Hm|]. split; [exact Hl|].
    intros [H|H]; [exact H | congruence].
  - inversion Hj as [|? ? Hj1 Hj2]; subst.
    destruct (IH (add_job m j)) as (H1 & H2 & H3); auto using add_job_ok, add_job_labels.
    split; [exact H1|]. split; [exact H2|].
    intros _. apply H3. left. apply add_job_nonempty.
Qed.

Lemma emit_os e : OsEstimate.os (emit e) = OsEstimate.os e.
Proof. reflexivity. Qed.

Lemma aggregate_os (m : OsMap) :
  Forall entry_ok m ->
  List.map OsEstimate.os (List.map (fun kv => emit (snd kv)) m) = List.map fst m.
Proof.
  induction 1 as [|[k v] m [Ho _] _ IH]; simpl; [reflexivity|].
  simpl in Ho. rewrite Ho, IH. reflexivity.
Qed.

(** *** The totals *)

Lemma sum_entries_jobs : forall l m c j t,
  snd (fst (fold_left add_entry l (m, c, j, t)))
  = j + fold_right (fun e acc => OsEstimate.jobs e + acc) 0 l.
Proof.
  induction l as [|e l IH]; intros m c j t; simpl; [lia|].
  rewrite IH. lia.
Qed.

Lemma summary_jobs input :
  Summary.jobs (summary (estimateWorkflowCost input))
  = snd (fst (sum_entries
                (aggregateByOs (parseJobsAndSteps (workflowYaml input))))).
Proof.
  unfold estimateWorkflowCost.
  destruct (sum_entries _) as [[[m c] j] t]. reflexivity.
Qed.

Lemma byOs_eq input :
  byOs (estimateWorkflowCost input)
  = aggregateByOs (parseJobsAndSteps (workflowYaml input)).
Proof.
  unfold estimateWorkflowCost.
  destruct (sum_entries _) as [[[m c] j] t]. reflexivity.
Qed.

(** The map built by [aggregateByOs]: it is not empty, its keys are
    distinct labels and each entry counts at least one job. *)
Lemma aggregate_map_shape workflowYaml :
  let m := fold_left add_job (parseJobsAndSteps workflowYaml) [] in
  m <> [] /\ map_ok m /\ Forall is_os_label (List.map fst m).
Proof.
  destruct (parseJobsAndSteps_ok workflowYaml) as [Hne Hok].
  assert (H0 : map_ok []) by (split; constructor).
  destruct (fold_add_job H0 (Forall_nil _) Hok) as (Hm & Hl & Hnz).
  split; [apply Hnz; right; exact Hne | split; assumption].
Qed.

End AggregateFacts.

Module ShapeClaims.
Import Invariants.
Import JsString Regex JsNumber Estimator Props AggregateFacts.
Local Open Scope list_scope.
Local Open Scope Z_scope.

(** C10: [byOs] is never empty, every entry is labelled [linux],
    [windows] or [macos], no label occurs twice, and the summary counts
    at least one job. *)
Theorem C10_byOs_shape (input : EstimateInput) :
  let r := estimateWorkflowCost input in
  byOs r <> []
  /\ Forall (fun e => is_os_label (OsEstimate.os e)) (byOs r)
  /\ NoDup (List.map OsEstimate.os (byOs r))
  /\ 1 <= Summary.jobs (summary r).
Proof.
  intros r. subst r. rewrite summary_jobs, byOs_eq.
  destruct (aggregate_map_shape (workflowYaml input)) as (Hm & [Hnd Hall] & Hl).
  unfold aggregateByOs, sum_entries.
  set (m := fold_left add_job (parseJobsAndSteps (workflowYaml input)) []) in *.
  split; [|split; [|split]].
  - destruct m; [congruence | discriminate].
  - apply Forall_map. rewrite Forall_forall in *. intros [k v] Hin.
    rewrite emit_os. destruct (Hall _ Hin) as [Ho _]. simpl in *. rewrite Ho.
    apply Hl. apply (in_map fst _ _ Hin).
  - rewrite aggregate_os; assumption.
  - rewrite sum_entries_jobs.
    destruct m as [|[k v] m']; [congruence|]. simpl.
    inversion Hall as [|? ? [_ H1] H2]; subst. simpl in H1.
    assert (H0 : 0 <= fold_right (fun e acc => OsEstimate.jobs e + acc) 0
                        (List.map (fun kv => emit (snd kv)) m')).
    { clear - H2. induction H2 as [|[k' v'] m'' [_ Hj] _ IH]; simpl in *; lia. }
    lia.
Qed.

End ShapeClaims.

(* ================================================================== *)
(** ** Binary64 arithmetic: values and rounding errors *)
(* ================================================================== *)

Unset Implicit Arguments.

Module Binary64.
Import Values.
Import JsNumber.
Local Open Scope R_scope.

Lemma bpow_pos e : 0 < bpow e.
Proof. apply powerRZ_lt. lra. Qed.

Lemma bpow_plus a b : bpow (a + b) = bpow a * bpow b.
Proof. apply powerRZ_add. lra. Qed.

Lemma bpow_0 : bpow 0 = 1.
Proof. reflexivity. Qed.

Lemma bpow_1 : bpow 1 = 2.
Proof. unfold bpow. simpl. lra. Qed.

Lemma bpow_IZR n : (0 <= n)%Z -> bpow n = IZR (2 ^ n).
Proof.
  intros H. unfold bpow. rewrite <- (Z2Nat.id n H) at 1.
  rewrite <- pow_powerRZ, pow_IZR, Z2Nat.id by exact H. reflexivity.
Qed.

Lemma bpow_ge_1 n : (0 <= n)%Z -> 1 <= bpow n.
Proof.
  intros H. rewrite bpow_IZR by exact H. apply IZR_le.
  assert (0 < 2 ^ n)%Z by (apply Z.pow_pos_nonneg; lia). lia.
Qed.

Lemma bpow_le a b : (a <= b)%Z -> bpow a <= bpow b.
Proof.
  intros H. replace b with (a + (b - a))%Z by lia. rewrite bpow_plus.
  pose proof (bpow_pos a).
  assert (1 <= bpow (b - a)) by (apply bpow_ge_1; lia). nra.
Qed.

Lemma bpow_lt a b : (a < b)%Z -> bpow a < bpow b.
Proof.
  intros H. replace b with (a + 1 + (b - a - 1))%Z by lia.
  rewrite !bpow_plus, bpow_1.
  pose proof (bpow_pos a).
  assert (1 <= bpow (b - a - 1)) by (apply bpow_ge_1; lia). nra.
Qed.

Lemma bpow_lt_inv a b : bpow a < bpow b -> (a < b)%Z.
Proof.
  intros H. destruct (Z_lt_le_dec a b) as [L|L]; [exact L|].
  apply bpow_le in L. lra.
Qed.

Lemma bpow_opp e : bpow (- e) = / bpow e.
Proof.
  pose proof (bpow_pos e). pose proof (bpow_plus e (- e)) as H1.
  replace (e + - e)%Z with 0%Z in H1 by lia. rewrite bpow_0 in H1.
  apply Rmult_eq_reg_l with (bpow e); [|lra]. rewrite <- H1. field. lra.
Qed.

Global Opaque bpow.

Lemma u_bpow : u = bpow (-53).
Proof.
  change (-53)%Z with (- (53))%Z. rewrite bpow_opp, bpow_IZR by lia.
  reflexivity.
Qed.

(** *** Binary digits *)

Lemma pow2_succ d : (0 < d)%Z -> (2 ^ d = 2 * 2 ^ (d - 1))%Z.
Proof.
  intros H. replace d with (Z.succ (d - 1)) at 1 by lia.
  apply Z.pow_succ_r. lia.
Qed.

Lemma digits2_bounds p :
  (2 ^ (Zpos (digits2_pos p) - 1) <= Zpos p < 2 ^ Zpos (digits2_pos p))%Z.
Proof.
  induction p as [p IH|p IH|]; simpl digits2_pos.
  - rewrite Pos2Z.inj_succ.
    replace (Z.succ (Zpos (digits2_pos p)) - 1)%Z with (Zpos (digits2_pos p)) by lia.
    rewrite (pow2_succ (Z.succ _)) by lia.
    replace (Z.succ (Zpos (digits2_pos p)) - 1)%Z with (Zpos (digits2_pos p)) by lia.
    rewrite (pow2_succ (Zpos (digits2_pos p))) in * by lia. lia.
  - rewrite Pos2Z.inj_succ.
    replace (Z.succ (Zpos (digits2_pos p)) - 1)%Z with (Zpos (digits2_pos p)) by lia.
    rewrite (pow2_succ (Z.succ _)) by lia.
    replace (Z.succ (Zpos (digits2_pos p)) - 1)%Z with (Zpos (digits2_pos p)) by lia.
    rewrite (pow2_succ (Zpos (digits2_pos p))) in * by lia. lia.
  - simpl. lia.
Qed.

Lemma digits2_unique p k :
  (2 ^ (k - 1) <= Zpos p < 2 ^ k)%Z -> Zpos (digits2_pos p) = k.
Proof.
  intros [H1 H2]. pose proof (digits2_bounds p) as [H3 H4].
  set (d := Zpos (digits2_pos p)) in *.
  assert (0 < k)%Z.
  { destruct (Z.lt_trichotomy k 0) as [L|[L|L]]; [| |exact L].
    - rewrite Z.pow_neg_r in H2 by exact L. lia.
    - subst k. simpl in H2. lia. }
  destruct (Z.lt_trichotomy d k) as [L|[L|L]]; [|exact L|].
  - assert (2 ^ d <= 2 ^ (k - 1))%Z by (apply Z.pow_le_mono_r; lia). lia.
  - assert (2 ^ k <= 2 ^ (d - 1))%Z by (apply Z.pow_le_mono_r; lia). lia.
Qed.

(** *** Truncation with a location *)

Lemma inbetween_bounds m e x l :
  inbetween m e x l -> F2R m e <= x < F2R m e + bpow e.
Proof.
  pose proof (bpow_pos e).
  destruct l as [|[| |]]; simpl; lra.
Qed.

Lemma bpow_succ e : bpow (e + 1) = 2 * bpow e.
Proof. rewrite bpow_plus, bpow_1. ring. Qed.

Lemma F2R_0 e : F2R 0 e = 0.
Proof. unfold F2R. ring. Qed.

Lemma F2R_1 e : F2R 1 e = bpow e.
Proof. unfold F2R. ring. Qed.

Lemma F2R_xO p e : F2R (Zpos p~0) e = F2R (Zpos p) (e + 1).
Proof.
  unfold F2R. rewrite bpow_succ, Pos2Z.inj_xO, mult_IZR. ring.
Qed.

Lemma F2R_xI p e : F2R (Zpos p~1) e = F2R (Zpos p) (e + 1) + bpow e.
Proof.
  unfold F2R. rewrite bpow_succ, Pos2Z.inj_xI, plus_IZR, mult_IZR. ring.
Qed.

Lemma shr_1_inv mrs e x : shr_inv mrs e x -> shr_inv (shr_1 mrs) (e + 1) x.
Proof.
  destruct mrs as [m r s]. unfold shr_inv. intros [Hm H].
  pose proof (bpow_pos e) as Hb. pose proof (bpow_succ e) as Hs.
  cbn [shr_m] in Hm, H.
  destruct m as [|p|p]; [| |lia].
  - destruct r, s; cbn [shr_1 shr_m loc_of_shr_record orb inbetween] in *;
      rewrite ?F2R_0 in *; (split; [lia|]); lra.
  - destruct p as [p|p|]; destruct r, s;
      cbn [shr_1 shr_m loc_of_shr_record orb inbetween] in *;
      rewrite ?F2R_xI, ?F2R_xO, ?F2R_1, ?F2R_0 in *; (split; [lia|]); lra.
Qed.

Lemma iter_pos_shr_inv p : forall mrs e x,
  shr_inv mrs e x -> shr_inv (SpecFloat.iter_pos shr_1 p mrs) (e + Zpos p) x.
Proof.
  induction p as [p IH|p IH|]; intros mrs e x H; cbn [SpecFloat.iter_pos].
  - replace (e + Zpos p~1)%Z with (e + 1 + Zpos p + Zpos p)%Z by lia.
    apply IH, IH, shr_1_inv, H.
  - replace (e + Zpos p~0)%Z with (e + Zpos p + Zpos p)%Z by lia.
    apply IH, IH, H.
  - apply shr_1_inv, H.
Qed.

Lemma shr_inv_shr mrs e n x :
  (0 <= n)%Z -> shr_inv mrs e x ->
  snd (shr mrs e n) = (e + n)%Z /\ shr_inv (fst (shr mrs e n)) (e + n) x.
Proof.
  intros Hn H. destruct n as [|p|p]; [| |lia]; simpl.
  - rewrite Z.add_0_r. auto.
  - split; [reflexivity|]. apply iter_pos_shr_inv, H.
Qed.

(** *** Rounding to nearest even *)

Lemma fexp_normal e :
  (-1074 <= e - 53)%Z -> fexp prec emax e = (e - 53)%Z.
Proof. unfold fexp, emin, prec, emax. lia. Qed.

Lemma F2R_lt_inv m1 m2 e : F2R m1 e < F2R m2 e -> (m1 < m2)%Z.
Proof.
  unfold F2R. intros H. pose proof (bpow_pos e). apply lt_IZR. nra.
Qed.

Lemma F2R_plus m1 m2 e : F2R (m1 + m2) e = F2R m1 e + F2R m2 e.
Proof. unfold F2R. rewrite plus_IZR. ring. Qed.

Lemma round_nearest_even_spec m l e x :
  inbetween m e x l ->
  let m' := round_nearest_even m l in
  (m' = m \/ m' = (m + 1)%Z)
  /\ Rabs (F2R m' e - x) <= bpow e / 2
  /\ ((exists k, x = F2R k e) -> F2R m' e = x).
Proof.
  intros H. pose proof (bpow_pos e) as Hb.
  assert (Hno : F2R m e < x < F2R m e + bpow e -> ~ exists k, x = F2R k e).
  { intros [H1 H2] [k ->]. rewrite <- (F2R_1 e), <- F2R_plus in H2.
    apply F2R_lt_inv in H1, H2. lia. }
  destruct l as [|[| |]]; simpl in *.
  - split; [left; reflexivity|]. split; [|intros _; congruence].
    rewrite H. unfold Rminus. rewrite Rplus_opp_r, Rabs_R0. lra.
  - split; [|split].
    + destruct (Z.even m); auto.
    + destruct (Z.even m); rewrite ?F2R_plus, ?F2R_1, H;
        apply Rabs_le; lra.
    + intros [k Hk]. exfalso. rewrite Hk in H.
      assert (E : IZR (2 * k) = IZR (2 * m + 1)).
      { rewrite plus_IZR, !mult_IZR. unfold F2R in H. nra. }
      apply eq_IZR in E. lia.
  - split; [left; reflexivity|]. split; [apply Rabs_le; lra|].
    intros Hk. exfalso. apply Hno; [lra | exact Hk].
  - split; [right; reflexivity|]. split.
    + rewrite F2R_plus, F2R_1. apply Rabs_le; lra.
    + intros Hk. exfalso. apply Hno; [lra | exact Hk].
Qed.

Lemma shr_record_of_loc_inv m l e x :
  (0 <= m)%Z -> inbetween m e x l -> shr_inv (shr_record_of_loc m l) e x.
Proof.
  intros Hm H. unfold shr_inv. destruct l as [|[| |]]; simpl; auto.
Qed.

Lemma F2R_bpow n e : (0 <= n)%Z -> F2R (2 ^ n) e = bpow (n + e).
Proof.
  intros H. unfold F2R. rewrite <- bpow_IZR by exact H. symmetry. apply bpow_plus.
Qed.

Lemma F2R_le m1 m2 e : (m1 <= m2)%Z -> F2R m1 e <= F2R m2 e.
Proof.
  intros H. unfold F2R. apply IZR_le in H. pose proof (bpow_pos e). nra.
Qed.

(** A positive mantissa with a location, in the normal range and with at
    least 53 digits, rounds to a normal double within half an ulp. *)
Lemma binary_round_aux_correct p ex lx x :
  inbetween (Zpos p) ex x lx ->
  let e1 := (Zpos (digits2_pos p) + ex - 53)%Z in
  (ex <= e1)%Z -> (-1074 <= e1 <= 970)%Z ->
  let f := binary_round_aux prec emax false (Zpos p) ex lx in
  pnormal f
  /\ Rabs (B2R f - x) <= bpow e1 / 2
  /\ bpow (e1 + 52) <= x
  /\ ((exists k, x = F2R k e1) -> B2R f = x).
Proof.
  intros Hin e1 He Hr f. subst f.
  pose proof (bpow_pos e1) as Hb.
  (* the value lies between 2^(e1+52) and 2^(e1+53) *)
  pose proof (digits2_bounds p) as [Hd1 Hd2].
  pose proof (inbetween_bounds _ _ _ _ Hin) as [Hx1 Hx2].
  assert (Hlo : bpow (e1 + 52) <= x).
  { replace (e1 + 52)%Z with (Zpos (digits2_pos p) - 1 + ex)%Z by (unfold e1; lia).
    rewrite <- F2R_bpow by lia. apply Rle_trans with (2 := Hx1). apply F2R_le. exact Hd1. }
  assert (Hhi : x < bpow (e1 + 53)).
  { replace (e1 + 53)%Z with (Zpos (digits2_pos p) + ex)%Z by (unfold e1; lia).
    rewrite <- F2R_bpow by lia. apply Rlt_le_trans with (1 := Hx2).
    rewrite <- F2R_1, <- F2R_plus. apply F2R_le. lia. }
  (* first truncation *)
  unfold binary_round_aux, shr_fexp. simpl Zdigits2.
  rewrite fexp_normal by (unfold e1 in Hr; lia).
  fold e1.
  destruct (shr_inv_shr (shr_record_of_loc (Zpos p) lx) ex (e1 - ex) x)
    as [Hs1 [Hm1 Hi1]]; [lia | apply shr_record_of_loc_inv; [lia | exact Hin] |].
  replace (ex + (e1 - ex))%Z with e1 in * by lia.
  destruct (shr (shr_record_of_loc (Zpos p) lx) ex (e1 - ex)) as [mrs1 e1'].
  simpl in Hs1, Hm1, Hi1. subst e1'.
  set (m1 := shr_m mrs1) in *.
  pose proof (inbetween_bounds _ _ _ _ Hi1) as [Hy1 Hy2].
  assert (Hm1lo : (2 ^ 52 <= m1)%Z).
  { assert (F2R (2 ^ 52) e1 < F2R (m1 + 1) e1).
    { rewrite F2R_bpow by lia. rewrite F2R_plus, F2R_1.
      replace (52 + e1)%Z with (e1 + 52)%Z by lia. lra. }
    apply F2R_lt_inv in H. lia. }
  assert (Hm1hi : (m1 < 2 ^ 53)%Z).
  { apply F2R_lt_inv with e1. rewrite F2R_bpow by lia.
    replace (53 + e1)%Z with (e1 + 53)%Z by lia. lra. }
  (* rounding *)
  destruct (round_nearest_even_spec _ _ _ _ Hi1) as (Hm2 & Herr & Hex).
  set (m2 := round_nearest_even m1 (loc_of_shr_record mrs1)) in *.
  destruct (Z.eq_dec m2 (2 ^ 53)) as [E|NE].
  - (* the mantissa reached 2^53: one more shift *)
    rewrite E in *. simpl Zdigits2.
    replace (fexp prec emax (54 + e1) - e1)%Z with 1%Z
      by (unfold fexp, emin, prec, emax; lia).
    simpl. replace (e1 + 1 <=? 971)%Z with true by (symmetry; apply Z.leb_le; lia).
    assert (Hv : F2R 4503599627370496 (e1 + 1) = F2R (2 ^ 53) e1).
    { unfold F2R. rewrite bpow_plus, bpow_1. change (2 ^ 53)%Z with 9007199254740992%Z.
      replace (IZR 9007199254740992) with (2 * IZR 4503599627370496) by (rewrite <- mult_IZR; reflexivity).
      ring. }
    split; [|split; [|split]].
    + eexists _, _. split; [reflexivity|]. split; [reflexivity | lia].
    + simpl B2R. rewrite Hv. exact Herr.
    + exact Hlo.
    + intros Hk. simpl B2R. rewrite Hv. apply Hex, Hk.
  - assert (Hm2r : (2 ^ 52 <= m2 < 2 ^ 53)%Z) by lia.
    destruct m2 as [|q|q] eqn:Eq; [lia| |lia].
    simpl Zdigits2. rewrite (digits2_unique q 53 Hm2r).
    replace (fexp prec emax (53 + e1) - e1)%Z with 0%Z
      by (unfold fexp, emin, prec, emax; lia).
    simpl. replace (e1 <=? 971)%Z with true by (symmetry; apply Z.leb_le; lia).
    split; [|split; [|split]].
    + eexists _, _. split; [reflexivity|]. split; [|lia].
      pose proof (digits2_unique q 53 Hm2r) as D. congruence.
    + exact Herr.
    + exact Hlo.
    + exact Hex.
Qed.

Lemma half_ulp e : bpow e / 2 = u * bpow (e + 52).
Proof.
  rewrite bpow_plus, (bpow_IZR 52) by lia.
  change (2 ^ 52)%Z with 4503599627370496%Z. unfold u. field.
Qed.

(** The exponent range of a positive value with [d] digits at exponent [e]. *)
Lemma range_of_value p e :
  bpow (-1022) <= F2R (Zpos p) e < bpow 1023 ->
  (-1074 <= Zpos (digits2_pos p) + e - 53 <= 970)%Z.
Proof.
  intros [H1 H2]. pose proof (digits2_bounds p) as [Hd1 Hd2].
  assert (L : bpow (Zpos (digits2_pos p) - 1 + e) < bpow 1023).
  { rewrite <- F2R_bpow by lia. apply Rle_lt_trans with (2 := H2).
    apply F2R_le. exact Hd1. }
  assert (U : bpow (-1022) < bpow (Zpos (digits2_pos p) + e)).
  { rewrite <- F2R_bpow by lia. apply Rle_lt_trans with (1 := H1).
    unfold F2R. pose proof (bpow_pos e). apply IZR_lt in Hd2. nra. }
  apply bpow_lt_inv in L, U. lia.
Qed.

Lemma Pos_iter_xO m d : Zpos (Pos.iter xO m d) = (Zpos m * 2 ^ Zpos d)%Z.
Proof.
  induction d as [|d IH] using Pos.peano_ind.
  - simpl. lia.
  - rewrite Pos.iter_succ, Pos2Z.inj_xO, IH, Pos2Z.inj_succ, Z.pow_succ_r by lia. ring.
Qed.

Lemma F2R_shift m q e :
  (0 <= q)%Z -> F2R (m * 2 ^ q) e = F2R m (q + e).
Proof.
  intros H. unfold F2R. rewrite mult_IZR, <- bpow_IZR, bpow_plus by exact H. ring.
Qed.

Lemma digits2_shift p q :
  Zpos (digits2_pos (Pos.iter xO p q)) = (Zpos (digits2_pos p) + Zpos q)%Z.
Proof.
  apply digits2_unique. rewrite Pos_iter_xO.
  pose proof (digits2_bounds p) as [H1 H2].
  replace (Zpos (digits2_pos p) + Zpos q - 1)%Z
    with (Zpos (digits2_pos p) - 1 + Zpos q)%Z by lia.
  rewrite !Z.pow_add_r by lia.
  assert (0 < 2 ^ Zpos q)%Z by (apply Z.pow_pos_nonneg; lia). nia.
Qed.

(** A positive mantissa in the normal range rounds with a relative
    error of at most [u], and exactly when it has at most 53 digits. *)
Lemma binary_round_correct p e :
  let x := F2R (Zpos p) e in
  bpow (-1022) <= x < bpow 1023 ->
  let f := binary_round prec emax false p e in
  pnormal f
  /\ Rabs (B2R f - x) <= u * x
  /\ ((Zpos p < 2 ^ 53)%Z -> B2R f = x).
Proof.
  intros x Hx f. subst f.
  pose proof (range_of_value _ _ Hx) as Hr.
  set (e1 := (Zpos (digits2_pos p) + e - 53)%Z) in *.
  unfold binary_round. rewrite fexp_normal by (unfold e1 in Hr; lia). fold e1.
  unfold shl_align.
  destruct (e1 - e)%Z as [|q|q] eqn:Eq.
  - (* the mantissa has exactly 53 digits *)
    assert (e1 = e) by lia.
    destruct (binary_round_aux_correct p e loc_Exact x)
      as (Hn & He & Hlo & Hex); [reflexivity | fold e1; lia | fold e1; lia |].
    fold e1 in He, Hlo, Hex.
    assert (Hxx : B2R (binary_round_aux prec emax false (Zpos p) e loc_Exact) = x).
    { apply Hex. exists (Zpos p). subst e1. rewrite H. reflexivity. }
    split; [exact Hn|]. split; [|intros _; exact Hxx].
    rewrite Hxx. unfold Rminus. rewrite Rplus_opp_r, Rabs_R0.
    pose proof (bpow_pos (-1022)). unfold u. lra.
  - (* more than 53 digits: rounding *)
    destruct (binary_round_aux_correct p e loc_Exact x)
      as (Hn & He & Hlo & Hex); [reflexivity | fold e1; lia | fold e1; lia |].
    fold e1 in He, Hlo, Hex.
    split; [exact Hn|]. split.
    + rewrite half_ulp in He. apply Rle_trans with (1 := He).
      apply Rmult_le_compat_l; [unfold u; lra | exact Hlo].
    + intros Hp. exfalso. pose proof (digits2_bounds p) as [Hd1 _].
      assert (2 ^ 53 <= 2 ^ (Zpos (digits2_pos p) - 1))%Z
        by (apply Z.pow_le_mono_r; lia).
      lia.
  - (* fewer than 53 digits: the mantissa is shifted left, nothing is lost *)
    assert (Hq : e = (Zpos q + e1)%Z) by lia.
    assert (Hv : F2R (Zpos (Pos.iter xO p q)) e1 = x).
    { rewrite Pos_iter_xO, F2R_shift by lia. rewrite <- Hq. reflexivity. }
    destruct (binary_round_aux_correct (Pos.iter xO p q) e1 loc_Exact x)
      as (Hn & He & Hlo & Hex).
    + simpl. symmetry. exact Hv.
    + rewrite digits2_shift. unfold e1. lia.
    + rewrite digits2_shift. unfold e1 in *. lia.
    + replace (Zpos (digits2_pos (Pos.iter xO p q)) + e1 - 53)%Z with e1 in *
        by (rewrite digits2_shift; unfold e1; lia).
      assert (Hxx : B2R (binary_round_aux prec emax false (Zpos (Pos.iter xO p q)) e1 loc_Exact) = x).
      { apply Hex. exists (Zpos (Pos.iter xO p q)). symmetry. exact Hv. }
      split; [exact Hn|]. split; [|intros _; exact Hxx].
      rewrite Hxx. unfold Rminus. rewrite Rplus_opp_r, Rabs_R0.
      pose proof (bpow_pos (-1022)). unfold u. lra.
Qed.

(** *** The operations on positive normal doubles *)

Lemma pnormal_bounds f :
  pnormal f -> bpow (-1022) <= B2R f < bpow 1024.
Proof.
  intros (m & e & -> & Hd & He). cbn [B2R cond_Zopp].
  pose proof (digits2_bounds m) as [H1 H2]. rewrite Hd in H1, H2.
  split.
  - apply Rle_trans with (F2R (2 ^ 52) e).
    + rewrite F2R_bpow by lia. apply bpow_le. lia.
    + apply F2R_le. exact H1.
  - apply Rlt_le_trans with (F2R (2 ^ 53) e).
    + unfold F2R. pose proof (bpow_pos e). apply IZR_lt in H2. nra.
    + rewrite F2R_bpow by lia. apply bpow_le. lia.
Qed.

Lemma pnormal_pos f : pnormal f -> 0 < B2R f.
Proof.
  intros H. apply pnormal_bounds in H. pose proof (bpow_pos (-1022)). lra.
Qed.

Lemma of_Z_spec n :
  (0 < n < 2 ^ 53)%Z -> pnormal (of_Z n) /\ B2R (of_Z n) = IZR n.
Proof.
  intros Hn. destruct n as [|p|p]; [lia| |lia].
  unfold of_Z, of_scaled. cbn [binary_normalize].
  assert (Hv : F2R (Zpos p) 0 = IZR (Zpos p)) by (unfold F2R; rewrite bpow_0; ring).
  destruct (binary_round_correct p 0) as (Hp & _ & Hex).
  - rewrite Hv. split.
    + apply Rle_trans with (bpow 0); [apply bpow_le; lia|].
      rewrite bpow_0. apply IZR_le. lia.
    + apply Rlt_le_trans with (bpow 53); [|apply bpow_le; lia].
      rewrite (bpow_IZR 53) by lia. apply IZR_lt. lia.
  - split; [exact Hp|]. rewrite <- Hv. apply Hex. lia.
Qed.

Lemma shl_align_value m e e' :
  (e' <= e)%Z -> F2R (Zpos (fst (shl_align m e e'))) e' = F2R (Zpos m) e.
Proof.
  intros H. unfold shl_align.
  destruct (e' - e)%Z as [|q|q] eqn:E; cbn [fst].
  - replace e' with e by lia. reflexivity.
  - lia.
  - rewrite Pos_iter_xO, F2R_shift by lia. f_equal. lia.
Qed.

Lemma add_spec x y :
  pnormal x -> pnormal y -> B2R x + B2R y < bpow 1023 ->
  pnormal (add x y)
  /\ Rabs (B2R (add x y) - (B2R x + B2R y)) <= u * (B2R x + B2R y).
Proof.
  intros Hx Hy Hs.
  pose proof (pnormal_bounds _ Hx) as [Hx1 _]. pose proof (pnormal_pos _ Hy) as Hy1.
  destruct Hx as (mx & ex & -> & _ & _). destruct Hy as (my & ey & -> & _ & _).
  unfold add. cbn [SFadd cond_Zopp]. cbn [B2R cond_Zopp] in *.
  set (ez := Z.min ex ey).
  rewrite <- (shl_align_value mx ex ez), <- (shl_align_value my ey ez) in * by (unfold ez; lia).
  set (a := fst (shl_align mx ex ez)) in *. set (b := fst (shl_align my ey ez)) in *.
  rewrite <- F2R_plus in *. rewrite <- Pos2Z.inj_add in *. cbn [binary_normalize].
  destruct (binary_round_correct (a + b) ez) as (Hp & He & _).
  - split; [|exact Hs]. rewrite Pos2Z.inj_add, F2R_plus. lra.
  - split; assumption.
Qed.

Lemma digits2_ge p k :
  (2 ^ (k - 1) <= Zpos p)%Z -> (k <= Zpos (digits2_pos p))%Z.
Proof.
  intros H. pose proof (digits2_bounds p) as [_ H2].
  destruct (Z_lt_le_dec (Zpos (digits2_pos p)) k) as [L|L]; [|exact L].
  assert (2 ^ Zpos (digits2_pos p) <= 2 ^ (k - 1))%Z by (apply Z.pow_le_mono_r; lia).
  lia.
Qed.

Lemma mul_spec x y :
  pnormal x -> pnormal y -> bpow (-1022) <= B2R x * B2R y < bpow 1023 ->
  pnormal (mul x y)
  /\ Rabs (B2R (mul x y) - B2R x * B2R y) <= u * (B2R x * B2R y).
Proof.
  intros (mx & ex & -> & Hdx & _) (my & ey & -> & Hdy & _) Hv.
  unfold mul. cbn [SFmul xorb]. cbn [B2R cond_Zopp] in *.
  assert (E : F2R (Zpos mx) ex * F2R (Zpos my) ey = F2R (Zpos (mx * my)) (ex + ey)).
  { unfold F2R. rewrite Pos2Z.inj_mul, mult_IZR, bpow_plus. ring. }
  rewrite E in *.
  pose proof (range_of_value _ _ Hv) as Hr.
  assert (Hd : (105 <= Zpos (digits2_pos (mx * my)))%Z).
  { apply digits2_ge. pose proof (digits2_bounds mx) as [H1 _].
    pose proof (digits2_bounds my) as [H2 _]. rewrite Hdx in H1. rewrite Hdy in H2.
    rewrite Pos2Z.inj_mul. change (2 ^ (105 - 1))%Z with (2 ^ 52 * 2 ^ 52)%Z.
    change (53 - 1)%Z with 52%Z in *. nia. }
  destruct (binary_round_aux_correct (mx * my) (ex + ey) loc_Exact
              (F2R (Zpos (mx * my)) (ex + ey))) as (Hp & He & Hlo & _);
    [reflexivity | lia | exact Hr |].
  split; [exact Hp|].
  rewrite half_ulp in He. apply Rle_trans with (1 := He).
  apply Rmult_le_compat_l; [unfold u; lra | exact Hlo].
Qed.

Lemma new_location_inbetween nb k q e x :
  (0 < nb)%Z -> (0 <= k < nb)%Z ->
  x = F2R q e + IZR k / IZR nb * bpow e ->
  inbetween q e x (new_location nb k).
Proof.
  intros Hnb Hk ->. pose proof (bpow_pos e) as Hb.
  assert (HN : 0 < IZR nb) by (apply IZR_lt; exact Hnb).
  set (t := IZR k / IZR nb * bpow e).
  assert (Et : t * (2 * IZR nb) = IZR (2 * k) * bpow e).
  { unfold t. rewrite mult_IZR. field. lra. }
  assert (Hlt : (2 * k < nb)%Z -> 0 < IZR k -> 0 < t < bpow e / 2).
  { intros L P. apply IZR_lt in L. rewrite mult_IZR in *.
    assert (0 < IZR k / IZR nb) by (apply Rdiv_lt_0_compat; lra).
    unfold t. split; [nra|]. unfold t in Et. nra. }
  assert (Hgt : (nb < 2 * k)%Z -> bpow e / 2 < t < bpow e).
  { intros L. apply IZR_lt in L.
    assert (IZR k < IZR nb) by (apply IZR_lt; lia).
    rewrite mult_IZR in *. unfold t in *. split; [nra|].
    assert (IZR k / IZR nb < 1).
    { apply Rmult_lt_reg_r with (IZR nb); [exact HN|].
      unfold Rdiv. rewrite Rmult_assoc, Rinv_l by lra. lra. }
    nra. }
  assert (Heq : (2 * k = nb)%Z -> t = bpow e / 2).
  { intros L. rewrite <- L in Et. rewrite (mult_IZR 2 k) in Et.
    assert (0 < IZR k) by (apply IZR_lt; lia).
    apply Rmult_eq_reg_r with (2 * (2 * IZR k)); [|lra]. rewrite Et. field. }
  assert (H0 : k = 0%Z -> forall l, l = loc_Exact -> inbetween q e (F2R q e + t) l).
  { intros -> l ->. cbn [inbetween]. unfold t, Rdiv. rewrite !Rmult_0_l. ring. }
  unfold new_location.
  destruct (Z.even nb) eqn:Ev.
  - unfold new_location_even.
    destruct (Z.eqb_spec k 0) as [K|K]; [apply H0; auto|].
    assert (P : 0 < IZR k) by (apply IZR_lt; lia).
    destruct (Z.compare_spec (2 * k) nb) as [C|C|C]; cbn [inbetween].
    + rewrite (Heq C). reflexivity.
    + pose proof (Hlt C P). lra.
    + pose proof (Hgt C). lra.
  - unfold new_location_odd.
    destruct (Z.eqb_spec k 0) as [K|K]; [apply H0; auto|].
    assert (P : 0 < IZR k) by (apply IZR_lt; lia).
    destruct (Z.compare_spec (2 * k + 1) nb) as [C|C|C]; cbn [inbetween].
    + assert (L : (2 * k < nb)%Z) by lia. pose proof (Hlt L P). lra.
    + assert (L : (2 * k < nb)%Z) by lia. pose proof (Hlt L P). lra.
    + assert (N : (nb <> 2 * k)%Z).
      { intros ->. rewrite Z.even_mul in Ev. discriminate. }
      assert (L : (nb < 2 * k)%Z) by lia. pose proof (Hgt L). lra.
Qed.

Lemma div_spec x y :
  pnormal x -> pnormal y -> bpow (-1020) <= B2R x / B2R y < bpow 1020 ->
  pnormal (div x y)
  /\ Rabs (B2R (div x y) - B2R x / B2R y) <= u * (B2R x / B2R y).
Proof.
  intros (mx & ex & -> & Hdx & _) (my & ey & -> & Hdy & _) Hv.
  unfold div. cbn [SFdiv xorb]. cbn [B2R cond_Zopp] in *.
  pose proof (digits2_bounds mx) as [Hx1 Hx2]. rewrite Hdx in Hx1, Hx2.
  pose proof (digits2_bounds my) as [Hy1 Hy2]. rewrite Hdy in Hy1, Hy2.
  change (53 - 1)%Z with 52%Z in *.
  pose proof (bpow_pos ex) as Bx. pose proof (bpow_pos ey) as By.
  assert (PX : 0 < IZR (Zpos mx)) by (apply IZR_lt; lia).
  assert (PY : 0 < IZR (Zpos my)) by (apply IZR_lt; lia).
  (* the quotient as a ratio of mantissas *)
  assert (EQ : F2R (Zpos mx) ex / F2R (Zpos my) ey
               = IZR (Zpos mx) / IZR (Zpos my) * bpow (ex - ey)).
  { unfold F2R. replace (ex - ey)%Z with (ex + - ey)%Z by lia.
    rewrite bpow_plus, bpow_opp. field. split; lra. }
  assert (Hq1 : / 2 < IZR (Zpos mx) / IZR (Zpos my)).
  { apply Rmult_lt_reg_r with (IZR (Zpos my)); [exact PY|].
    unfold Rdiv. rewrite Rmult_assoc, Rinv_l by lra.
    apply IZR_le in Hx1. apply IZR_lt in Hy2.
    change (IZR (2 ^ 52)) with 4503599627370496 in Hx1.
    change (IZR (2 ^ 53)) with 9007199254740992 in Hy2. lra. }
  assert (Hq2 : IZR (Zpos mx) / IZR (Zpos my) < 2).
  { apply Rmult_lt_reg_r with (IZR (Zpos my)); [exact PY|].
    unfold Rdiv. rewrite Rmult_assoc, Rinv_l by lra.
    apply IZR_le in Hy1. apply IZR_lt in Hx2.
    change (IZR (2 ^ 52)) with 4503599627370496 in Hy1.
    change (IZR (2 ^ 53)) with 9007199254740992 in Hx2. lra. }
  assert (Hexp : (-1020 <= ex - ey <= 1020)%Z).
  { rewrite EQ in Hv. destruct Hv as [V1 V2].
    pose proof (bpow_pos (ex - ey)) as Bd.
    assert (L : bpow (-1020) < bpow (ex - ey + 1)) by (rewrite bpow_succ; nra).
    assert (U : bpow (ex - ey - 1) < bpow 1020).
    { replace (ex - ey)%Z with (ex - ey - 1 + 1)%Z in V2, Bd by lia.
      rewrite bpow_succ in V2, Bd. nra. }
    apply bpow_lt_inv in L, U. lia. }
  (* the integer division *)
  unfold SFdiv_core_binary. cbn [Zdigits2]. rewrite Hdx, Hdy.
  replace (53 + ex - (53 + ey))%Z with (ex - ey)%Z by lia.
  rewrite fexp_normal by lia.
  replace (Z.min (ex - ey - 53) (ex - ey)) with (ex - ey - 53)%Z by lia.
  replace (ex - ey - (ex - ey - 53))%Z with 53%Z by lia.
  rewrite Z.shiftl_mul_pow2 by lia.
  pose proof (Z_div_mod (Zpos mx * 2 ^ 53) (Zpos my) ltac:(lia)) as Hdiv.
  destruct (Z.div_eucl (Zpos mx * 2 ^ 53) (Zpos my)) as [q r].
  destruct Hdiv as [Hqr Hr].
  assert (Hqlo : (2 ^ 52 <= q)%Z) by nia.
  assert (Hqhi : (q < 2 ^ 54)%Z) by nia.
  destruct q as [|q|q]; [lia| |lia].
  set (e' := (ex - ey - 53)%Z).
  assert (Hin : inbetween (Zpos q) e' (F2R (Zpos mx) ex / F2R (Zpos my) ey)
                  (new_location (Zpos my) r)).
  { apply new_location_inbetween; [lia | lia |].
    rewrite EQ. unfold F2R.
    replace (ex - ey)%Z with (53 + e')%Z by (unfold e'; lia).
    rewrite bpow_plus, (bpow_IZR 53) by lia.
    assert (E : IZR (Zpos mx) * IZR (2 ^ 53) = IZR (Zpos my) * IZR (Zpos q) + IZR r).
    { rewrite <- !mult_IZR, <- plus_IZR. f_equal. exact Hqr. }
    field_simplify_eq; [|lra]. rewrite E. ring. }
  assert (Hd1 : (53 <= Zpos (digits2_pos q))%Z) by (apply digits2_ge; exact Hqlo).
  assert (Hd2 : (Zpos (digits2_pos q) <= 54)%Z).
  { pose proof (digits2_bounds q) as [H1 _].
    destruct (Z_lt_le_dec 54 (Zpos (digits2_pos q))) as [L|L]; [|exact L].
    assert (2 ^ 54 <= 2 ^ (Zpos (digits2_pos q) - 1))%Z by (apply Z.pow_le_mono_r; lia).
    lia. }
  destruct (binary_round_aux_correct q e' _ _ Hin) as (Hp & He & Hlo & _);
    [lia | unfold e'; lia |].
  split; [exact Hp|].
  rewrite half_ulp in He. apply Rle_trans with (1 := He).
  apply Rmult_le_compat_l; [unfold u; lra | exact Hlo].
Qed.

(** *** [Math.round] and [roundMoney] *)

Lemma Math_round_spec y :
  pnormal y -> B2R y < bpow 52 ->
  exists n, (0 <= n)%Z
            /\ IZR n <= B2R y + / 2 < IZR n + 1
            /\ Math_round y = if (n =? 0)%Z then S754_zero false else of_Z n.
Proof.
  intros (m & e & -> & Hd & He) Hv. cbn [B2R cond_Zopp] in *.
  pose proof (digits2_bounds m) as [H1 _]. rewrite Hd in H1.
  change (53 - 1)%Z with 52%Z in H1.
  assert (Hneg : (e < 0)%Z).
  { assert (L : bpow (52 + e) < bpow 52).
    { rewrite <- F2R_bpow by lia. apply Rle_lt_trans with (2 := Hv).
      apply F2R_le. exact H1. }
    apply bpow_lt_inv in L. lia. }
  unfold Math_round. replace (0 <=? e)%Z with false by (symmetry; apply Z.leb_gt; exact Hneg).
  cbn [cond_Zopp]. rewrite Z.shiftr_div_pow2 by lia.
  set (k := (- e)%Z) in *.
  assert (Hk : (0 < k)%Z) by (unfold k; lia).
  set (a := (Zpos m + 2 ^ (k - 1))%Z).
  assert (P2 : (0 < 2 ^ k)%Z) by (apply Z.pow_pos_nonneg; lia).
  assert (P1 : (0 < 2 ^ (k - 1))%Z) by (apply Z.pow_pos_nonneg; lia).
  pose proof (Z.div_mod a (2 ^ k) ltac:(lia)) as Hdm.
  pose proof (Z.mod_pos_bound a (2 ^ k) P2) as Hr.
  set (n := (a / 2 ^ k)%Z) in *. set (r := (a mod 2 ^ k)%Z) in *.
  assert (Hn : (0 <= n)%Z) by (unfold n; apply Z.div_pos; unfold a; lia).
  exists n. split; [exact Hn|]. split; [|reflexivity].
  (* the value is m / 2^k *)
  assert (Eb : bpow e = / IZR (2 ^ k)).
  { replace e with (- k)%Z by (unfold k; lia). rewrite bpow_opp, bpow_IZR by lia.
    reflexivity. }
  assert (E2 : IZR (2 ^ k) = 2 * IZR (2 ^ (k - 1))).
  { rewrite (pow2_succ k Hk), mult_IZR. reflexivity. }
  assert (Ea : IZR (Zpos m) + IZR (2 ^ (k - 1)) = IZR (2 ^ k) * IZR n + IZR r).
  { rewrite <- plus_IZR, <- mult_IZR, <- plus_IZR. f_equal. exact Hdm. }
  assert (PP : 0 < IZR (2 ^ k)) by (apply IZR_lt; exact P2).
  assert (R0 : 0 <= IZR r) by (apply IZR_le; lia).
  assert (R1 : IZR r < IZR (2 ^ k)) by (apply IZR_lt; lia).
  unfold F2R. rewrite Eb.
  assert (Ev : IZR (Zpos m) * / IZR (2 ^ k) + / 2 = IZR n + IZR r * / IZR (2 ^ k)).
  { apply Rmult_eq_reg_r with (IZR (2 ^ k)); [|lra].
    transitivity (IZR (Zpos m) + IZR (2 ^ k) / 2); [field; lra|].
    transitivity (IZR (2 ^ k) * IZR n + IZR r); [rewrite <- Ea; lra | field; lra]. }
  rewrite Ev.
  assert (T0 : 0 <= IZR r * / IZR (2 ^ k)).
  { apply Rmult_le_pos; [exact R0 | left; apply Rinv_0_lt_compat; exact PP]. }
  assert (T1 : IZR r * / IZR (2 ^ k) < 1).
  { apply Rmult_lt_reg_r with (IZR (2 ^ k)); [exact PP|].
    rewrite Rmult_assoc, Rinv_l by lra. lra. }
  lra.
Qed.

Lemma EPSILON_spec : pnormal EPSILON /\ B2R EPSILON = 2 * u.
Proof.
  unfold EPSILON, of_scaled. cbn [binary_normalize].
  assert (Hv : F2R 1 (-52) = 2 * u).
  { rewrite F2R_1, u_bpow. replace (-52)%Z with (-53 + 1)%Z by lia.
    apply bpow_succ. }
  destruct (binary_round_correct 1 (-52)) as (Hp & _ & Hex).
  - rewrite F2R_1. split; [apply bpow_le; lia | apply bpow_lt; lia].
  - split; [exact Hp|]. rewrite <- Hv. apply Hex. lia.
Qed.

Lemma bpow_40 : bpow 40 = 1099511627776.
Proof. rewrite bpow_IZR by lia. reflexivity. Qed.

Lemma bpow_small e : (e <= -60)%Z -> bpow e <= / 1000000000000000000.
Proof.
  intros H. apply Rle_trans with (bpow (-60)); [apply bpow_le; exact H|].
  change (-60)%Z with (- (60))%Z. rewrite bpow_opp, bpow_IZR by lia.
  change (2 ^ 60)%Z with 1152921504606846976%Z.
  apply Rinv_le_contravar; lra.
Qed.

Lemma bpow_big e : (60 <= e)%Z -> 1000000000000000000 <= bpow e.
Proof.
  intros H. apply Rle_trans with (bpow 60); [|apply bpow_le; exact H].
  rewrite bpow_IZR by lia. change (2 ^ 60)%Z with 1152921504606846976%Z. lra.
Qed.

Lemma Rabs_le_inv a b : Rabs a <= b -> - b <= a <= b.
Proof. unfold Rabs. destruct (Rcase_abs a); lra. Qed.

(** The operations on values between 10^-18 and 10^18. *)

Lemma add_ok x y :
  pnormal x -> pnormal y -> B2R x + B2R y <= big ->
  pnormal (add x y)
  /\ Rabs (B2R (add x y) - (B2R x + B2R y)) <= u * (B2R x + B2R y).
Proof.
  intros Hx Hy H. apply add_spec; auto.
  apply Rle_lt_trans with (1 := H). apply Rle_lt_trans with (bpow 60).
  - apply bpow_big. lia.
  - apply bpow_lt. lia.
Qed.

Lemma mul_ok x y :
  pnormal x -> pnormal y -> small <= B2R x * B2R y <= big ->
  pnormal (mul x y)
  /\ Rabs (B2R (mul x y) - B2R x * B2R y) <= u * (B2R x * B2R y).
Proof.
  intros Hx Hy [H1 H2]. apply mul_spec; auto. split.
  - apply Rle_trans with (2 := H1). apply bpow_small. lia.
  - apply Rle_lt_trans with (1 := H2). apply Rle_lt_trans with (bpow 60).
    + apply bpow_big. lia.
    + apply bpow_lt. lia.
Qed.

Lemma div_ok x y :
  pnormal x -> pnormal y -> small <= B2R x / B2R y <= big ->
  pnormal (div x y)
  /\ Rabs (B2R (div x y) - B2R x / B2R y) <= u * (B2R x / B2R y).
Proof.
  intros Hx Hy [H1 H2]. apply div_spec; auto. split.
  - apply Rle_trans with (2 := H1). apply bpow_small. lia.
  - apply Rle_lt_trans with (1 := H2). apply Rle_lt_trans with (bpow 60).
    + apply bpow_big. lia.
    + apply bpow_lt. lia.
Qed.

Lemma hundred_spec : pnormal (of_Z 100) /\ B2R (of_Z 100) = 100.
Proof. apply (of_Z_spec 100). lia. Qed.

End Binary64.

(* ================================================================== *)
(** ** Rounding errors of the cost computation *)
(* ================================================================== *)

Module MoneyFacts.
Import Values.
Import JsString JsNumber Estimator Props Binary64.
Local Open Scope R_scope.

(** [roundMoney] of a positive amount that rounds to a cent or more: the number
    of cents [n] is within one half (and the rounding errors) of
    [100 * x], and the result is the double next to [n / 100]. *)
Lemma roundMoney_spec x :
  pnormal x -> / 128 <= B2R x <= 1000000000000 ->
  exists n,
    (1 <= n <= 100000000000001)%Z
    /\ roundMoney x = div (of_Z n) (of_Z 100)
    /\ Rabs (IZR n - 100 * B2R x) <= / 2 + 301 * u * (B2R x + 1)
    /\ pnormal (roundMoney x)
    /\ Rabs (B2R (roundMoney x) - IZR n / 100) <= u * (IZR n / 100).
Proof.
  intros Hx [Hlo Hhi].
  destruct EPSILON_spec as [He Hev]. destruct hundred_spec as [Hh Hhv].
  destruct (add_ok x EPSILON Hx He) as [Ha Hae].
  { rewrite Hev. unfold u, big. lra. }
  rewrite Hev in Hae. apply Rabs_le_inv in Hae.
  set (a := add x EPSILON) in *.
  destruct (mul_ok a (of_Z 100) Ha Hh) as [Hb Hbe].
  { rewrite Hhv. unfold u, small, big in *. lra. }
  rewrite Hhv in Hbe. apply Rabs_le_inv in Hbe.
  set (b := mul a (of_Z 100)) in *.
  destruct (Math_round_spec b Hb) as (n & Hn0 & Hn & Hr).
  { rewrite (bpow_IZR 52) by lia. change (2 ^ 52)%Z with 4503599627370496%Z.
    unfold u in *. lra. }
  assert (Hn1 : (1 <= n)%Z).
  { assert (L : IZR 0 < IZR n) by (unfold u in *; simpl; lra).
    apply lt_IZR in L. lia. }
  assert (Hn2 : (n <= 100000000000001)%Z).
  { assert (L : IZR n < IZR 100000000000002) by (unfold u in *; lra).
    apply lt_IZR in L. lia. }
  exists n. split; [lia|].
  assert (E : roundMoney x = div (of_Z n) (of_Z 100)).
  { unfold roundMoney. fold a. fold b. rewrite Hr.
    destruct (Z.eqb_spec n 0); [lia | reflexivity]. }
  destruct (of_Z_spec n) as [Hpn Hvn]; [lia|].
  destruct (div_ok (of_Z n) (of_Z 100) Hpn Hh) as [Hd Hde].
  { rewrite Hvn, Hhv. apply IZR_le in Hn1, Hn2. unfold small, big. lra. }
  rewrite Hvn, Hhv in Hde.
  split; [exact E|]. split; [|rewrite E; split; assumption].
  apply Rabs_le. unfold u in *. lra.
Qed.

End MoneyFacts.

(* ================================================================== *)
(** ** The inputs the sanitizer returns *)
(* ================================================================== *)

Module SanitizerFacts.
Import Values.
Import JsString Regex JsNumber Estimator Props Binary64.
Local Open Scope list_scope.
Local Open Scope Z_scope.

Lemma valid_mantissa m e :
  valid_binary prec emax (S754_finite false m e) = true -> Zpos m < 2 ^ 53.
Proof.
  cbn [valid_binary]. unfold bounded, canonical_mantissa. intros H.
  apply andb_prop in H as [H _]. apply Z.eqb_eq in H.
  unfold fexp, emin, prec, emax in H.
  pose proof (digits2_bounds m) as [_ Hd].
  apply Z.lt_le_trans with (1 := Hd). apply Z.pow_le_mono_r; lia.
Qed.

Lemma million : of_Z 1000000 = S754_finite false 8589934592000000 (-33).
Proof. vm_compute. reflexivity. Qed.

(** Every accepted run count, a double as any JavaScript number is,
    comes back as an integer between 0 and 1,000,000. *)
Lemma sanitize_runs p input :
  sanitizeEstimateInput p = Return input ->
  valid_binary prec emax (to_number (Payload.monthlyRuns p)) = true ->
  exists n, 0 <= n <= 1000000 /\ monthlyRuns input = of_Z n.
Proof.
  rewrite FieldFacts.sanitizeEstimateInput_eq.
  unfold workflow_rejected, number_rejected. cbv zeta.
  destruct (is_empty _ || _); [discriminate|].
  destruct (no_string (Payload.monthlyRuns p)); [discriminate|].
  set (x := to_number (Payload.monthlyRuns p)).
  destruct (negb (isFinite x) || le x pos_zero || gt x (of_Z 1000000)) eqn:E;
    [discriminate|].
  destruct (no_string (Payload.budgetUsd p)); [discriminate|].
  destruct (negb (isFinite (to_number (Payload.budgetUsd p))) || _ || _); [discriminate|].
  destruct (negb (str_eqb _ (lit "warn")) && _); [discriminate|].
  intros [= <-] Hv. cbn [monthlyRuns].
  apply orb_false_elim in E as [E Hgt]. apply orb_false_elim in E as [Hfin Hle].
  rewrite million in Hgt. unfold gt, SFltb in Hgt. unfold le, SFleb in Hle.
  destruct x as [s|s| |s m e]; cbn [SFcompare pos_zero isFinite negb] in Hfin, Hle, Hgt;
    try discriminate Hfin; try discriminate Hle.
  destruct s; [discriminate Hle|].
  pose proof (valid_mantissa _ _ Hv) as Hm.
  assert (He : e < -33 \/ (e = -33 /\ Zpos m <= 8589934592000000)).
  { destruct (Z.compare_spec (-33) e) as [C|C|C]; [|discriminate Hgt|left; lia].
    right. split; [lia|].
    change (PosDef.Pos.compare_cont Eq 8589934592000000 m)
      with (Pos.compare 8589934592000000 m) in Hgt.
    destruct (Pos.compare_spec 8589934592000000 m) as [C'|C'|C'];
      [subst m; apply Z.le_refl | discriminate Hgt | apply Z.lt_le_incl; exact C']. }
  clear Hv Hfin Hle Hgt.
  assert (Hneg : e < 0) by (clear - He; lia).
  unfold Math_round. replace (0 <=? e) with false by (symmetry; apply Z.leb_gt; exact Hneg).
  cbn [cond_Zopp]. rewrite Z.shiftr_div_pow2 by lia.
  set (n := (Zpos m + 2 ^ (- e - 1)) / 2 ^ (- e)).
  assert (P1 : 0 < 2 ^ (- e - 1)) by (apply Z.pow_pos_nonneg; lia).
  assert (P2 : 0 < 2 ^ (- e)) by (apply Z.pow_pos_nonneg; lia).
  assert (E2 : 2 ^ (- e) = 2 * 2 ^ (- e - 1)) by (apply pow2_succ; lia).
  exists n. split.
  - split; [apply Z.div_pos; lia|].
    apply Z.lt_succ_r. apply Z.div_lt_upper_bound; [exact P2|].
    destruct He as [He|[-> Hm33]].
    + assert (2 ^ 53 <= 2 ^ 19 * 2 ^ (- e)).
      { rewrite <- Z.pow_add_r by lia. apply Z.pow_le_mono_r; lia. }
      nia.
    + change (2 ^ (- -33)) with 8589934592 in *.
      change (2 ^ (- -33 - 1)) with 4294967296 in *. lia.
  - destruct (Z.eqb_spec n 0) as [->|_]; reflexivity.
Qed.

End SanitizerFacts.

(* ================================================================== *)
(** ** Sizes: lines, steps and minutes of a bounded workflow text *)
(* ================================================================== *)

Module SizeFacts.
Import Values Invariants.
Import JsString Regex JsNumber Estimator Props Binary64 MoneyFacts.
Local Open Scope list_scope.

(** *** The number of lines *)

Lemma split_from_length : forall n s acc,
  (List.length s <= n)%nat ->
  (List.length (split_from acc s) <= List.length s + 1)%nat.
Proof.
  induction n as [|n IH]; intros s acc Hn.
  - destruct s; [simpl; lia | simpl in Hn; lia].
  - destruct s as [|c s]; [simpl; lia|].
    cbn [split_from]. simpl in Hn.
    destruct (c =? 10)%N.
    { simpl. specialize (IH s [] ltac:(lia)). lia. }
    destruct (c =? 13)%N.
    + destruct s as [|d s'].
      * simpl. lia.
      * destruct (d =? 10)%N.
        -- simpl in *. specialize (IH s' [] ltac:(lia)). lia.
        -- specialize (IH (d :: s') (c :: acc) ltac:(lia)). simpl in *. lia.
    + specialize (IH s (c :: acc) ltac:(lia)). simpl in *. lia.
Qed.

Lemma split_lines_length s :
  (List.length (split_lines s) <= List.length s + 1)%nat.
Proof. apply split_from_length with (n := List.length s). lia. Qed.

(** *** The constants of the source *)

Local Open Scope R_scope.

Lemma decimal_spec n k :
  (0 < n < 2 ^ 53)%Z -> (0 <= k <= 15)%Z ->
  small <= IZR n / IZR (10 ^ k) <= big ->
  pnormal (decimal n k)
  /\ Rabs (B2R (decimal n k) - IZR n / IZR (10 ^ k)) <= u * (IZR n / IZR (10 ^ k)).
Proof.
  intros Hn Hk Hv. unfold decimal.
  destruct (of_Z_spec n Hn) as [Pn Vn].
  assert (H10 : (0 < 10 ^ k < 2 ^ 53)%Z).
  { split; [apply Z.pow_pos_nonneg; lia|].
    apply Z.le_lt_trans with (10 ^ 15)%Z; [apply Z.pow_le_mono_r; lia | reflexivity]. }
  destruct (of_Z_spec (10 ^ k) H10) as [Pk Vk].
  destruct (div_ok _ _ Pn Pk) as [Pd Ed]; rewrite Vn, Vk in *; auto.
Qed.

Ltac decimal_bounds n k :=
  let P := fresh "P" in let E := fresh "E" in
  destruct (decimal_spec n k) as [P E];
  [ lia | lia
  | unfold small, big; simpl (10 ^ k)%Z; lra
  | simpl (10 ^ k)%Z in E; apply Rabs_le_inv in E; unfold u in E ].

Lemma two_spec : pnormal (of_Z 2) /\ B2R (of_Z 2) = 2.
Proof. apply (of_Z_spec 2). lia. Qed.

Lemma three_spec : pnormal (of_Z 3) /\ B2R (of_Z 3) = 3.
Proof. apply (of_Z_spec 3). lia. Qed.

Lemma uses_spec :
  pnormal STEP_MINUTES_uses /\ 149 / 100 <= B2R STEP_MINUTES_uses <= 151 / 100.
Proof.
  unfold STEP_MINUTES_uses. decimal_bounds 15%Z 1%Z. split; [exact P | lra].
Qed.

Lemma run_spec :
  pnormal STEP_MINUTES_run /\ B2R STEP_MINUTES_run = 3.
Proof. apply three_spec. Qed.

Lemma fallback_minutes_spec :
  pnormal (decimal 85 1) /\ 8 <= B2R (decimal 85 1) <= 9.
Proof. decimal_bounds 85%Z 1%Z. split; [exact P | lra]. Qed.

(** Every billing rate lies between 0.0079 and 0.0801 USD per minute. *)
Lemma rate_spec os :
  pnormal (rate_of os) /\ 79 / 10000 <= B2R (rate_of os) <= 801 / 10000.
Proof.
  unfold rate_of, OS_RATE_PER_MINUTE_USD.
  destruct (String.eqb os "linux"); [|destruct (String.eqb os "windows");
    [|destruct (String.eqb os "macos")]].
  - decimal_bounds 8%Z 3%Z. split; [exact P | lra].
  - decimal_bounds 16%Z 3%Z. split; [exact P | lra].
  - decimal_bounds 8%Z 2%Z. split; [exact P | lra].
  - decimal_bounds 8%Z 3%Z. split; [exact P | lra].
Qed.

(** *** Steps and minutes of the scanned jobs *)

Lemma total_weight_app js j :
  total_weight (js ++ [j]) = (total_weight js + job_weight j)%Z.
Proof.
  induction js as [|a js IH]; simpl.
  - lia.
  - fold (total_weight (js ++ [j])). fold (total_weight js). lia.
Qed.

Lemma total_weight_nonneg js : Forall job_sized js -> (0 <= total_weight js)%Z.
Proof.
  induction 1 as [|j js [H _] _ IH]; simpl; [lia|].
  fold (total_weight js). unfold job_weight. lia.
Qed.

Lemma new_job_sized : job_sized new_job.
Proof.
  destruct two_spec as [P V]. unfold job_sized, new_job, job_weight. cbn [Job.steps Job.minutes Job.os].
  rewrite V. change (1 + 0)%Z with 1%Z. split; [lia|]. split; [exact P | lra].
Qed.

Lemma add_step_sized j m :
  job_sized j -> (job_weight j < 1000000)%Z ->
  pnormal m -> 149 / 100 <= B2R m <= 3 ->
  job_sized (add_step j m).
Proof.
  intros (Hs & Hp & Hv) Hw Pm Vm. unfold job_sized, add_step, job_weight in *. cbn [Job.steps Job.minutes Job.os].
  apply IZR_lt in Hw. rewrite ?plus_IZR in *.
  destruct (add_ok _ _ Hp Pm) as [Pa Ea]; [unfold big; lra|].
  apply Rabs_le_inv in Ea. unfold u in Ea.
  split; [lia|]. split; [exact Pa | lra].
Qed.

(** One line adds at most one to the total weight. *)
Lemma scan_line_sized st rawLine n :
  scan_sized st n -> (n < 1000000)%Z -> scan_sized (scan_line st rawLine) (n + 1).
Proof.
  intros [Hj Hw] Hn.
  assert (Hkeep : scan_sized st (n + 1)) by (split; [exact Hj | lia]).
  unfold scan_line.
  destruct (negb (inJobs st) && _); [exact Hkeep|].
  destruct (negb (inJobs st) || _); [exact Hkeep|].
  destruct (isJobHeader _).
  { unfold scan_sized, push_current at 1 3. cbn [currentJob jobs].
    rewrite total_weight_app. split.
    - apply Forall_app. split; [exact Hj | constructor; [apply new_job_sized | constructor]].
    - unfold job_weight, new_job. cbn [Job.steps Job.minutes Job.os]. lia. }
  unfold push_current in Hj, Hw.
  destruct (currentJob st) as [j|] eqn:Ej; [|exact Hkeep].
  apply Forall_app in Hj as [Hjs Hj1]. inversion Hj1 as [|? ? Hjj _]; subst.
  rewrite total_weight_app in Hw.
  pose proof (total_weight_nonneg _ Hjs) as H0.
  assert (Hjw : (job_weight j < 1000000)%Z) by lia.
  destruct (exec re_runs_on _) as [cap|].
  { unfold scan_sized, push_current. cbn [currentJob jobs].
    rewrite total_weight_app. split.
    - apply Forall_app. split; [exact Hjs|]. constructor; [|constructor]. exact Hjj.
    - unfold job_weight in *. cbn [Job.steps Job.minutes Job.os]. lia. }
  destruct (test re_uses _).
  { unfold scan_sized, push_current. cbn [currentJob jobs].
    rewrite total_weight_app. split.
    - apply Forall_app. split; [exact Hjs|]. constructor; [|constructor].
      destruct uses_spec as [P V]. apply add_step_sized; auto. lra.
    - unfold job_weight, add_step in *. cbn [Job.steps Job.minutes Job.os]. lia. }
  destruct (test re_run _).
  { unfold scan_sized, push_current. cbn [currentJob jobs].
    rewrite total_weight_app. split.
    - apply Forall_app. split; [exact Hjs|]. constructor; [|constructor].
      destruct run_spec as [P V]. apply add_step_sized; auto. lra.
    - unfold job_weight, add_step in *. cbn [Job.steps Job.minutes Job.os]. lia. }
  unfold scan_sized, push_current. rewrite Ej. split.
  - apply Forall_app. split; assumption.
  - rewrite total_weight_app. lia.
Qed.

Lemma fold_scan_sized : forall lines st n,
  scan_sized st n -> (n + Z.of_nat (List.length lines) <= 1000000)%Z ->
  scan_sized (fold_left scan_line lines st) (n + Z.of_nat (List.length lines)).
Proof.
  induction lines as [|l lines IH]; intros st n H Hn.
  - simpl. rewrite Z.add_0_r. exact H.
  - cbn [fold_left List.length] in *. rewrite Nat2Z.inj_succ in *.
    replace (n + Z.succ (Z.of_nat (List.length lines)))%Z
      with (n + 1 + Z.of_nat (List.length lines))%Z by lia.
    apply IH; [|lia]. apply scan_line_sized; [exact H | lia].
Qed.

Lemma fallback_job_sized : job_sized fallback_job.
Proof.
  destruct fallback_minutes_spec as [P V].
  unfold job_sized, fallback_job, job_weight. cbn [Job.steps Job.minutes Job.os].
  change (1 + 3)%Z with 4%Z. split; [lia|]. split; [exact P | lra].
Qed.

(** The jobs of a text of at most 100,000 characters. *)
Lemma parseJobsAndSteps_sized workflowYaml :
  (Z.of_nat (List.length workflowYaml) <= 100000)%Z ->
  Forall job_sized (parseJobsAndSteps workflowYaml)
  /\ (total_weight (parseJobsAndSteps workflowYaml) <= 100001)%Z.
Proof.
  intros Hlen. pose proof (split_lines_length workflowYaml) as Hl.
  destruct (fold_scan_sized (split_lines workflowYaml) scan_init 0) as [Hj Hw].
  - split; [constructor | simpl; lia].
  - lia.
  - unfold parseJobsAndSteps, recognized_jobs, scan.
    destruct (push_current (fold_left scan_line (split_lines workflowYaml) scan_init)) as [|j js].
    + split; [constructor; [apply fallback_job_sized | constructor]|].
      unfold total_weight, job_weight, fallback_job.
      cbn [fold_right Job.steps Job.minutes Job.os]. lia.
    + split; [exact Hj | lia].
Qed.

(** *** The accumulated cost of an OS group *)

Lemma map_set_Forall (P : string * OsEstimate.t -> Prop) m k v :
  Forall P m -> (forall k', P (k', v)) -> Forall P (map_set m k v).
Proof.
  intros Hm Hv. induction m as [|[k' v'] m IH]; cbn [map_set].
  - constructor; [apply Hv | constructor].
  - inversion Hm as [|? ? H1 H2]; subst.
    destruct (String.eqb k' k).
    + constructor; [apply Hv | exact H2].
    + constructor; [exact H1 | apply IH, H2].
Qed.

Lemma map_get_In m k v : map_get m k = Some v -> exists k', In (k', v) m.
Proof.
  induction m as [|[k' v'] m IH]; cbn [map_get]; [discriminate|].
  destruct (String.eqb k' k).
  - intros H. inversion H; subst. exists k'. left. reflexivity.
  - intros H. destruct (IH H) as [k'' Hin]. exists k''. right. exact Hin.
Qed.

Lemma add_pos_zero x : pnormal x -> add pos_zero x = x.
Proof. intros (m & e & -> & _). reflexivity. Qed.

Lemma add_job_sized m job t :
  map_sized t m -> job_sized job ->
  (0 <= t)%Z -> (t + job_weight job <= 1000000)%Z ->
  map_sized (t + job_weight job) (add_job m job).
Proof.
  intros Hm (Hs & Pj & Vj) Ht Hw. unfold job_weight in *.
  assert (Hw1 : (1 <= 1 + Job.steps job)%Z) by lia.
  apply IZR_le in Hw1, Hw, Ht. rewrite ?plus_IZR in *.
  destruct (rate_spec (Job.os job)) as [Pr Vr].
  destruct (mul_ok _ _ Pj Pr) as [Pc Ec]; [unfold small, big; nra|].
  apply Rabs_le_inv in Ec. unfold u in Ec.
  set (c := mul (Job.minutes job) (rate_of (Job.os job))) in *.
  assert (Bc : 157 / 10000 <= B2R c <= 33 / 100 * (1 + IZR (Job.steps job))) by nra.
  unfold add_job. fold c. apply map_set_Forall.
  - unfold map_sized in Hm. rewrite Forall_forall in *. intros kv Hin.
    destruct (Hm kv Hin) as [P V]. split; [exact P|]. rewrite plus_IZR, plus_IZR. lra.
  - intros k0. unfold cost_sized. cbn [snd OsEstimate.costPerRunUsd].
    destruct (map_get m (Job.os job)) as [e|] eqn:E.
    + apply map_get_In in E as [k' Hin]. unfold map_sized in Hm.
      rewrite Forall_forall in Hm. destruct (Hm _ Hin) as [Pe Ve]. cbn [snd] in *.
      destruct (add_ok _ _ Pe Pc) as [Pa Ea]; [unfold big; lra|].
      apply Rabs_le_inv in Ea. unfold u in Ea.
      split; [exact Pa|]. rewrite plus_IZR, plus_IZR. lra.
    + cbn [OsEstimate.costPerRunUsd]. rewrite (add_pos_zero _ Pc).
      split; [exact Pc|]. rewrite plus_IZR, plus_IZR. lra.
Qed.

Lemma fold_add_job_sized : forall js m t,
  map_sized t m -> Forall job_sized js ->
  (0 <= t)%Z -> (t + total_weight js <= 1000000)%Z ->
  map_sized (t + total_weight js) (fold_left add_job js m).
Proof.
  induction js as [|j js IH]; intros m t Hm Hj Ht Hw.
  - simpl. rewrite Z.add_0_r. exact Hm.
  - inversion Hj as [|? ? Hj1 Hj2]; subst.
    cbn [fold_left total_weight fold_right] in *. fold (total_weight js) in *.
    pose proof (total_weight_nonneg _ Hj2).
    assert (1 <= job_weight j)%Z by (destruct Hj1; unfold job_weight; lia).
    replace (t + (job_weight j + total_weight js))%Z
      with (t + job_weight j + total_weight js)%Z by lia.
    apply IH; [|exact Hj2 | lia | lia].
    apply add_job_sized; [exact Hm | exact Hj1 | lia | lia].
Qed.

(** *** The emitted costs *)

Lemma emit_in_cents e t :
  cost_sized t e -> (t <= 100001)%Z ->
  in_cents (OsEstimate.costPerRunUsd (emit e)).
Proof.
  intros [P V] Ht. apply IZR_le in Ht. cbn [emit OsEstimate.costPerRunUsd].
  destruct (roundMoney_spec _ P) as (n & Hn & E & Hr & _); [lra|].
  apply Rabs_le_inv in Hr. unfold u in Hr.
  exists n. split; [|exact E]. split; [lia|].
  assert (L : IZR n < IZR 5000000) by lra. apply lt_IZR in L. lia.
Qed.

Lemma aggregateByOs_in_cents workflowYaml :
  (Z.of_nat (List.length workflowYaml) <= 100000)%Z ->
  Forall (fun e => in_cents (OsEstimate.costPerRunUsd e))
         (aggregateByOs (parseJobsAndSteps workflowYaml)).
Proof.
  intros Hlen. destruct (parseJobsAndSteps_sized _ Hlen) as [Hj Hw].
  unfold aggregateByOs.
  pose proof (fold_add_job_sized (parseJobsAndSteps workflowYaml) [] 0
                (Forall_nil _) Hj ltac:(lia) ltac:(lia)) as Hm.
  unfold map_sized in Hm. rewrite Forall_map. rewrite Forall_forall in *.
  intros kv Hin. apply emit_in_cents with (1 := Hm kv Hin). lia.
Qed.

Lemma cents_value n c :
  cents n c ->
  pnormal c /\ Rabs (B2R c - IZR n / 100) <= u * (IZR n / 100).
Proof.
  intros [Hn ->]. destruct hundred_spec as [Ph Vh].
  destruct (of_Z_spec n) as [Pn Vn]; [lia|].
  destruct Hn as [H1 H2]. apply IZR_le in H1, H2.
  destruct (div_ok _ _ Pn Ph) as [Pd Ed]; rewrite Vn, Vh in *.
  - unfold small, big. lra.
  - split; assumption.
Qed.

End SizeFacts.

(* ================================================================== *)
(** ** The totals of [estimateWorkflowCost] *)
(* ================================================================== *)

Module TotalFacts.
Import Values Invariants.
Import JsString Regex JsNumber Estimator Props Binary64 MoneyFacts SizeFacts.
Local Open Scope list_scope.
Local Open Scope R_scope.

Lemma fold_add_entry_cost : forall l m c j t,
  snd (fst (fst (fold_left add_entry l (m, c, j, t))))
  = fold_left add (costs l) c.
Proof.
  induction l as [|e l IH]; intros m c j t; [reflexivity|].
  cbn [fold_left costs List.map add_entry]. apply IH.
Qed.

Lemma summary_costs input :
  let cs := costs (aggregateByOs (parseJobsAndSteps (workflowYaml input))) in
  let s := summary (estimateWorkflowCost input) in
  Summary.costPerRunUsd s = roundMoney (fsum cs)
  /\ Summary.monthlyCostUsd s = roundMoney (mul (fsum cs) (monthlyRuns input))
  /\ Summary.monthlyRuns s = monthlyRuns input.
Proof.
  intros cs s. subst cs s. unfold estimateWorkflowCost, fsum.
  pose proof (fold_add_entry_cost
                (aggregateByOs (parseJobsAndSteps (workflowYaml input)))
                pos_zero pos_zero 0 0) as E.
  unfold sum_entries.
  destruct (fold_left add_entry _ _) as [[[m c] j] t]. cbn [fst snd] in E.
  cbn [summary Summary.costPerRunUsd Summary.monthlyCostUsd Summary.monthlyRuns].
  rewrite E. auto.
Qed.

(** The sum of one, two or three amounts in cents. *)
Lemma fsum_spec cs :
  Forall in_cents cs -> (1 <= List.length cs <= 3)%nat ->
  exists K,
    (1 <= K <= 15000000)%Z
    /\ pnormal (fsum cs)
    /\ Rabs (B2R (fsum cs) - IZR K / 100) <= 4 * u * (IZR K / 100)
    /\ Rabs (sumR cs - B2R (fsum cs)) <= 3 * u * (IZR K / 100).
Proof.
  intros Hc Hl.
  destruct cs as [|c1 [|c2 [|c3 [|c4 cs]]]]; cbn [List.length] in Hl; try lia.
  - inversion Hc as [|? ? [n1 H1] _]; subst.
    pose proof H1 as [[L1 U1] _].
    pose proof (IZR_le _ _ L1) as RL1. pose proof (IZR_le _ _ U1) as RU1.
    destruct (cents_value _ _ H1) as [P1 E1]. apply Rabs_le_inv in E1.
    exists n1. unfold fsum, sumR. cbn [fold_left fold_right].
    rewrite (add_pos_zero _ P1). unfold u in *.
    split; [lia|]. split; [exact P1|]. split; apply Rabs_le; lra.
  - inversion Hc as [|? ? [n1 H1] Hc']; subst.
    inversion Hc' as [|? ? [n2 H2] _]; subst.
    pose proof H1 as [[L1 U1] _].
    pose proof (IZR_le _ _ L1) as RL1. pose proof (IZR_le _ _ U1) as RU1.
    pose proof H2 as [[L2 U2] _].
    pose proof (IZR_le _ _ L2) as RL2. pose proof (IZR_le _ _ U2) as RU2.
    destruct (cents_value _ _ H1) as [P1 E1]. apply Rabs_le_inv in E1.
    destruct (cents_value _ _ H2) as [P2 E2]. apply Rabs_le_inv in E2.
    exists (n1 + n2)%Z. unfold fsum, sumR. cbn [fold_left fold_right].
    rewrite (add_pos_zero _ P1). unfold u in *.
    destruct (add_ok _ _ P1 P2) as [Pa Ea]; [unfold big; lra|].
    apply Rabs_le_inv in Ea. unfold u in Ea. rewrite plus_IZR.
    split; [lia|]. split; [exact Pa|]. split; apply Rabs_le; lra.
  - inversion Hc as [|? ? [n1 H1] Hc']; subst.
    inversion Hc' as [|? ? [n2 H2] Hc'']; subst.
    inversion Hc'' as [|? ? [n3 H3] _]; subst.
    pose proof H1 as [[L1 U1] _].
    pose proof (IZR_le _ _ L1) as RL1. pose proof (IZR_le _ _ U1) as RU1.
    pose proof H2 as [[L2 U2] _].
    pose proof (IZR_le _ _ L2) as RL2. pose proof (IZR_le _ _ U2) as RU2.
    pose proof H3 as [[L3 U3] _].
    pose proof (IZR_le _ _ L3) as RL3. pose proof (IZR_le _ _ U3) as RU3.
    destruct (cents_value _ _ H1) as [P1 E1]. apply Rabs_le_inv in E1.
    destruct (cents_value _ _ H2) as [P2 E2]. apply Rabs_le_inv in E2.
    destruct (cents_value _ _ H3) as [P3 E3]. apply Rabs_le_inv in E3.
    exists (n1 + n2 + n3)%Z. unfold fsum, sumR. cbn [fold_left fold_right].
    rewrite (add_pos_zero _ P1). unfold u in *.
    destruct (add_ok _ _ P1 P2) as [Pa Ea]; [unfold big; lra|].
    apply Rabs_le_inv in Ea. unfold u in Ea.
    destruct (add_ok _ _ Pa P3) as [Pb Eb]; [unfold big; lra|].
    apply Rabs_le_inv in Eb. unfold u in Eb. rewrite !plus_IZR.
    split; [lia|]. split; [exact Pb|]. split; apply Rabs_le; lra.
Qed.

End TotalFacts.

(* ================================================================== *)
(** ** The cost totals: rounding tolerance and the monthly cost *)
(* ================================================================== *)

Module CostClaims.
Import Values Invariants Examples.
Import JsString Regex JsNumber Estimator Props AggregateFacts.
Import Binary64 MoneyFacts SizeFacts TotalFacts.
Local Open Scope list_scope.
Local Open Scope R_scope.

Lemma labels_length (l : list string) :
  NoDup l -> Forall is_os_label l -> (List.length l <= 3)%nat.
Proof.
  intros Hnd Hl.
  apply (NoDup_incl_length (l' := ["linux"; "windows"; "macos"]%string) Hnd).
  intros x Hx. rewrite Forall_forall in Hl. destruct (Hl x Hx) as [-> | [-> | ->]]; simpl; auto.
Qed.

(** The costs of [byOs] for a text of at most 100,000 characters: one to
    three amounts in cents. *)
Lemma byOs_costs input :
  (Z.of_nat (List.length (workflowYaml input)) <= 100000)%Z ->
  let cs := costs (byOs (estimateWorkflowCost input)) in
  Forall in_cents cs
  /\ (1 <= List.length cs <= 3)%nat
  /\ List.length cs = List.length (byOs (estimateWorkflowCost input)).
Proof.
  intros Hlen cs. subst cs.
  destruct (aggregate_map_shape (workflowYaml input)) as (Hne & [Hnd _] & Hl).
  pose proof (aggregateByOs_in_cents _ Hlen) as Hc.
  rewrite byOs_eq in *. unfold costs. rewrite length_map.
  split; [apply Forall_map; exact Hc|]. split; [|reflexivity].
  unfold aggregateByOs. rewrite length_map.
  set (m := fold_left add_job (parseJobsAndSteps (workflowYaml input)) []) in *.
  split.
  - destruct m; [congruence | simpl; lia].
  - rewrite <- (length_map fst). apply labels_length; assumption.
Qed.

(** [roundMoney] of the sum of the costs gives back their number of cents. *)
Lemma roundMoney_sum s K :
  (1 <= K <= 15000000)%Z -> pnormal s ->
  Rabs (B2R s - IZR K / 100) <= 4 * u * (IZR K / 100) ->
  roundMoney s = div (of_Z K) (of_Z 100)
  /\ pnormal (roundMoney s)
  /\ Rabs (B2R (roundMoney s) - IZR K / 100) <= u * (IZR K / 100).
Proof.
  intros [K1 K2] Ps Es. apply Rabs_le_inv in Es. unfold u in Es.
  pose proof (IZR_le _ _ K1) as RK1. pose proof (IZR_le _ _ K2) as RK2.
  destruct (roundMoney_spec s Ps) as (n & Hn & E & Hr & Pr & Er); [lra|].
  apply Rabs_le_inv in Hr. unfold u in Hr.
  assert (n = K).
  { assert (L1 : IZR n < IZR (K + 1)) by (rewrite plus_IZR; lra).
    assert (L2 : IZR (K - 1) < IZR n) by (rewrite minus_IZR; lra).
    apply lt_IZR in L1, L2. lia. }
  subst n. auto.
Qed.



(** The monthly cost of [n] runs at about [K] cents per run is the
    double next to [K * n / 100]. *)
Lemma monthly_cents x K n :
  (1 <= K <= 15000000)%Z -> (1 <= n <= 1000000)%Z -> pnormal x ->
  Rabs (B2R x - IZR K / 100) <= 4 * u * (IZR K / 100) ->
  roundMoney (mul x (of_Z n)) = div (of_Z (K * n)) (of_Z 100).
Proof.
  intros [K1 K2] [N1 N2] Px Ex. apply Rabs_le_inv in Ex. unfold u in Ex.
  pose proof (IZR_le _ _ K1) as RK1. pose proof (IZR_le _ _ K2) as RK2.
  pose proof (IZR_le _ _ N1) as RN1. pose proof (IZR_le _ _ N2) as RN2.
  destruct (of_Z_spec n) as [Pn Vn]; [lia|].
  assert (HQ : 1 <= IZR K * IZR n <= 15000000000000) by nra.
  assert (HP : - (4 * / 9007199254740992 * (IZR K * IZR n))
               <= 100 * (B2R x * IZR n) - IZR K * IZR n
               <= 4 * / 9007199254740992 * (IZR K * IZR n)) by nra.
  set (Q := IZR K * IZR n) in *. set (P := B2R x * IZR n) in *.
  destruct (mul_ok _ _ Px Pn) as [Pa Ea].
  { rewrite Vn. fold P. unfold small, big. lra. }
  rewrite Vn in Ea. fold P in Ea. apply Rabs_le_inv in Ea. unfold u in Ea.
  destruct (roundMoney_spec _ Pa) as (n1 & Hn1 & E & Hr & _); [lra|].
  apply Rabs_le_inv in Hr. unfold u in Hr.
  rewrite E. f_equal. f_equal.
  assert (EQ : IZR (K * n) = Q) by (unfold Q; apply mult_IZR).
  assert (L1 : IZR n1 < IZR (K * n + 1)) by (rewrite plus_IZR, EQ; lra).
  assert (L2 : IZR (K * n - 1) < IZR n1) by (rewrite minus_IZR, EQ; lra).
  apply lt_IZR in L1, L2. lia.
Qed.

Lemma mul_zero_r x : pnormal x -> mul x pos_zero = pos_zero.
Proof. intros (m & e & -> & _). reflexivity. Qed.

(** C2: for an input within the bounds of the data model (a workflow
    text of at most 100,000 characters and an integral number of monthly
    runs up to 1,000,000), the monthly cost of the summary is
    [roundMoney] of the emitted, rounded cost per run times the monthly
    runs. *)
Theorem C2_monthly_cost (input : EstimateInput) (n : Z) :
  (Z.of_nat (List.length (workflowYaml input)) <= 100000)%Z ->
  (0 <= n <= 1000000)%Z -> monthlyRuns input = of_Z n ->
  let s := summary (estimateWorkflowCost input) in
  Summary.monthlyCostUsd s
  = roundMoney (mul (Summary.costPerRunUsd s) (Summary.monthlyRuns s)).
Proof.
  intros Hlen Hn Hruns s. subst s.
  destruct (byOs_costs input Hlen) as (Hc & Hl & _).
  destruct (summary_costs input) as (Ec & Em & Er).
  rewrite <- byOs_eq in Ec, Em. rewrite Ec, Em, Er, Hruns.
  set (cs := costs (byOs (estimateWorkflowCost input))) in *.
  destruct (fsum_spec cs Hc Hl) as (K & HK & Ps & Es & _).
  destruct (roundMoney_sum _ K HK Ps Es) as (_ & Pr & Err).
  destruct (Z.eq_dec n 0) as [->|Hn0].
  - change (of_Z 0) with pos_zero.
    rewrite (mul_zero_r _ Ps), (mul_zero_r _ Pr). reflexivity.
  - assert (Hn1 : (1 <= n <= 1000000)%Z) by lia.
    rewrite (monthly_cents _ K n HK Hn1 Ps Es).
    rewrite (monthly_cents _ K n HK Hn1 Pr); [reflexivity|].
    apply Rle_trans with (1 := Err).
    destruct HK as [K1 _]. apply IZR_le in K1. unfold u. lra.
Qed.

Lemma C2_monthly_cost_witness :
  let s := summary (estimateWorkflowCost over_budget) in
  Summary.monthlyCostUsd s
  = roundMoney (mul (Summary.costPerRunUsd s) (Summary.monthlyRuns s)).
Proof.
  apply (C2_monthly_cost over_budget 500).
  - vm_compute. discriminate.
  - lia.
  - reflexivity.
Defined.

End CostClaims.

(* ================================================================== *)
(** ** Facts about strings and patterns *)
(* ================================================================== *)

Module TextFacts.
Import JsString Regex RegexFacts TextProps.
Local Open Scope list_scope.

(** *** [trim] *)

Lemma trimStart_split s :
  exists w, s = w ++ trimStart s /\ forallb is_space w = true.
Proof.
  induction s as [|c s (w & E & Hw)].
  - exists []. auto.
  - simpl. destruct (is_space c) eqn:Hc.
    + exists (c :: w). simpl. rewrite Hc, Hw. split; [congruence | reflexivity].
    + exists []. auto.
Qed.

Lemma trimStart_black s : starts_black (trimStart s).
Proof.
  induction s as [|c s IH]; simpl; [exact I|].
  destruct (is_space c) eqn:Hc; [exact IH | exact Hc].
Qed.

Lemma trimStart_fix s : starts_black s -> trimStart s = s.
Proof.
  destruct s as [|c s]; simpl; [reflexivity|]. intros ->. reflexivity.
Qed.

Lemma trim_idempotent s : trim (trim s) = trim s.
Proof.
  unfold trim, trimEnd.
  set (t := trimStart s).
  destruct (trimStart_split (rev t)) as (w & E & Hw).
  set (v := trimStart (rev t)) in *.
  assert (Et : t = rev v ++ rev w).
  { rewrite <- rev_app_distr, <- E, rev_involutive. reflexivity. }
  assert (B : starts_black (rev v)).
  { pose proof (trimStart_black s) as Bt. fold t in Bt. rewrite Et in Bt.
    destruct (rev v); [exact I | exact Bt]. }
  rewrite (trimStart_fix _ B), rev_involutive.
  rewrite (trimStart_fix v); [reflexivity|]. apply trimStart_black.
Qed.

Lemma trimStart_length s : (List.length (trimStart s) <= List.length s)%nat.
Proof.
  destruct (trimStart_split s) as (w & E & _).
  rewrite E at 2. rewrite length_app. lia.
Qed.

Lemma trim_length s : (List.length (trim s) <= List.length s)%nat.
Proof.
  unfold trim, trimEnd. rewrite length_rev.
  apply Nat.le_trans with (1 := trimStart_length _).
  rewrite length_rev. apply trimStart_length.
Qed.

(** A text without whitespace is trimmed already. *)
Lemma trim_black s : forallb (fun c => negb (is_space c)) s = true -> trim s = s.
Proof.
  intros H. unfold trim, trimEnd.
  assert (A : forall t, forallb (fun c => negb (is_space c)) t = true -> trimStart t = t).
  { intros t Ht. apply trimStart_fix. destruct t as [|c t]; [exact I|].
    simpl in Ht. apply andb_prop in Ht as [Hc _].
    simpl. destruct (is_space c); [discriminate | reflexivity]. }
  rewrite (A s H), A, rev_involutive; [reflexivity|].
  rewrite forallb_forall in *. intros c Hc. apply H. apply in_rev. exact Hc.
Qed.

(** *** Literals *)

Lemma str_eqb_refl s : str_eqb s s = true.
Proof. induction s as [|c s IH]; simpl; [|rewrite N.eqb_refl]; auto. Qed.

Lemma str_eqb_true a : forall b, str_eqb a b = true -> a = b.
Proof.
  induction a as [|x a IH]; intros [|y b] H; simpl in H; try discriminate.
  - reflexivity.
  - apply andb_prop in H as [H1 H2]. apply N.eqb_eq in H1. f_equal; auto.
Qed.

Section Patterns.
Variable R : Type.
Implicit Types (k : cont R) (s : jsstring) (cap : option jsstring).

(** A literal prefix. *)
Lemma rmatch_lit l r : forall s cap k,
  rmatch (Lit l r) s cap k =
    if startsWith (List.map chr l) s
    then rmatch r (skipn (List.length l) s) cap k else None.
Proof.
  induction l as [|a l IH]; intros s cap k.
  - reflexivity.
  - cbn [Lit]. rewrite rmatch_seq. unfold Chr at 1.
    destruct s as [|c s]; [reflexivity|].
    rewrite rmatch_cls_cons. cbn [List.map startsWith List.length skipn].
    destruct (chr a =? c)%N; [apply IH | reflexivity].
Qed.

(** A greedy loop of at most [fuel] iterations over a class, then the
    end of the input. *)
Lemma star_cls_eol p k : forall fuel s cap,
  star_loop (rmatch (Cls p)) (fun s2 cap2 => rmatch Eol s2 cap2 k) fuel s cap =
    if forallb p s && (List.length s <=? fuel)%nat then k [] cap else None.
Proof.
  induction fuel as [|fuel IH]; intros s cap.
  - destruct s as [|c s]; simpl; [reflexivity|].
    rewrite andb_false_r. reflexivity.
  - rewrite star_loop_S. destruct s as [|c s]; [reflexivity|].
    rewrite rmatch_cls_cons, length_lt_cons. cbn [forallb List.length].
    destruct (p c); cbn [andb]; [|reflexivity].
    rewrite IH. change (S (List.length s) <=? S fuel)%nat
      with (List.length s <=? fuel)%nat.
    destruct (forallb p s && (List.length s <=? fuel)%nat); [|reflexivity].
    destruct (k [] cap); reflexivity.
Qed.

(** [[class]+$] *)
Lemma rmatch_plus_eol p s cap k :
  rmatch (Seq (Plus (Cls p)) Eol) s cap k =
    match s with
    | [] => None
    | _ :: _ => if forallb p s then k [] cap else None
    end.
Proof.
  unfold Plus. rewrite !rmatch_seq. destruct s as [|c s]; [reflexivity|].
  rewrite rmatch_cls_cons. cbn [forallb].
  destruct (p c); [|reflexivity]. cbn [andb].
  change (rmatch (Star (Cls p)) s cap (fun s2 cap2 => rmatch Eol s2 cap2 k))
    with (star_loop (rmatch (Cls p)) (fun s2 cap2 => rmatch Eol s2 cap2 k)
            (List.length s) s cap).
  rewrite star_cls_eol, Nat.leb_refl, andb_true_r. reflexivity.
Qed.

End Patterns.

End TextFacts.

(* ================================================================== *)
(** ** More about the scanner *)
(* ================================================================== *)

Module ScanMore.
Import Examples Reading TextProps.
Import JsString Regex JsNumber Estimator Props RegexFacts NumFacts ScanFacts TextFacts.
Local Open Scope list_scope.
Local Open Scope Z_scope.

(** *** [trim] *)

Lemma trimStart_In c s :
  In c s -> is_space c = false -> In c (trimStart s).
Proof.
  induction s as [|d s IH]; intros Hin Hc; [contradiction|].
  simpl. destruct (is_space d) eqn:Hd.
  - destruct Hin as [->|Hin]; [congruence | auto].
  - exact Hin.
Qed.

Lemma trim_In c s : In c s -> is_space c = false -> In c (trim s).
Proof.
  intros Hin Hc. unfold trim, trimEnd.
  apply in_rev. rewrite rev_involutive.
  apply trimStart_In; [|exact Hc].
  apply -> in_rev. apply trimStart_In; assumption.
Qed.

Lemma trim_nonblank c s : In c s -> is_space c = false -> trim s <> [].
Proof.
  intros Hin Hc E. apply (trim_In _ _ Hin) in Hc. rewrite E in Hc. exact Hc.
Qed.

(** A job header holds an identifier character: it is not blank. *)
Lemma header_nonblank line : isJobHeader line = true -> trim line <> [].
Proof.
  intros H. apply test_true in H. unfold re_job_header, Plus in H.
  rewrite rmatch_seq in H. apply rmatch_cls_ok in H as (a & s1 & -> & _ & H).
  rewrite rmatch_seq in H. apply rmatch_cls_ok in H as (b & s2 & -> & _ & H).
  rewrite !rmatch_seq in H. apply rmatch_cls_ok in H as (c & s3 & -> & Hc & _).
  apply (trim_nonblank c).
  - simpl. auto.
  - destruct (is_space c) eqn:E; [|reflexivity].
    apply space_not_ident in E. congruence.
Qed.

(** *** The lines before the [jobs:] line *)

Lemma scan_line_before st rawLine :
  inJobs st = false ->
  scan_line st rawLine =
    if is_jobs_marker rawLine
    then {| jobs := jobs st; inJobs := true; currentJob := currentJob st |}
    else st.
Proof.
  intros H. unfold scan_line, is_jobs_marker, strip. rewrite H. simpl.
  destruct (test re_jobs _); reflexivity.
Qed.

Lemma fold_before : forall lines st,
  inJobs st = false ->
  fold_left scan_line lines st =
    if existsb is_jobs_marker lines
    then fold_left scan_line (after_marker lines)
           {| jobs := jobs st; inJobs := true; currentJob := currentJob st |}
    else st.
Proof.
  induction lines as [|l ls IH]; intros st H; [reflexivity|].
  simpl. rewrite scan_line_before by exact H.
  destruct (is_jobs_marker l); simpl.
  - reflexivity.
  - apply IH, H.
Qed.

Lemma scan_after_marker workflowYaml :
  scan workflowYaml =
    if existsb is_jobs_marker (split_lines workflowYaml)
    then fold_left scan_line (after_marker (split_lines workflowYaml)) jobs_marker_seen
    else scan_init.
Proof. unfold scan. rewrite fold_before; reflexivity. Qed.

(** *** The lines after it *)

Lemma scan_line_header st rawLine :
  inJobs st = true -> isJobHeader (strip rawLine) = true ->
  scan_line st rawLine =
    {| jobs := push_current st; inJobs := true; currentJob := Some new_job |}.
Proof.
  intros H Hh. unfold scan_line. fold (strip rawLine). rewrite H. simpl.
  destruct (trim (strip rawLine)) eqn:E.
  - exfalso. exact (header_nonblank _ Hh E).
  - rewrite Hh. reflexivity.
Qed.

Lemma scan_line_other st rawLine :
  inJobs st = true -> isJobHeader (strip rawLine) = false ->
  inJobs (scan_line st rawLine) = true
  /\ jobs (scan_line st rawLine) = jobs st
  /\ (currentJob st = None -> currentJob (scan_line st rawLine) = None)
  /\ (currentJob st <> None -> currentJob (scan_line st rawLine) <> None).
Proof.
  intros H Hh. unfold scan_line. fold (strip rawLine). rewrite H, Hh. simpl.
  destruct (trim (strip rawLine)); [tauto|].
  destruct (currentJob st) as [cur|] eqn:Ej; [|rewrite Ej; tauto].
  destruct (exec re_runs_on (strip rawLine)); simpl;
    [ repeat split; auto; discriminate |].
  destruct (test re_uses (strip rawLine)); simpl;
    [ repeat split; auto; discriminate |].
  destruct (test re_run (strip rawLine)); simpl;
    [ repeat split; auto; discriminate |].
  rewrite Ej. repeat split; auto; discriminate.
Qed.

Lemma push_current_length st :
  List.length (push_current st) =
    (List.length (jobs st) + match currentJob st with Some _ => 1 | None => 0 end)%nat.
Proof.
  unfold push_current. destruct (currentJob st).
  - rewrite length_app. reflexivity.
  - lia.
Qed.

Lemma fold_count : forall lines st,
  inJobs st = true ->
  List.length (push_current (fold_left scan_line lines st)) =
    (List.length (push_current st) + List.length (header_lines lines))%nat.
Proof.
  induction lines as [|l ls IH]; intros st H.
  - simpl. lia.
  - simpl. destruct (isJobHeader (strip l)) eqn:Hh.
    + rewrite (scan_line_header _ _ H Hh).
      rewrite IH by reflexivity.
      rewrite (push_current_length {| jobs := _ |}). simpl. lia.
    + destruct (scan_line_other st l H Hh) as (Hi & Hj & Hn & Hs).
      rewrite IH by exact Hi.
      rewrite !push_current_length, Hj.
      destruct (currentJob st) eqn:Ec.
      * destruct (currentJob (scan_line st l)); [lia|].
        exfalso. apply Hs; [discriminate | reflexivity].
      * rewrite Hn by reflexivity. lia.
Qed.

Lemma after_marker_none : forall ls,
  existsb is_jobs_marker ls = false -> after_marker ls = [].
Proof.
  induction ls as [|l ls IH]; [reflexivity|]. simpl.
  destruct (is_jobs_marker l); [discriminate | exact IH].
Qed.

Lemma recognized_after_marker y :
  recognized_jobs y =
    push_current (fold_left scan_line (after_marker (split_lines y)) jobs_marker_seen).
Proof.
  unfold recognized_jobs. rewrite scan_after_marker.
  destruct (existsb is_jobs_marker (split_lines y)) eqn:Em; [reflexivity|].
  rewrite (after_marker_none _ Em). reflexivity.
Qed.

(** X1: the job list has one job per job-header line that follows the
    first [jobs:] line, whatever else the text holds; with no such
    line it is the single fallback job. *)
Theorem job_per_header_line (workflowYaml : jsstring) :
  List.length (parseJobsAndSteps workflowYaml) =
    Nat.max 1 (List.length (header_lines (after_marker (split_lines workflowYaml))))
  /\ (header_lines (after_marker (split_lines workflowYaml)) = [] ->
      parseJobsAndSteps workflowYaml = [fallback_job]).
Proof.
  assert (E : List.length (recognized_jobs workflowYaml) =
              List.length (header_lines (after_marker (split_lines workflowYaml)))).
  { rewrite recognized_after_marker, fold_count by reflexivity. reflexivity. }
  unfold parseJobsAndSteps. rewrite <- E. split.
  - destruct (recognized_jobs workflowYaml); simpl; lia.
  - intros Hn. rewrite Hn in E.
    destruct (recognized_jobs workflowYaml); [reflexivity | discriminate E].
Qed.

Lemma job_per_header_line_witness :
  parseJobsAndSteps (unlines ["jobs:"; "build:"; "      - run: make"]%string)
  = [fallback_job].
Proof.
  apply job_per_header_line. vm_compute. reflexivity.
Defined.

(** X2: the job list depends only on the lines that follow the first
    [jobs:] line: two texts that agree from there on give the same
    jobs. *)
Theorem lines_before_marker_ignored (y1 y2 : jsstring) :
  after_marker (split_lines y1) = after_marker (split_lines y2) ->
  parseJobsAndSteps y1 = parseJobsAndSteps y2.
Proof.
  intros E. unfold parseJobsAndSteps.
  rewrite (recognized_after_marker y1), (recognized_after_marker y2), E. reflexivity.
Qed.

Lemma lines_before_marker_ignored_witness :
  parseJobsAndSteps (unlines ["name: CI"; "jobs:"; "  build:"; "      - run: make"]%string)
  = parseJobsAndSteps (unlines ["  early:"; "jobs:"; "  build:"; "      - run: make"]%string).
Proof.
  apply lines_before_marker_ignored. vm_compute. reflexivity.
Defined.

(** X3: a text without a [jobs:] line yields the fallback job, even
    when it holds lines that look like job headers and steps. *)
Theorem no_marker_fallback (workflowYaml : jsstring) :
  existsb is_jobs_marker (split_lines workflowYaml) = false ->
  parseJobsAndSteps workflowYaml = [fallback_job].
Proof.
  intros Em. unfold parseJobsAndSteps, recognized_jobs.
  rewrite scan_after_marker, Em. reflexivity.
Qed.

Lemma no_marker_fallback_witness :
  parseJobsAndSteps (unlines ["  build:"; "    runs-on: windows-latest"; "      - run: make"]%string)
  = [fallback_job].
Proof.
  apply no_marker_fallback. vm_compute. reflexivity.
Defined.

(** *** Comments *)

Lemma comment_match s :
  rmatch re_comment s None (fun rest _ => Some rest) =
    if comment_at s then Some [] else None.
Proof.
  unfold re_comment, Chr. rewrite rmatch_seq.
  destruct s as [|c s]; [reflexivity|].
  rewrite rmatch_cls_cons. unfold comment_at.
  destruct (chr "#" =? c)%N; [|reflexivity]. simpl andb.
  rewrite rmatch_seq. cbn [rmatch].
  rewrite (star_cls_eol _ is_dot (fun rest _ => Some rest)).
  rewrite Nat.leb_refl, andb_true_r. reflexivity.
Qed.

Lemma strip_eq s :
  strip s = if comment_at s then []
            else match s with [] => [] | c :: s' => c :: strip s' end.
Proof.
  unfold strip. destruct s as [|c s].
  - reflexivity.
  - cbn [remove_first]. rewrite comment_match.
    destruct (comment_at (c :: s)); reflexivity.
Qed.

Lemma strip_comment text : forall line,
  forallb is_dot text = true ->
  strip (line ++ chr "#" :: text) = strip line.
Proof.
  intros line Ht. induction line as [|c l IH].
  - rewrite (strip_eq []), strip_eq. simpl. rewrite Ht. reflexivity.
  - rewrite (strip_eq (c :: l)). change ((c :: l) ++ chr "#" :: text)
      with (c :: (l ++ chr "#" :: text)). rewrite strip_eq.
    assert (E : comment_at (c :: (l ++ chr "#" :: text)) = comment_at (c :: l)).
    { unfold comment_at. rewrite forallb_app. simpl forallb. rewrite Ht.
      change (is_dot (chr "#")) with true. rewrite !andb_true_r. reflexivity. }
    rewrite E, IH. reflexivity.
Qed.

(** X4: a comment is no part of a line: the scanner treats a line
    followed by "#" and any text without line terminators (a lone CR,
    U+2028, U+2029) as it treats the line alone. *)
Theorem comment_ignored (st : ScanState) (line text : jsstring) :
  forallb is_dot text = true ->
  scan_line st (line ++ chr "#" :: text) = scan_line st line.
Proof.
  intros Ht. unfold scan_line. fold (strip (line ++ chr "#" :: text)).
  fold (strip line). rewrite (strip_comment text line Ht). reflexivity.
Qed.

Lemma comment_ignored_witness :
  scan_line jobs_marker_seen (lit "  build:   # compile: all")
  = scan_line jobs_marker_seen (lit "  build:   ").
Proof.
  apply (comment_ignored jobs_marker_seen (lit "  build:   ") (lit " compile: all")).
  reflexivity.
Defined.

(** *** Line breaks *)

Lemma split_from_plain l : forall acc rest,
  plain l -> split_from acc (l ++ rest) = split_from (rev l ++ acc) rest.
Proof.
  unfold plain. induction l as [|c l IH]; intros acc rest H; [reflexivity|].
  cbn [forallb] in H. apply andb_prop in H as [Hc Hl].
  apply andb_prop in Hc as [H10 H13].
  cbn [app split_from].
  destruct (c =? 10)%N; [discriminate|]. destruct (c =? 13)%N; [discriminate|].
  rewrite IH by exact Hl. cbn [rev]. rewrite <- app_assoc. reflexivity.
Qed.

Lemma split_join_lines eol ls :
  eol = [LF] \/ eol = CRLF ->
  ls <> [] -> Forall plain ls -> split_lines (join_lines eol ls) = ls.
Proof.
  intros He Hne H. unfold split_lines.
  induction H as [|l ls Hl Hls IH]; [congruence|].
  destruct ls as [|l' ls].
  - cbn [join_lines]. rewrite <- (app_nil_r l) at 1.
    rewrite split_from_plain by exact Hl. cbn [split_from].
    rewrite app_nil_r, rev_involutive. reflexivity.
  - change (join_lines eol (l :: l' :: ls)) with (l ++ eol ++ join_lines eol (l' :: ls)).
    rewrite split_from_plain by exact Hl. rewrite app_nil_r.
    destruct He as [-> | ->]; cbn [app split_from CRLF LF N.eqb Pos.eqb];
      rewrite rev_involutive; f_equal; apply IH; discriminate.
Qed.

(** X5: Windows line breaks make no difference: lines joined by CR LF
    give the same jobs as the same lines joined by LF. *)
Theorem crlf_as_lf (ls : list jsstring) :
  Forall plain ls ->
  parseJobsAndSteps (join_lines CRLF ls) = parseJobsAndSteps (join_lines [LF] ls).
Proof.
  intros H. destruct ls as [|l ls]; [reflexivity|].
  unfold parseJobsAndSteps, recognized_jobs, scan.
  rewrite !split_join_lines; auto; discriminate.
Qed.

Lemma crlf_as_lf_witness :
  parseJobsAndSteps
    (join_lines CRLF [lit "jobs:"; lit "  build:"; lit "      - run: make"])
  = parseJobsAndSteps
      (join_lines [LF] [lit "jobs:"; lit "  build:"; lit "      - run: make"]).
Proof.
  apply crlf_as_lf. repeat constructor.
Defined.

(** *** The [runs-on:] line *)

Lemma star_cls_greedy R p (k : cont R) x : forall w rest fuel cap,
  forallb p w = true ->
  match rest with c :: _ => p c = false | [] => True end ->
  (List.length (w ++ rest) <= fuel)%nat ->
  k rest cap = Some x ->
  star_loop (rmatch (Cls p)) k fuel (w ++ rest) cap = Some x.
Proof.
  induction w as [|c w IH]; intros rest fuel cap Hw Hr Hlen Hk.
  - cbn [app]. destruct fuel as [|fuel]; [exact Hk|].
    rewrite star_loop_S. destruct rest as [|c rest]; [exact Hk|].
    rewrite rmatch_cls_cons, Hr. exact Hk.
  - simpl in Hw. apply andb_prop in Hw as [Hc Hw].
    destruct fuel as [|fuel]; [simpl in Hlen; lia|].
    change ((c :: w) ++ rest) with (c :: (w ++ rest)).
    rewrite star_loop_S, rmatch_cls_cons, Hc, length_lt_cons.
    rewrite (IH rest fuel cap Hw Hr); [reflexivity | simpl in Hlen; lia | exact Hk].
Qed.

Lemma star_cls_greedy_end R p (k : cont R) x w fuel cap :
  forallb p w = true -> (List.length w <= fuel)%nat ->
  k [] cap = Some x ->
  star_loop (rmatch (Cls p)) k fuel w cap = Some x.
Proof.
  intros Hw Hlen Hk. rewrite <- (app_nil_r w).
  apply star_cls_greedy; auto. rewrite app_nil_r. exact Hlen.
Qed.

Lemma rmatch_star R p (k : cont R) s cap :
  rmatch (Star (Cls p)) s cap k = star_loop (rmatch (Cls p)) k (List.length s) s cap.
Proof. reflexivity. Qed.

Lemma consumed_all (s : jsstring) : consumed s [] = s.
Proof. unfold consumed. simpl. rewrite Nat.sub_0_r. apply firstn_all. Qed.

(** The value of a [runs-on:] line is captured from its first
    character that is no whitespace up to the end of the line. *)
Lemma exec_runs_on w v :
  forallb is_space w = true ->
  v <> [] -> starts_black v ->
  forallb is_dot v = true ->
  exec re_runs_on (lit "    runs-on:" ++ w ++ v) = Some (Some v).
Proof.
  intros Hw Hne Hv Hd. destruct v as [|c v']; [congruence|]. cbn [starts_black] in Hv.
  unfold exec, re_runs_on, Str, ws.
  change (lit "    runs-on:" ++ w ++ c :: v')
    with (lit "    " ++ lit "runs-on" ++ chr ":" :: w ++ c :: v').
  cbn [lit list_ascii_of_string List.map app].
  repeat (rewrite rmatch_seq; rewrite rmatch_cls_cons;
          change (is_space (N_of_ascii " ")) with true; cbv iota).
  rewrite rmatch_lit. cbn [list_ascii_of_string List.map startsWith List.length skipn].
  change (chr "r") with (N_of_ascii "r"). change (chr "u") with (N_of_ascii "u").
  change (chr "n") with (N_of_ascii "n"). change (chr "s") with (N_of_ascii "s").
  change (chr "-") with (N_of_ascii "-"). change (chr "o") with (N_of_ascii "o").
  rewrite !N.eqb_refl. cbn [andb].
  rewrite rmatch_seq, rmatch_star.
  erewrite (star_cls_greedy _ is_space _ _ [] (chr ":" :: w ++ c :: v'));
    [reflexivity | reflexivity | reflexivity | simpl; lia |].
  rewrite rmatch_seq. unfold Chr at 1. rewrite rmatch_cls_cons, N.eqb_refl.
  rewrite rmatch_seq, rmatch_star.
  erewrite (star_cls_greedy _ is_space _ _ w (c :: v'));
    [reflexivity | exact Hw | exact Hv | lia |].
  rewrite rmatch_seq. cbn [rmatch]. unfold Plus. rewrite rmatch_seq.
  simpl in Hd. apply andb_prop in Hd as [Hc Hd].
  rewrite rmatch_cls_cons, Hc, rmatch_star.
  erewrite (star_cls_greedy_end _ is_dot _ _ v');
    [reflexivity | exact Hd | lia |].
  rewrite consumed_all. reflexivity.
Qed.

Lemma strip_no_hash s :
  forallb (fun c => negb (chr "#" =? c)%N) s = true -> strip s = s.
Proof.
  induction s as [|c s IH]; intros H; rewrite strip_eq; [reflexivity|].
  cbn [forallb] in H. apply andb_prop in H as [Hc Hs]. unfold comment_at.
  destruct (chr "#" =? c)%N eqn:E; [discriminate Hc|]. cbn [andb].
  rewrite (IH Hs). reflexivity.
Qed.

(** X6: inside a job, a line "    runs-on:" followed by whitespace and
    a value sets the OS of the job to [parseRunsOn] of the value, and
    changes nothing else. The value starts at the first character that
    is no whitespace and runs to the end of the line; the line holds
    no "#" and no line terminator. *)
Theorem runs_on_line_sets_os (st : ScanState) (j : Job.t) (w v : jsstring) :
  inJobs st = true -> currentJob st = Some j ->
  forallb is_space w = true ->
  v <> [] -> starts_black v -> forallb is_dot v = true ->
  forallb (fun c => negb (chr "#" =? c)%N) (w ++ v) = true ->
  scan_line st (lit "    runs-on:" ++ w ++ v) =
    {| jobs := jobs st; inJobs := true;
       currentJob := Some {| Job.os := parseRunsOn v;
                             Job.steps := Job.steps j;
                             Job.minutes := Job.minutes j |} |}.
Proof.
  intros Hin Hcur Hw Hne Hv Hd Hh.
  set (line := lit "    runs-on:" ++ w ++ v).
  assert (Es : strip line = line).
  { apply strip_no_hash. unfold line. rewrite forallb_app.
    apply andb_true_intro. split; [reflexivity | exact Hh]. }
  unfold scan_line. fold (strip line). rewrite Es, Hin, Hcur. cbn [negb andb orb].
  destruct (trim line) eqn:Et.
  { exfalso. apply (trim_nonblank (chr "r") line); [|reflexivity | exact Et].
    unfold line. simpl. tauto. }
  replace (isJobHeader line) with false
    by (symmetry; apply (third_space_not_header (chr " ") (chr " ") (chr " ")); reflexivity).
  unfold line. rewrite (exec_runs_on w v Hw Hne Hv Hd). reflexivity.
Qed.

Lemma runs_on_line_sets_os_witness :
  scan_line {| jobs := []; inJobs := true; currentJob := Some new_job |}
            (lit "    runs-on:" ++ lit " " ++ lit "Windows-2022")
  = {| jobs := []; inJobs := true;
       currentJob := Some {| Job.os := parseRunsOn (lit "Windows-2022");
                             Job.steps := Job.steps new_job;
                             Job.minutes := Job.minutes new_job |} |}.
Proof.
  apply (runs_on_line_sets_os {| jobs := []; inJobs := true; currentJob := Some new_job |}
           new_job (lit " ") (lit "Windows-2022"));
    try reflexivity. discriminate.
Defined.

(** *** Step lines *)

(** A step line has a whitespace character where a [runs-on:] line has
    its "r", and a "-" that keeps it from being blank. *)
Lemma step_line_shape line :
  test re_uses line = true \/ test re_run line = true ->
  exists a b c d e f l,
    line = a :: b :: c :: d :: e :: f :: chr "-" :: l /\ is_space e = true.
Proof.
  assert (G : forall r, rmatch (ws ;; ws ;; ws ;; ws ;; ws ;; ws ;; Chr "-" ;; r)
                          line None (fun _ _ => Some tt) <> None ->
              exists a b c d e f l,
                line = a :: b :: c :: d :: e :: f :: chr "-" :: l /\ is_space e = true).
  { intros r H.
    rewrite rmatch_seq in H. apply rmatch_cls_ok in H as (a & l1 & -> & _ & H).
    rewrite rmatch_seq in H. apply rmatch_cls_ok in H as (b & l2 & -> & _ & H).
    rewrite rmatch_seq in H. apply rmatch_cls_ok in H as (c & l3 & -> & _ & H).
    rewrite rmatch_seq in H. apply rmatch_cls_ok in H as (d & l4 & -> & _ & H).
    rewrite rmatch_seq in H. apply rmatch_cls_ok in H as (e & l5 & -> & He & H).
    rewrite rmatch_seq in H. apply rmatch_cls_ok in H as (f & l6 & -> & _ & H).
    rewrite rmatch_seq in H. apply rmatch_cls_ok in H as (g & l7 & -> & Hg & _).
    apply N.eqb_eq in Hg. subst g. exists a, b, c, d, e, f, l7. auto. }
  intros [H|H]; apply test_true in H; exact (G _ H).
Qed.

Lemma step_line_not_runs_on line :
  test re_uses line = true \/ test re_run line = true ->
  exec re_runs_on line = None.
Proof.
  intros H. apply step_line_shape in H as (a & b & c & d & e & f & l & -> & He).
  unfold exec, re_runs_on, Str, ws.
  repeat (rewrite rmatch_seq; rewrite rmatch_cls_cons;
          match goal with |- context [if ?x then _ else _] => destruct x end;
          [|reflexivity]).
  cbn [list_ascii_of_string Lit]. rewrite rmatch_seq. unfold Chr at 1.
  rewrite rmatch_cls_cons.
  destruct (N.eqb_spec (chr "r") e) as [<-|_]; [discriminate He | reflexivity].
Qed.

Lemma step_line_nonblank line :
  test re_uses line = true \/ test re_run line = true -> trim line <> [].
Proof.
  intros H. apply step_line_shape in H as (a & b & c & d & e & f & l & -> & _).
  apply (trim_nonblank (chr "-")); [simpl; tauto | reflexivity].
Qed.

Lemma step_line_not_header rawLine :
  is_step_line rawLine = true -> isJobHeader (strip rawLine) = false.
Proof.
  intros H. apply field_line_not_header. unfold is_field_line.
  unfold is_step_line in H. apply orb_prop in H as [H|H]; rewrite H;
    rewrite ?orb_true_r; reflexivity.
Qed.

Lemma total_steps_snoc js j : total_steps (js ++ [j]) = total_steps js + Job.steps j.
Proof.
  unfold total_steps. induction js as [|x js IH]; simpl; [lia|]. rewrite IH. lia.
Qed.

Lemma push_current_steps st :
  total_steps (push_current st)
  = total_steps (jobs st)
    + match currentJob st with Some j => Job.steps j | None => 0 end.
Proof.
  unfold push_current. destruct (currentJob st).
  - apply total_steps_snoc.
  - lia.
Qed.

(** Inside a job, a step line adds one step and any other line none. *)
Lemma scan_line_steps st j rawLine :
  inJobs st = true -> currentJob st = Some j ->
  inJobs (scan_line st rawLine) = true
  /\ currentJob (scan_line st rawLine) <> None
  /\ total_steps (push_current (scan_line st rawLine))
     = total_steps (push_current st) + (if is_step_line rawLine then 1 else 0).
Proof.
  intros Hin Hcur.
  destruct (isJobHeader (strip rawLine)) eqn:Hh.
  - rewrite (scan_line_header _ _ Hin Hh).
    replace (is_step_line rawLine) with false.
    2:{ destruct (is_step_line rawLine) eqn:E; [|reflexivity].
        apply step_line_not_header in E. congruence. }
    split; [reflexivity|]. split; [discriminate|].
    rewrite (push_current_steps {| jobs := _ |}).
    cbn [jobs currentJob new_job Job.steps]. lia.
  - unfold scan_line. fold (strip rawLine). rewrite Hin, Hh, Hcur. cbn [negb andb orb].
    unfold is_step_line.
    destruct (test re_uses (strip rawLine)) eqn:Eu.
    + assert (S : test re_uses (strip rawLine) = true \/ test re_run (strip rawLine) = true)
        by (left; exact Eu).
      pose proof (step_line_nonblank _ S) as Nb.
      rewrite (step_line_not_runs_on _ S).
      destruct (trim (strip rawLine)); [congruence|].
      split; [first [exact Hin | reflexivity]|]. split; [discriminate|].
      rewrite !push_current_steps, Hcur.
      cbn [jobs currentJob add_step Job.steps orb]. lia.
    + destruct (test re_run (strip rawLine)) eqn:Er.
      * assert (S : test re_uses (strip rawLine) = true \/ test re_run (strip rawLine) = true)
          by (right; exact Er).
        pose proof (step_line_nonblank _ S) as Nb.
        rewrite (step_line_not_runs_on _ S).
        destruct (trim (strip rawLine)); [congruence|].
        split; [first [exact Hin | reflexivity]|]. split; [discriminate|].
        rewrite !push_current_steps, Hcur.
      cbn [jobs currentJob add_step Job.steps orb]. lia.
      * cbn [orb]. destruct (trim (strip rawLine)).
        { split; [first [exact Hin | reflexivity]|]. split; [congruence|]. lia. }
        destruct (exec re_runs_on (strip rawLine)).
        -- split; [first [exact Hin | reflexivity]|]. split; [discriminate|].
           rewrite !push_current_steps, Hcur.
      cbn [jobs currentJob add_step Job.steps orb]. lia.
        -- split; [first [exact Hin | reflexivity]|]. split; [congruence|]. lia.
Qed.

Lemma fold_steps : forall lines st j,
  inJobs st = true -> currentJob st = Some j ->
  total_steps (push_current (fold_left scan_line lines st))
  = total_steps (push_current st)
    + Z.of_nat (List.length (filter is_step_line lines)).
Proof.
  induction lines as [|l ls IH]; intros st j Hin Hcur.
  - simpl. lia.
  - cbn [fold_left filter].
    destruct (scan_line_steps st j l Hin Hcur) as (Hi & Hc & Hs).
    destruct (currentJob (scan_line st l)) as [j'|] eqn:Ej; [|congruence].
    rewrite (IH _ j' Hi Ej), Hs.
    destruct (is_step_line l); cbn [List.length]; lia.
Qed.

Lemma fold_until_header : forall lines st,
  inJobs st = true -> currentJob st = None -> jobs st = [] ->
  push_current (fold_left scan_line lines st)
  = if existsb (fun l => isJobHeader (strip l)) lines
    then push_current
           (fold_left scan_line (after_first_header lines)
              {| jobs := []; inJobs := true; currentJob := Some new_job |})
    else [].
Proof.
  induction lines as [|l ls IH]; intros st Hin Hcur Hj.
  - simpl. unfold push_current. rewrite Hcur. exact Hj.
  - cbn [fold_left existsb after_first_header].
    destruct (isJobHeader (strip l)) eqn:Hh; cbn [orb].
    + rewrite (scan_line_header _ _ Hin Hh). unfold push_current at 2.
      rewrite Hcur, Hj. reflexivity.
    + rewrite (ScannerClaims.scan_line_no_job st l Hin Hcur Hh). apply IH; assumption.
Qed.

Lemma recognized_steps y :
  let lines := after_marker (split_lines y) in
  header_lines lines <> [] ->
  recognized_jobs y <> []
  /\ total_steps (recognized_jobs y)
     = Z.of_nat (List.length (filter is_step_line (after_first_header lines))).
Proof.
  intros lines Hh. split.
  - intros E. apply (f_equal (@List.length Job.t)) in E.
    rewrite recognized_after_marker, fold_count in E by reflexivity.
    fold lines in E. destruct (header_lines lines); [congruence | simpl in E; lia].
  - rewrite recognized_after_marker. fold lines.
    rewrite fold_until_header by reflexivity.
    replace (existsb (fun l => isJobHeader (strip l)) lines) with true.
    + rewrite (fold_steps _ _ new_job) by reflexivity. reflexivity.
    + symmetry. unfold header_lines in Hh.
      destruct (existsb (fun l => isJobHeader (strip l)) lines) eqn:E; [reflexivity|].
      exfalso. apply Hh. clear Hh. induction lines as [|l ls IH]; [reflexivity|].
      simpl in E. apply orb_false_elim in E as [E1 E2].
      simpl. rewrite E1. apply IH. exact E2.
Qed.

End ScanMore.

(* ================================================================== *)
(** ** More about the aggregation *)
(* ================================================================== *)

Module AggregateMore.
Import Invariants Examples Reading.
Import JsString Regex JsNumber Estimator Props AggregateFacts ScanMore.
Local Open Scope list_scope.
Local Open Scope Z_scope.

(** *** Counts *)

Lemma add_job_counts job : forall m,
  jobs_of (List.map snd (add_job m job)) = jobs_of (List.map snd m) + 1
  /\ steps_of (List.map snd (add_job m job))
     = steps_of (List.map snd m) + Job.steps job.
Proof.
  unfold add_job. induction m as [|[k v] m IH].
  - simpl. split; lia.
  - simpl. destruct (String.eqb k (Job.os job)) eqn:E.
    + simpl. split; lia.
    + simpl. destruct IH as [IH1 IH2]. rewrite IH1, IH2. split; lia.
Qed.

Lemma fold_add_job_counts : forall js m,
  jobs_of (List.map snd (fold_left add_job js m))
  = jobs_of (List.map snd m) + Z.of_nat (List.length js)
  /\ steps_of (List.map snd (fold_left add_job js m))
     = steps_of (List.map snd m) + total_steps js.
Proof.
  induction js as [|j js IH]; intros m.
  - simpl. split; lia.
  - cbn [fold_left]. destruct (IH (add_job m j)) as [IH1 IH2].
    destruct (add_job_counts j m) as [A1 A2].
    rewrite IH1, IH2, A1, A2. cbn [total_steps fold_right List.length].
    fold (total_steps js). split; lia.
Qed.

Lemma emit_counts (m : OsMap) :
  jobs_of (List.map (fun kv => emit (snd kv)) m) = jobs_of (List.map snd m)
  /\ steps_of (List.map (fun kv => emit (snd kv)) m) = steps_of (List.map snd m).
Proof.
  induction m as [|kv m [IH1 IH2]]; [split; reflexivity|].
  simpl. rewrite IH1, IH2. split; reflexivity.
Qed.

Lemma aggregateByOs_counts js :
  jobs_of (aggregateByOs js) = Z.of_nat (List.length js)
  /\ steps_of (aggregateByOs js) = total_steps js.
Proof.
  unfold aggregateByOs.
  destruct (emit_counts (fold_left add_job js [])) as [E1 E2].
  destruct (fold_add_job_counts js []) as [F1 F2].
  rewrite E1, E2, F1, F2. simpl. split; lia.
Qed.

Lemma fold_add_entry_counts : forall l m c j t,
  snd (fst (fold_left add_entry l (m, c, j, t))) = j + jobs_of l
  /\ snd (fold_left add_entry l (m, c, j, t)) = t + steps_of l.
Proof.
  induction l as [|e l IH]; intros m c j t.
  - simpl. split; lia.
  - cbn [fold_left add_entry].
    destruct (IH (add m (OsEstimate.minutesPerRun e))
                 (add c (OsEstimate.costPerRunUsd e))
                 (j + OsEstimate.jobs e) (t + OsEstimate.stepCount e)) as [IH1 IH2].
    rewrite IH1, IH2. simpl. split; lia.
Qed.

Lemma summary_counts input :
  let r := estimateWorkflowCost input in
  Summary.jobs (summary r) = jobs_of (byOs r)
  /\ Summary.stepCount (summary r) = steps_of (byOs r).
Proof.
  unfold estimateWorkflowCost.
  set (l := aggregateByOs (parseJobsAndSteps (workflowYaml input))).
  unfold sum_entries.
  destruct (fold_add_entry_counts l pos_zero pos_zero 0 0) as [E1 E2].
  destruct (fold_left add_entry l (pos_zero, pos_zero, 0, 0)) as [[[m c] j] t].
  simpl in *. split; lia.
Qed.

(** X7: grouping by OS loses no job and no step: the summary counts
    as many jobs as the scanner found and the sum of their steps, and
    the [byOs] entries add up to the same numbers. *)
Theorem counts_conserved (input : EstimateInput) :
  let r := estimateWorkflowCost input in
  let js := parseJobsAndSteps (workflowYaml input) in
  Summary.jobs (summary r) = Z.of_nat (List.length js)
  /\ Summary.stepCount (summary r) = total_steps js
  /\ jobs_of (byOs r) = Summary.jobs (summary r)
  /\ steps_of (byOs r) = Summary.stepCount (summary r).
Proof.
  intros r js. destruct (summary_counts input) as [E1 E2].
  fold r in E1, E2. rewrite E1, E2.
  unfold r. rewrite byOs_eq. fold js.
  destruct (aggregateByOs_counts js) as [A1 A2].
  rewrite A1, A2. repeat split.
Qed.

(** X8: when the jobs section holds a job header, the step count of
    the summary is the number of [- uses:] and [- run:] lines that
    follow the first job header. *)
Theorem step_per_step_line (input : EstimateInput) :
  let lines := after_marker (split_lines (workflowYaml input)) in
  header_lines lines <> [] ->
  Summary.stepCount (summary (estimateWorkflowCost input))
  = Z.of_nat (List.length (filter is_step_line (after_first_header lines))).
Proof.
  intros lines Hh.
  destruct (recognized_steps (workflowYaml input) Hh) as [Hne Hs].
  destruct (summary_counts input) as [_ E]. rewrite E, byOs_eq.
  destruct (aggregateByOs_counts (parseJobsAndSteps (workflowYaml input))) as [_ A].
  rewrite A. unfold parseJobsAndSteps.
  destruct (recognized_jobs (workflowYaml input)); [congruence | exact Hs].
Qed.

Lemma step_per_step_line_witness :
  Summary.stepCount (summary (estimateWorkflowCost over_budget))
  = Z.of_nat (List.length
      (filter is_step_line
         (after_first_header (after_marker (split_lines scenario_B))))).
Proof.
  apply (step_per_step_line over_budget). vm_compute. discriminate.
Defined.

(** *** Order *)

Lemma existsb_In x seen :
  existsb (String.eqb x) seen = true <-> In x seen.
Proof.
  rewrite existsb_exists. split.
  - intros (y & Hin & E). apply String.eqb_eq in E. subst. exact Hin.
  - intros Hin. exists x. split; [exact Hin | apply String.eqb_refl].
Qed.

Lemma fold_add_job_keys : forall js m,
  List.map fst (fold_left add_job js m)
  = List.map fst m ++ first_seen (List.map fst m) (List.map Job.os js).
Proof.
  induction js as [|j js IH]; intros m.
  - simpl. rewrite app_nil_r. reflexivity.
  - cbn [fold_left List.map first_seen]. rewrite IH, add_job_keys.
    destruct (in_dec string_dec (Job.os j) (List.map fst m)) as [Hin|Hin].
    + apply existsb_In in Hin. rewrite Hin. reflexivity.
    + destruct (existsb (String.eqb (Job.os j)) (List.map fst m)) eqn:E.
      * apply existsb_In in E. contradiction.
      * rewrite <- app_assoc. reflexivity.
Qed.

(** X9: [byOs] lists the OS labels of the jobs in the order in which
    each label first occurs in the workflow. *)
Theorem byOs_first_seen_order (input : EstimateInput) :
  List.map OsEstimate.os (byOs (estimateWorkflowCost input))
  = first_seen [] (List.map Job.os (parseJobsAndSteps (workflowYaml input))).
Proof.
  rewrite byOs_eq. unfold aggregateByOs.
  destruct (aggregate_map_shape (workflowYaml input)) as (_ & [_ Hok] & _).
  rewrite aggregate_os by exact Hok.
  rewrite fold_add_job_keys. reflexivity.
Qed.

(** *** Each entry *)

Lemma map_get_set m k v : forall k',
  map_get (map_set m k v) k' = if String.eqb k k' then Some v else map_get m k'.
Proof.
  induction m as [|[k0 v0] m IH]; intros k'.
  - simpl. reflexivity.
  - simpl. destruct (String.eqb k0 k) eqn:E.
    + apply String.eqb_eq in E. subst k0. simpl.
      destruct (String.eqb k k'); reflexivity.
    + simpl. rewrite IH. destruct (String.eqb k0 k') eqn:E'; [|reflexivity].
      apply String.eqb_eq in E'. subst k0. rewrite String.eqb_sym, E. reflexivity.
Qed.

Lemma total_steps_app a b : total_steps (a ++ b) = total_steps a + total_steps b.
Proof.
  unfold total_steps. induction a as [|j a IH]; simpl; [reflexivity|].
  rewrite IH. lia.
Qed.

Lemma fold_add_job_entries js : forall k,
  entry_counts js k (map_get (fold_left add_job js []) k).
Proof.
  induction js as [|j js IH] using rev_ind; intros k.
  - reflexivity.
  - rewrite fold_left_app. cbn [fold_left]. unfold add_job at 1.
    rewrite map_get_set.
    assert (J : jobs_on k (js ++ [j])
                = jobs_on k js ++ (if String.eqb (Job.os j) k then [j] else [])).
    { unfold jobs_on. rewrite filter_app. cbn [filter].
      destruct (String.eqb (Job.os j) k); reflexivity. }
    destruct (String.eqb (Job.os j) k) eqn:E.
    + apply String.eqb_eq in E. subst k.
      specialize (IH (Job.os j)). unfold entry_counts in *. rewrite J.
      rewrite length_app, total_steps_app.
      destruct (map_get (fold_left add_job js []) (Job.os j)) as [e|].
      * destruct IH as (I1 & I2 & I3).
        cbn [OsEstimate.os OsEstimate.jobs OsEstimate.stepCount].
        rewrite I2, I3. cbn [List.length total_steps fold_right].
        split; [exact I1|]. split; lia.
      * rewrite IH. cbn. split; [reflexivity|]. split; lia.
    + specialize (IH k). unfold entry_counts in *. rewrite J, app_nil_r. exact IH.
Qed.

Lemma map_get_In_nodup (m : OsMap) k v :
  NoDup (List.map fst m) -> In (k, v) m -> map_get m k = Some v.
Proof.
  induction m as [|[k0 v0] m IH]; intros Hnd Hin; [contradiction|].
  simpl in Hnd. inversion Hnd as [|? ? Hn Hnd']; subst.
  simpl. destruct Hin as [[= -> ->]|Hin].
  - rewrite String.eqb_refl. reflexivity.
  - destruct (String.eqb k0 k) eqn:E.
    + apply String.eqb_eq in E. subst k0. exfalso. apply Hn.
      apply in_map_iff. exists (k, v). auto.
    + apply IH; assumption.
Qed.

(** X10: every [byOs] entry counts exactly the jobs of its OS and the
    steps of those jobs. *)
Theorem byOs_entry_counts (input : EstimateInput) (e : OsEstimate.t) :
  In e (byOs (estimateWorkflowCost input)) ->
  let js := jobs_on (OsEstimate.os e) (parseJobsAndSteps (workflowYaml input)) in
  OsEstimate.jobs e = Z.of_nat (List.length js)
  /\ OsEstimate.stepCount e = total_steps js.
Proof.
  rewrite byOs_eq. unfold aggregateByOs. intros Hin.
  apply in_map_iff in Hin as ([k v] & <- & Hin). cbn [snd].
  destruct (aggregate_map_shape (workflowYaml input)) as (_ & [Hnd _] & _).
  pose proof (map_get_In_nodup _ _ _ Hnd Hin) as G.
  pose proof (fold_add_job_entries (parseJobsAndSteps (workflowYaml input)) k) as C.
  rewrite G in C. destruct C as (C1 & C2 & C3).
  rewrite emit_os. cbn [emit OsEstimate.jobs OsEstimate.stepCount].
  rewrite C1. split; assumption.
Qed.

Lemma byOs_entry_counts_witness :
  let e := {| OsEstimate.os := "windows"; OsEstimate.jobs := 1;
              OsEstimate.stepCount := 1;
              OsEstimate.minutesPerRun := decimal 35 1;
              OsEstimate.costPerRunUsd := decimal 6 2 |} in
  let js := jobs_on (OsEstimate.os e) (parseJobsAndSteps scenario_B) in
  OsEstimate.jobs e = Z.of_nat (List.length js)
  /\ OsEstimate.stepCount e = total_steps js.
Proof.
  apply (byOs_entry_counts over_budget). vm_compute. right. left. reflexivity.
Defined.

End AggregateMore.

(* ================================================================== *)
(** ** More about the amounts *)
(* ================================================================== *)

Module AmountFacts.
Import Values Invariants Examples Amounts.
Import JsString Regex JsNumber Estimator Props AggregateFacts.
Import Binary64 MoneyFacts SizeFacts TotalFacts TextFacts.
Local Open Scope list_scope.
Local Open Scope R_scope.

Lemma of_cents_spec K :
  (1 <= K <= 1000000000000)%Z ->
  pnormal (of_cents K)
  /\ Rabs (B2R (of_cents K) - IZR K / 100) <= u * (IZR K / 100).
Proof.
  intros [K1 K2]. unfold of_cents.
  destruct (of_Z_spec K) as [Pk Vk]; [lia|].
  destruct hundred_spec as [Ph Vh].
  pose proof (IZR_le _ _ K1) as R1. pose proof (IZR_le _ _ K2) as R2.
  destruct (div_ok (of_Z K) (of_Z 100) Pk Ph) as [Pd Ed].
  { rewrite Vk, Vh. unfold small, big. lra. }
  rewrite Vk, Vh in Ed. split; assumption.
Qed.

Lemma roundMoney_of_cents K :
  (0 <= K <= 1000000000000)%Z -> roundMoney (of_cents K) = of_cents K.
Proof.
  intros [K0 K2]. destruct (Z.eq_dec K 0) as [->|Hn]; [vm_compute; reflexivity|].
  assert (K1 : (1 <= K)%Z) by lia.
  destruct (of_cents_spec K (conj K1 K2)) as [Pc Ec].
  apply Rabs_le_inv in Ec. unfold u in Ec.
  pose proof (IZR_le _ _ K1) as R1. pose proof (IZR_le _ _ K2) as R2.
  destruct (roundMoney_spec _ Pc) as (n1 & _ & E & Hr & _); [lra|].
  apply Rabs_le_inv in Hr. unfold u in Hr.
  rewrite E. unfold of_cents. f_equal. f_equal.
  assert (L1 : IZR n1 < IZR (K + 1)) by (rewrite plus_IZR; lra).
  assert (L2 : IZR (K - 1) < IZR n1) by (rewrite minus_IZR; lra).
  apply lt_IZR in L1, L2. lia.
Qed.

(** X11: [roundMoney] leaves an amount of whole cents as it is, up to
    ten billion USD. *)
Theorem roundMoney_whole_cents (K : Z) :
  (0 <= K <= 1000000000000)%Z -> roundMoney (of_cents K) = of_cents K.
Proof. exact (roundMoney_of_cents K). Qed.

Lemma roundMoney_whole_cents_witness :
  roundMoney (of_cents 1999) = of_cents 1999.
Proof. apply (roundMoney_whole_cents 1999). lia. Defined.

(** *** Comparisons *)

Lemma pnormal_checks x :
  pnormal x -> isFinite x = true /\ le x pos_zero = false.
Proof. intros (m & e & -> & _). split; reflexivity. Qed.

Lemma gt_pnormal x y :
  pnormal x -> pnormal y -> B2R x <= B2R y -> gt x y = false.
Proof.
  intros (mx & ex & -> & Dx & _) (my & ey & -> & Dy & _) H.
  cbn [B2R cond_Zopp] in H. unfold gt, SFltb. cbn [SFcompare].
  pose proof (digits2_bounds mx) as [X1 X2]. rewrite Dx in X1, X2.
  pose proof (digits2_bounds my) as [Y1 Y2]. rewrite Dy in Y1, Y2.
  change (53 - 1)%Z with 52%Z in *.
  destruct (Z.compare_spec ey ex) as [C|C|C]; [|exfalso|reflexivity].
  - subst ey. change (PosDef.Pos.compare_cont Eq my mx) with (Pos.compare my mx).
    destruct (Pos.compare_spec my mx) as [C'|C'|C']; [reflexivity| |reflexivity].
    exfalso. apply (F2R_le _ _ ex) in X1. clear X1.
    assert (L : F2R (Zpos my) ex < F2R (Zpos mx) ex).
    { unfold F2R. pose proof (bpow_pos ex). apply Rmult_lt_compat_r; [assumption|].
      apply IZR_lt. lia. }
    lra.
  - assert (L1 : F2R (Zpos my) ey < bpow (53 + ey)).
    { rewrite <- F2R_bpow by lia. unfold F2R. pose proof (bpow_pos ey).
      apply Rmult_lt_compat_r; [assumption|]. apply IZR_lt. exact Y2. }
    assert (L2 : bpow (52 + ex) <= F2R (Zpos mx) ex).
    { rewrite <- F2R_bpow by lia. apply F2R_le. exact X1. }
    assert (L3 : bpow (53 + ey) <= bpow (52 + ex)) by (apply bpow_le; lia).
    lra.
Qed.

Lemma million_spec : pnormal (of_Z 1000000) /\ B2R (of_Z 1000000) = 1000000.
Proof. apply (of_Z_spec 1000000). lia. Qed.

Lemma Math_round_of_Z n :
  (1 <= n <= 1000000)%Z -> Math_round (of_Z n) = of_Z n.
Proof.
  intros [N1 N2]. destruct (of_Z_spec n) as [Pn Vn]; [lia|].
  pose proof (IZR_le _ _ N1) as R1. pose proof (IZR_le _ _ N2) as R2.
  destruct (Math_round_spec _ Pn) as (n' & _ & Hn & E).
  { rewrite Vn, (bpow_IZR 52) by lia. change (2 ^ 52)%Z with 4503599627370496%Z. lra. }
  rewrite Vn in Hn.
  assert (L1 : IZR n' < IZR (n + 1)) by (rewrite plus_IZR; lra).
  assert (L2 : IZR (n - 1) < IZR n') by (rewrite minus_IZR; lra).
  apply lt_IZR in L1, L2. replace n' with n in E by lia.
  rewrite E. destruct (Z.eqb_spec n 0); [lia | reflexivity].
Qed.

Lemma of_cents_max : of_cents 100000000 = of_Z 1000000.
Proof. vm_compute. reflexivity. Qed.

Lemma budget_checks k :
  (1 <= k <= 100000000)%Z ->
  isFinite (of_cents k) = true /\ le (of_cents k) pos_zero = false
  /\ gt (of_cents k) (of_Z 1000000) = false.
Proof.
  intros [K1 K2]. destruct (of_cents_spec k) as [Pc Ec]; [lia|].
  destruct (pnormal_checks _ Pc) as [F L]. split; [exact F|]. split; [exact L|].
  destruct million_spec as [Pm Vm].
  destruct (Z.eq_dec k 100000000) as [->|Hk].
  - rewrite of_cents_max. apply gt_pnormal; auto. lra.
  - apply gt_pnormal; auto. rewrite Vm.
    assert (K3 : (k <= 99999999)%Z) by lia.
    pose proof (IZR_le _ _ K1) as R1. pose proof (IZR_le _ _ K3) as R3.
    apply Rabs_le_inv in Ec. unfold u in Ec. lra.
Qed.

Lemma runs_checks n :
  (1 <= n <= 1000000)%Z ->
  isFinite (of_Z n) = true /\ le (of_Z n) pos_zero = false
  /\ gt (of_Z n) (of_Z 1000000) = false.
Proof.
  intros [N1 N2]. destruct (of_Z_spec n) as [Pn Vn]; [lia|].
  destruct (pnormal_checks _ Pn) as [F L]. split; [exact F|]. split; [exact L|].
  destruct million_spec as [Pm Vm].
  apply gt_pnormal; auto. rewrite Vn, Vm. apply IZR_le. exact N2.
Qed.

(** X12: the sanitizer accepts every input within the bounds of the
    data model and returns it unchanged. *)
Theorem in_bounds_input_accepted (input : EstimateInput) :
  in_bounds input -> sanitizeEstimateInput (payload_of input) = Return input.
Proof.
  intros (Ht & Hne & Hlen & (n & Hn & En) & (k & Hk & Ek) & Hm).
  destruct input as [yaml runs budget mode]. cbn [workflowYaml monthlyRuns budgetUsd policyMode] in *.
  unfold sanitizeEstimateInput, payload_of.
  cbn [Payload.workflowYaml Payload.monthlyRuns Payload.budgetUsd Payload.policyMode
       workflowYaml monthlyRuns budgetUsd policyMode string_or_empty number_of bind].
  rewrite Ht.
  replace (is_empty yaml) with false by (destruct yaml; [congruence | reflexivity]).
  replace (100000 <? Z.of_nat (List.length yaml))%Z with false
    by (symmetry; apply Z.ltb_ge; exact Hlen).
  cbn [orb]. subst runs budget.
  destruct (runs_checks n Hn) as (F1 & L1 & G1). rewrite F1, L1, G1. cbn [negb orb].
  destruct (budget_checks k Hk) as (F2 & L2 & G2). rewrite F2, L2, G2. cbn [negb orb].
  rewrite (Math_round_of_Z n Hn), roundMoney_of_cents by lia.
  destruct Hm as [-> | ->]; reflexivity.
Qed.

Lemma in_bounds_input_accepted_witness :
  sanitizeEstimateInput (payload_of sample_input) = Return sample_input.
Proof.
  apply in_bounds_input_accepted.
  split; [vm_compute; reflexivity|]. split; [vm_compute; discriminate|].
  split; [vm_compute; discriminate|].
  split; [exists 420%Z; split; [lia | reflexivity]|].
  split; [exists 2000%Z; split; [lia | reflexivity]|].
  left. reflexivity.
Defined.

Lemma roundMoney_zero : roundMoney pos_zero = of_cents 0.
Proof. vm_compute. reflexivity. Qed.

(** X13: for an input within the bounds of the data model, the cost
    per run of the summary is a whole number [K] of cents, at least
    one, and the monthly cost is exactly [K] times the monthly runs, in
    cents. *)
Theorem monthly_cost_in_cents (input : EstimateInput) (n : Z) :
  (Z.of_nat (List.length (workflowYaml input)) <= 100000)%Z ->
  (0 <= n <= 1000000)%Z -> monthlyRuns input = of_Z n ->
  let s := summary (estimateWorkflowCost input) in
  exists K,
    (1 <= K <= 15000000)%Z
    /\ Summary.costPerRunUsd s = of_cents K
    /\ Summary.monthlyCostUsd s = of_cents (K * n).
Proof.
  intros Hlen Hn Hruns s. subst s.
  destruct (CostClaims.byOs_costs input Hlen) as (Hc & Hl & _).
  destruct (summary_costs input) as (Ec & Em & _).
  rewrite <- byOs_eq in Ec, Em. rewrite Ec, Em, Hruns.
  set (cs := costs (byOs (estimateWorkflowCost input))) in *.
  destruct (fsum_spec cs Hc Hl) as (K & HK & Ps & Es & _).
  destruct (CostClaims.roundMoney_sum _ K HK Ps Es) as (Er & _ & _).
  exists K. split; [exact HK|]. split; [exact Er|].
  destruct (Z.eq_dec n 0) as [->|Hn0].
  - change (of_Z 0) with pos_zero. rewrite (CostClaims.mul_zero_r _ Ps).
    rewrite Z.mul_0_r. apply roundMoney_zero.
  - apply CostClaims.monthly_cents; auto. lia.
Qed.

Lemma monthly_cost_in_cents_witness :
  let s := summary (estimateWorkflowCost over_budget) in
  exists K,
    (1 <= K <= 15000000)%Z
    /\ Summary.costPerRunUsd s = of_cents K
    /\ Summary.monthlyCostUsd s = of_cents (K * 500).
Proof.
  apply (monthly_cost_in_cents over_budget 500).
  - vm_compute. discriminate.
  - lia.
  - reflexivity.
Defined.

(** *** The budget the sanitizer returns *)

Lemma gt_pnormal_inv x y :
  pnormal x -> pnormal y -> gt x y = false -> B2R x <= B2R y.
Proof.
  intros (mx & ex & -> & Dx & _) (my & ey & -> & Dy & _).
  cbn [B2R cond_Zopp]. unfold gt, SFltb. cbn [SFcompare].
  pose proof (digits2_bounds mx) as [X1 X2]. rewrite Dx in X1, X2.
  pose proof (digits2_bounds my) as [Y1 Y2]. rewrite Dy in Y1, Y2.
  change (53 - 1)%Z with 52%Z in *.
  destruct (Z.compare_spec ey ex) as [C|C|C]; [|discriminate|].
  - subst ey. change (PosDef.Pos.compare_cont Eq my mx) with (Pos.compare my mx).
    destruct (Pos.compare_spec my mx) as [C'|C'|C']; [|discriminate|]; intros _.
    + subst. apply Rle_refl.
    + apply F2R_le. lia.
  - intros _.
    assert (L1 : F2R (Zpos mx) ex < bpow (53 + ex)).
    { rewrite <- F2R_bpow by lia. unfold F2R. pose proof (bpow_pos ex).
      apply Rmult_lt_compat_r; [assumption|]. apply IZR_lt. exact X2. }
    assert (L2 : bpow (52 + ey) <= F2R (Zpos my) ey).
    { rewrite <- F2R_bpow by lia. apply F2R_le. exact Y1. }
    assert (L3 : bpow (53 + ex) <= bpow (52 + ey)) by (apply bpow_le; lia).
    lra.
Qed.

(** A positive double is normal, or subnormal and below 2^-1021. *)
Lemma valid_positive m e :
  valid_binary prec emax (S754_finite false m e) = true ->
  pnormal (S754_finite false m e)
  \/ (0 < F2R (Zpos m) e < bpow (-1021) /\ (-1074 <= e)%Z).
Proof.
  cbn [valid_binary]. unfold bounded, canonical_mantissa. intros H.
  apply andb_prop in H as [H1 H2]. apply Z.eqb_eq in H1. apply Z.leb_le in H2.
  unfold fexp, emin, prec, emax in H1, H2.
  pose proof (digits2_bounds m) as [D1 D2].
  destruct (Z.eq_dec (Zpos (digits2_pos m)) 53) as [E|E].
  - left. exists m, e. split; [reflexivity|]. split; [lia|]. lia.
  - right. assert (He : e = (-1074)%Z) by lia. subst e. split; [|lia]. split.
    + unfold F2R. pose proof (bpow_pos (-1074)).
      apply Rmult_lt_0_compat; [apply IZR_lt; lia | assumption].
    + apply Rlt_le_trans with (F2R (2 ^ 53) (-1074)).
      * unfold F2R. pose proof (bpow_pos (-1074)).
        apply Rmult_lt_compat_r; [assumption|]. apply IZR_lt.
        apply Z.lt_le_trans with (1 := D2). apply Z.pow_le_mono_r; lia.
      * rewrite F2R_bpow by lia. apply bpow_le. lia.
Qed.

(** The sum of a positive double, normal or not, and a normal one. *)
Lemma add_pos_spec mx ex y :
  (0 < F2R (Zpos mx) ex) -> pnormal y ->
  F2R (Zpos mx) ex + B2R y < bpow 1023 ->
  pnormal (add (S754_finite false mx ex) y)
  /\ Rabs (B2R (add (S754_finite false mx ex) y) - (F2R (Zpos mx) ex + B2R y))
     <= u * (F2R (Zpos mx) ex + B2R y).
Proof.
  intros Hx Hy Hs.
  pose proof (pnormal_bounds _ Hy) as [Hy1 _].
  destruct Hy as (my & ey & -> & _ & _).
  unfold add. cbn [SFadd cond_Zopp]. cbn [B2R cond_Zopp] in *.
  set (ez := Z.min ex ey).
  rewrite <- (shl_align_value mx ex ez), <- (shl_align_value my ey ez) in * by (unfold ez; lia).
  set (a := fst (shl_align mx ex ez)) in *. set (b := fst (shl_align my ey ez)) in *.
  rewrite <- F2R_plus in *. rewrite <- Pos2Z.inj_add in *. cbn [binary_normalize].
  destruct (binary_round_correct (a + b) ez) as (Hp & He & _).
  - split; [|exact Hs]. rewrite Pos2Z.inj_add, F2R_plus. lra.
  - split; assumption.
Qed.

(** Below 1/128 USD, [roundMoney] gives 0.00 or 0.01. *)
Lemma roundMoney_tiny m e :
  0 < F2R (Zpos m) e < / 128 ->
  roundMoney (S754_finite false m e) = of_cents 0
  \/ roundMoney (S754_finite false m e) = of_cents 1.
Proof.
  intros [V0 V1]. set (x := S754_finite false m e).
  destruct EPSILON_spec as [He Hev]. destruct hundred_spec as [Hh Hhv].
  destruct (add_pos_spec m e EPSILON V0 He) as [Ha Hae].
  { rewrite Hev. apply Rlt_le_trans with 1; [unfold u; lra|].
    apply Rle_trans with (bpow 0); [rewrite bpow_0; lra | apply bpow_le; lia]. }
  rewrite Hev in Hae. apply Rabs_le_inv in Hae. fold x in Ha, Hae.
  set (a := add x EPSILON) in *.
  destruct (mul_ok a (of_Z 100) Ha Hh) as [Hb Hbe].
  { rewrite Hhv. unfold u, small, big in *. lra. }
  rewrite Hhv in Hbe. apply Rabs_le_inv in Hbe.
  set (b := mul a (of_Z 100)) in *.
  destruct (Math_round_spec b Hb) as (n & Hn0 & Hn & Hr).
  { rewrite (bpow_IZR 52) by lia. change (2 ^ 52)%Z with 4503599627370496%Z.
    unfold u in *. lra. }
  assert (Hn2 : (n < 2)%Z).
  { apply lt_IZR. unfold u in *. lra. }
  unfold roundMoney. fold a. fold b. rewrite Hr.
  assert (C : n = 0%Z \/ n = 1%Z) by lia.
  destruct C as [-> | ->]; [left | right]; reflexivity.
Qed.

Lemma sanitize_budget p input :
  sanitizeEstimateInput p = Return input ->
  valid_binary prec emax (to_number (Payload.budgetUsd p)) = true ->
  exists k, (0 <= k <= 100000000)%Z /\ budgetUsd input = of_cents k.
Proof.
  rewrite FieldFacts.sanitizeEstimateInput_eq.
  unfold workflow_rejected, number_rejected. cbv zeta.
  destruct (is_empty _ || _); [discriminate|].
  destruct (no_string (Payload.monthlyRuns p)); [discriminate|].
  destruct (negb (isFinite (to_number (Payload.monthlyRuns p))) || _ || _); [discriminate|].
  destruct (no_string (Payload.budgetUsd p)); [discriminate|].
  set (x := to_number (Payload.budgetUsd p)).
  destruct (negb (isFinite x) || le x pos_zero || gt x (of_Z 1000000)) eqn:E;
    [discriminate|].
  destruct (negb (str_eqb _ (lit "warn")) && _); [discriminate|].
  intros [= <-] Hv. cbn [budgetUsd].
  apply orb_false_elim in E as [E Hgt]. apply orb_false_elim in E as [Hfin Hle].
  unfold le, SFleb in Hle.
  destruct x as [s|s| |s m e]; cbn [SFcompare pos_zero isFinite negb] in Hfin, Hle;
    try discriminate Hfin; try discriminate Hle.
  destruct s; [discriminate Hle|].
  destruct (valid_positive m e Hv) as [Px|[[V0 V1] _]].
  - destruct million_spec as [Pm Vm].
    pose proof (gt_pnormal_inv _ _ Px Pm Hgt) as Hx. rewrite Vm in Hx.
    destruct (Rle_lt_dec (/ 128) (B2R (S754_finite false m e))) as [L|L].
    + destruct (roundMoney_spec _ Px) as (n & [N1 _] & En & Hr & _); [lra|].
      exists n. split; [|exact En]. split; [lia|].
      apply Rabs_le_inv in Hr. unfold u in Hr.
      assert (L1 : IZR n < IZR 100000001) by lra.
      apply lt_IZR in L1. lia.
    + pose proof (pnormal_pos _ Px) as P0. cbn [B2R cond_Zopp] in L, P0.
      destruct (roundMoney_tiny m e (conj P0 L)) as [-> | ->];
        [exists 0%Z | exists 1%Z]; split; try reflexivity; lia.
  - assert (L : F2R (Zpos m) e < / 128).
    { apply Rlt_le_trans with (1 := V1).
      apply Rle_trans with (bpow (-7)); [apply bpow_le; lia|].
      change (-7)%Z with (- (7))%Z. rewrite bpow_opp, bpow_IZR by lia.
      change (2 ^ 7)%Z with 128%Z. lra. }
    destruct (roundMoney_tiny m e (conj V0 L)) as [-> | ->];
      [exists 0%Z | exists 1%Z]; split; try reflexivity; lia.
Qed.

Lemma sanitize_trimmed p input :
  sanitizeEstimateInput p = Return input ->
  trim (workflowYaml input) = workflowYaml input.
Proof.
  rewrite FieldFacts.sanitizeEstimateInput_eq.
  unfold workflow_rejected, number_rejected. cbv zeta.
  destruct (is_empty _ || _); [discriminate|].
  destruct (no_string (Payload.monthlyRuns p)); [discriminate|].
  destruct (negb (isFinite (to_number (Payload.monthlyRuns p))) || _ || _); [discriminate|].
  destruct (no_string (Payload.budgetUsd p)); [discriminate|].
  destruct (negb (isFinite (to_number (Payload.budgetUsd p))) || _ || _); [discriminate|].
  destruct (negb (str_eqb _ (lit "warn")) && _); [discriminate|].
  intros [= <-]. cbn [workflowYaml].
  destruct (Payload.workflowYaml p); simpl; try reflexivity. apply trim_idempotent.
Qed.

(** X14: what the sanitizer guarantees about the input it returns,
    for numbers that are doubles: a trimmed text of 1 to 100,000 code
    units, an integral number of runs from 0 to 1,000,000, a budget in
    whole cents from 0.00 to 1,000,000.00 USD, and a policy mode. *)
Theorem sanitized_input_bounds (p : Payload.t) (input : EstimateInput) :
  sanitizeEstimateInput p = Return input ->
  valid_binary prec emax (to_number (Payload.monthlyRuns p)) = true ->
  valid_binary prec emax (to_number (Payload.budgetUsd p)) = true ->
  trim (workflowYaml input) = workflowYaml input
  /\ workflowYaml input <> []
  /\ (Z.of_nat (List.length (workflowYaml input)) <= 100000)%Z
  /\ (exists n, (0 <= n <= 1000000)%Z /\ monthlyRuns input = of_Z n)
  /\ (exists k, (0 <= k <= 100000000)%Z /\ budgetUsd input = of_cents k)
  /\ (policyMode input = lit "warn" \/ policyMode input = lit "block").
Proof.
  intros H V1 V2.
  destruct (SanitizerClaims.sanitize_text_and_mode _ H) as (T1 & T2 & T3).
  split; [exact (sanitize_trimmed _ _ H)|].
  split; [exact T1|]. split; [exact T2|].
  split; [exact (SanitizerFacts.sanitize_runs _ _ H V1)|].
  split; [exact (sanitize_budget _ _ H V2) | exact T3].
Qed.

Lemma sanitized_input_bounds_witness :
  trim (workflowYaml rounded_to_zero) = workflowYaml rounded_to_zero
  /\ workflowYaml rounded_to_zero <> []
  /\ (Z.of_nat (List.length (workflowYaml rounded_to_zero)) <= 100000)%Z
  /\ (exists n, (0 <= n <= 1000000)%Z /\ monthlyRuns rounded_to_zero = of_Z n)
  /\ (exists k, (0 <= k <= 100000000)%Z /\ budgetUsd rounded_to_zero = of_cents k)
  /\ (policyMode rounded_to_zero = lit "warn" \/ policyMode rounded_to_zero = lit "block").
Proof.
  apply (sanitized_input_bounds tiny_payload); vm_compute; reflexivity.
Defined.

(** *** Numbers given as text *)

Lemma read_digits_all : forall ds acc n,
  forallb is_digit ds = true ->
  read_digits acc n ds
  = (fold_left (fun a c => 10 * a + (Z.of_N c - 48))%Z ds acc,
     (n + Z.of_nat (List.length ds))%Z, []).
Proof.
  induction ds as [|c ds IH]; intros acc n H.
  - simpl. rewrite Z.add_0_r. reflexivity.
  - cbn [forallb] in H. apply andb_prop in H as [Hc Hs].
    cbn [read_digits fold_left]. rewrite Hc, IH by exact Hs.
    change (List.length (c :: ds)) with (S (List.length ds)).
    f_equal. f_equal. lia.
Qed.

Lemma digit_range c : is_digit c = true -> (48 <= c <= 57)%N.
Proof.
  unfold is_digit. intros H. apply andb_prop in H as [H1 H2].
  apply N.leb_le in H1, H2. lia.
Qed.

Lemma of_decimal_0 m : (0 <= m)%Z -> of_decimal false m 0 = of_Z m.
Proof.
  intros H. destruct m as [|p|p]; [reflexivity| |lia].
  unfold of_decimal. cbn [Z.leb Z.compare Z.pow cond_Zopp].
  rewrite Z.mul_1_r. reflexivity.
Qed.

Lemma digits_value_nonneg : forall ds acc,
  forallb is_digit ds = true -> (0 <= acc)%Z ->
  (0 <= fold_left (fun a c => 10 * a + (Z.of_N c - 48))%Z ds acc)%Z.
Proof.
  induction ds as [|c ds IH]; intros acc H Ha; [exact Ha|].
  cbn [forallb] in H. apply andb_prop in H as [Hc Hs].
  cbn [fold_left]. apply IH; [exact Hs|]. apply digit_range in Hc. lia.
Qed.

Lemma parseFloat_digits ds :
  ds <> [] -> forallb is_digit ds = true ->
  parseFloat ds = of_Z (digits_value ds).
Proof.
  intros Hne H. destruct ds as [|c ds]; [congruence|].
  pose proof H as H'. cbn [forallb] in H'. apply andb_prop in H' as [Hc _].
  pose proof (digit_range _ Hc) as Rc.
  unfold parseFloat.
  assert (Sp : is_space c = false).
  { destruct (is_space c) eqn:E; [|reflexivity].
    apply ScanFacts.is_space_range in E. lia. }
  cbn [trimStart]. rewrite Sp.
  destruct (N.eqb_spec c 45); [lia|]. destruct (N.eqb_spec c 43); [lia|].
  unfold parse_unsigned.
  replace (startsWith (lit "Infinity") (c :: ds)) with false.
  2:{ cbn [lit list_ascii_of_string List.map startsWith].
      destruct (N.eqb_spec (N_of_ascii "I") c) as [E|E]; [|reflexivity].
      rewrite <- E in Hc. discriminate Hc. }
  rewrite (read_digits_all (c :: ds) 0 0 H). cbn [Z.add].
  replace (Z.of_nat (List.length (c :: ds)) =? 0)%Z with false
    by (symmetry; apply Z.eqb_neq; simpl; lia).
  cbn [andb read_exponent]. rewrite Z.sub_0_r.
  apply of_decimal_0. apply digits_value_nonneg; [exact H | lia].
Qed.

(** X15: a number of runs or a budget given as a text of decimal
    digits is treated as the number the text spells. *)
Theorem numeric_strings_accepted (y m : jsvalue) (runs budget : jsstring) :
  runs <> [] -> forallb is_digit runs = true ->
  budget <> [] -> forallb is_digit budget = true ->
  sanitizeEstimateInput (payload y (VString runs) (VString budget) m)
  = sanitizeEstimateInput
      (payload y (VNumber (of_Z (digits_value runs)))
                 (VNumber (of_Z (digits_value budget))) m).
Proof.
  intros R1 R2 B1 B2. unfold sanitizeEstimateInput, payload.
  cbn [Payload.workflowYaml Payload.monthlyRuns Payload.budgetUsd Payload.policyMode
       number_of].
  rewrite (parseFloat_digits runs R1 R2), (parseFloat_digits budget B1 B2).
  reflexivity.
Qed.

Lemma numeric_strings_accepted_witness :
  sanitizeEstimateInput
    (payload (VString (lit "jobs:")) (VString (lit "420")) (VString (lit "20"))
             (VString (lit "warn")))
  = sanitizeEstimateInput
      (payload (VString (lit "jobs:")) (VNumber (of_Z (digits_value (lit "420"))))
               (VNumber (of_Z (digits_value (lit "20")))) (VString (lit "warn"))).
Proof.
  apply numeric_strings_accepted; try reflexivity; discriminate.
Defined.

End AmountFacts.

(* ================================================================== *)
(** ** More about the budget policy *)
(* ================================================================== *)

Module PolicyMore.
Import Examples Amounts.
Import JsString Regex JsNumber Estimator Props NumFacts.
Local Open Scope list_scope.
Local Open Scope Z_scope.

Ltac order_cases :=
  repeat match goal with
         | |- context [Z.compare ?a ?b] => destruct (Z.compare_spec a b)
         | H : context [Z.compare ?a ?b] |- _ => destruct (Z.compare_spec a b)
         | |- context [Pos.compare ?a ?b] => destruct (Pos.compare_spec a b)
         | H : context [Pos.compare ?a ?b] |- _ => destruct (Pos.compare_spec a b)
         end.

(** The comparisons of doubles are those of an order: a cost that
    does not exceed [b] does not exceed any [b'] above [b]. *)
Lemma gt_le_trans c b b' :
  gt c b = false -> le b b' = true -> gt c b' = false.
Proof.
  unfold gt, le, SFltb, SFleb.
  destruct c as [sc|sc| |sc mc ec], b as [sb|sb| |sb mb eb], b' as [s'|s'| |s' m' e'];
    cbn [SFcompare];
    repeat match goal with s : bool |- _ => destruct s end;
    try discriminate; try reflexivity;
    change (PosDef.Pos.compare_cont Eq) with Pos.compare;
    intros H1 H2; order_cases; cbn [CompOpp] in *;
    try discriminate; try reflexivity; try lia.
Qed.

Lemma decision_eq input :
  Summary.policyDecision (summary (estimateWorkflowCost input)) =
    if gt (Summary.monthlyCostUsd (summary (estimateWorkflowCost (with_budget input pos_zero))))
          (budgetUsd input)
    then policyMode input else lit "pass".
Proof.
  unfold estimateWorkflowCost, with_budget. cbn [workflowYaml monthlyRuns].
  destruct (sum_entries _) as [[[m c] j] t]. reflexivity.
Qed.

(** X16: the decision is monotone in the budget: an estimate that
    passes still passes under any budget that is not below the given
    one. *)
Theorem higher_budget_keeps_pass (input : EstimateInput) (budget : num) :
  le (budgetUsd input) budget = true ->
  Summary.policyDecision (summary (estimateWorkflowCost input)) = lit "pass" ->
  Summary.policyDecision (summary (estimateWorkflowCost (with_budget input budget)))
  = lit "pass".
Proof.
  intros Hle. rewrite (decision_eq input), (decision_eq (with_budget input budget)).
  change (with_budget (with_budget input budget) pos_zero) with (with_budget input pos_zero).
  cbn [with_budget budgetUsd policyMode].
  set (cost := Summary.monthlyCostUsd _).
  destruct (gt cost (budgetUsd input)) eqn:E.
  - intros ->. destruct (gt cost budget); reflexivity.
  - intros _. rewrite (gt_le_trans _ _ _ E Hle). reflexivity.
Qed.

Lemma higher_budget_keeps_pass_witness :
  Summary.policyDecision
    (summary (estimateWorkflowCost (with_budget on_budget (of_Z 100))))
  = lit "pass".
Proof.
  apply (higher_budget_keeps_pass on_budget (of_Z 100)); reflexivity.
Defined.

End PolicyMore.

(* ================================================================== *)
(** ** The helpers of the server *)
(* ================================================================== *)

Module ServerFacts.
Import Examples.
Import JsString Regex JsNumber Estimator JsError WorkflowImport Server Props ServiceProps.
Import RegexFacts ScanFacts TextFacts.
Local Open Scope list_scope.
Local Open Scope Z_scope.

(** *** Error codes *)

(** [/^prefix[a-z0-9_]+$/] *)
Lemma test_code (prefix : string) message :
  test (Str prefix (Plus (Cls is_code_char) ;; Eol)) message =
    startsWith (lit prefix) message
    && match skipn (String.length prefix) message with
       | [] => false
       | code => forallb is_code_char code
       end.
Proof.
  unfold test, Str. rewrite rmatch_lit.
  replace (List.map chr (list_ascii_of_string prefix)) with (lit prefix) by reflexivity.
  replace (List.length (list_ascii_of_string prefix)) with (String.length prefix).
  - destruct (startsWith (lit prefix) message); [|reflexivity]. cbn [andb].
    rewrite rmatch_plus_eol.
    destruct (skipn (String.length prefix) message) as [|c code]; [reflexivity|].
    destruct (forallb is_code_char (c :: code)); reflexivity.
  - induction prefix as [|a p IH]; simpl; congruence.
Qed.

Lemma startsWith_head c p s :
  startsWith (c :: p) s = true -> exists s', s = c :: s'.
Proof.
  destruct s as [|d s]; simpl; [discriminate|]. intros H.
  apply andb_prop in H as [H _]. apply N.eqb_eq in H. subst. eauto.
Qed.

Lemma safeErrorCode_not_too_large error :
  str_eqb (safeErrorCode error) (lit "payload_too_large") = false.
Proof.
  destruct error as [name message|]; [|reflexivity]. unfold safeErrorCode.
  destruct (test re_invalid message) eqn:E1.
  - unfold re_invalid in E1. rewrite test_code in E1.
    apply andb_prop in E1 as [E1 _].
    apply startsWith_head in E1 as (s' & ->). reflexivity.
  - destruct (test re_workflow message) eqn:E2; [|reflexivity].
    unfold re_workflow in E2. rewrite test_code in E2.
    apply andb_prop in E2 as [E2 _].
    apply startsWith_head in E2 as (s' & ->). reflexivity.
Qed.

(** X17: the [catch] clause of the request handler never answers with
    status 413: whatever is thrown, the status is 400, and the error of
    an oversized body, "payload_too_large", is reported as
    "invalid_request". *)
Theorem error_status_always_400 :
  (forall error : thrown, error_response error = (400, safeErrorCode error))
  /\ error_response (new_Error "payload_too_large") = (400, lit "invalid_request").
Proof.
  split; [|reflexivity].
  intros error. unfold error_response.
  rewrite safeErrorCode_not_too_large. reflexivity.
Qed.

Lemma startsWith_split p : forall s,
  startsWith p s = true -> s = p ++ skipn (List.length p) s.
Proof.
  induction p as [|a p IH]; intros s H; [reflexivity|].
  destruct s as [|b s]; [discriminate H|]. cbn [startsWith] in H.
  apply andb_prop in H as [H1 H2]. apply N.eqb_eq in H1. subst b.
  cbn [List.length skipn app]. f_equal. apply IH, H2.
Qed.

(** A message that passes one of the two code patterns is made of
    small letters, digits and [_]. *)
Lemma code_message (prefix : string) message :
  List.length (lit prefix) = String.length prefix ->
  forallb is_code_char (lit prefix) = true ->
  test (Str prefix (Plus (Cls is_code_char) ;; Eol)) message = true ->
  forallb is_code_char message = true.
Proof.
  intros Hl Hp H. rewrite test_code in H. apply andb_prop in H as [H1 H2].
  rewrite (startsWith_split _ _ H1), forallb_app, Hp, Hl. cbn [andb].
  destruct (skipn (String.length prefix) message); [discriminate H2 | exact H2].
Qed.

Lemma safeErrorCode_plain name message :
  forallb is_code_char message = false ->
  safeErrorCode (ThrownError name message) = lit "invalid_request".
Proof.
  intros H. unfold safeErrorCode.
  destruct (test re_invalid message) eqn:E1.
  { apply code_message in E1; [congruence | reflexivity | reflexivity]. }
  destruct (test re_workflow message) eqn:E2; [|reflexivity].
  apply code_message in E2; [congruence | reflexivity | reflexivity].
Qed.

(** X18: whatever the input sanitizer throws, the client gets status
    400. Each of its four coded errors arrives under its own code. The
    only other exception it lets out is the one that [String] throws
    for a [monthlyRuns] or a [budgetUsd] without string form; it
    arrives under the code [safeErrorCode] gives it, which is
    [invalid_request] for every [Error] whose message holds a
    character outside [[a-z0-9_]], as the TypeError of a JSON value. *)
Theorem sanitizer_errors_reported (p : Payload.t) :
  (forall message : string,
      sanitizeEstimateInput p = Throw message ->
      error_response (new_Error message) = (400, lit message))
  /\ (forall error : thrown,
         sanitizeEstimateInput p = Rethrown error ->
         (Payload.monthlyRuns p = VNoString error
          \/ Payload.budgetUsd p = VNoString error)
         /\ error_response error = (400, safeErrorCode error))
  /\ (forall name message : jsstring,
         forallb is_code_char message = false ->
         error_response (ThrownError name message) = (400, lit "invalid_request")).
Proof.
  assert (R : forall error, error_response error = (400, safeErrorCode error)).
  { intros error. unfold error_response.
    rewrite safeErrorCode_not_too_large. reflexivity. }
  split; [|split].
  - intros message. rewrite FieldFacts.sanitizeEstimateInput_eq. cbv zeta.
    destruct (workflow_rejected _); [intros [= <-]; reflexivity|].
    destruct (no_string (Payload.monthlyRuns p)); [discriminate|].
    destruct (number_rejected (Payload.monthlyRuns p)); [intros [= <-]; reflexivity|].
    destruct (no_string (Payload.budgetUsd p)); [discriminate|].
    destruct (number_rejected (Payload.budgetUsd p)); [intros [= <-]; reflexivity|].
    destruct (negb (str_eqb _ (lit "warn")) && _);
      [intros [= <-]; reflexivity | discriminate].
  - intros error H. split; [|apply R].
    rewrite FieldFacts.sanitizeEstimateInput_eq in H. cbv zeta in H.
    destruct (workflow_rejected _); [discriminate H|].
    destruct (Payload.monthlyRuns p) as [n|t|t|e1] eqn:Er; cbn [no_string] in H;
      try (injection H as ->; left; reflexivity).
    all: destruct (number_rejected _); [discriminate H|].
    all: destruct (Payload.budgetUsd p) as [n'|t'|t'|e2] eqn:Eb; cbn [no_string] in H;
      try (injection H as ->; right; reflexivity).
    all: destruct (number_rejected _); [discriminate H|].
    all: destruct (negb _ && _); discriminate H.
  - intros name message H. rewrite R, (safeErrorCode_plain name message H). reflexivity.
Qed.

Lemma sanitizer_errors_reported_witness :
  error_response (new_Error "invalid_monthly_runs") = (400, lit "invalid_monthly_runs")
  /\ error_response no_primitive_form = (400, lit "invalid_request").
Proof.
  split.
  - destruct (sanitizer_errors_reported
                (payload (VString (lit "jobs:")) (VString (lit "many"))
                         (VNumber (of_Z 20)) (VString (lit "warn")))) as (H & _).
    apply H. reflexivity.
  - destruct (sanitizer_errors_reported runs_without_string) as (_ & H & _).
    destruct (H no_primitive_form) as [_ E]; [reflexivity | exact E].
Defined.

(** *** Source labels *)

Lemma test_source_shape s : test_source s = true <-> source_shape s.
Proof.
  unfold test_source, source_shape.
  destruct s as [|c w].
  - split; [discriminate | intros (c & w & E & _); discriminate].
  - rewrite rmatch_cls_cons.
    destruct (is_lower_digit c) eqn:Hc.
    + rewrite star_cls_eol.
      destruct (forallb is_source_char w) eqn:Hw; cbn [andb].
      * destruct (Nat.leb_spec (List.length w) 39) as [L|L].
        -- split; [intros _; exists c, w; auto | reflexivity].
        -- split; [discriminate|].
           intros (c' & w' & [= <- <-] & _ & _ & L'). lia.
      * split; [discriminate|].
        intros (c' & w' & [= <- <-] & _ & Hw' & _). congruence.
    + split; [discriminate|].
      intros (c' & w' & [= <- <-] & Hc' & _). congruence.
Qed.

Lemma source_char_range c : is_source_char c = true -> (45 <= c <= 122)%N /\ ~ (65 <= c <= 90)%N.
Proof.
  unfold is_source_char, is_lower_digit. intros H.
  repeat (apply orb_prop in H as [H|H]);
    try (apply andb_prop in H as [H1 H2]; apply N.leb_le in H1, H2);
    try apply N.eqb_eq in H; lia.
Qed.

Lemma lower_digit_source c : is_lower_digit c = true -> is_source_char c = true.
Proof. unfold is_source_char. intros ->. reflexivity. Qed.

Lemma source_lower s : forallb is_source_char s = true -> toLowerCase s = s.
Proof.
  induction s as [|c s IH]; intros H; [reflexivity|].
  simpl in H. apply andb_prop in H as [Hc Hs].
  unfold toLowerCase in *. cbn [flat_map]. rewrite (IH Hs).
  apply source_char_range in Hc as [R1 R2]. unfold lower_unit.
  destruct ((65 <=? c) && (c <=? 90))%N eqn:E1.
  { apply andb_prop in E1 as [A B]. apply N.leb_le in A, B. lia. }
  destruct (N.eqb_spec c 8490); [lia|].
  destruct (N.eqb_spec c 304); [lia|]. reflexivity.
Qed.

Lemma source_black s :
  forallb is_source_char s = true -> forallb (fun c => negb (is_space c)) s = true.
Proof.
  rewrite !forallb_forall. intros H c Hin. specialize (H c Hin).
  apply source_char_range in H as [R _].
  destruct (is_space c) eqn:E; [|reflexivity].
  apply is_space_range in E. lia.
Qed.

Lemma shape_chars s : source_shape s -> forallb is_source_char s = true.
Proof.
  intros (c & w & -> & Hc & Hw & _). simpl.
  rewrite (lower_digit_source _ Hc), Hw. reflexivity.
Qed.

(** X19: with a well-formed fallback, [normalizeSource] always returns
    a well-formed label (1 to 40 small letters, digits, "_" and "-",
    not starting with "_" or "-"), and normalizing its result again
    changes nothing. *)
Theorem normalizeSource_shape (value : unknown) (fallback : jsstring) :
  source_shape fallback ->
  source_shape (normalizeSource value fallback)
  /\ normalizeSource (UString (normalizeSource value fallback)) fallback
     = normalizeSource value fallback.
Proof.
  intros Hf.
  assert (A : source_shape (normalizeSource value fallback)).
  { destruct value as [|n|s|]; simpl; try exact Hf.
    destruct (test_source (toLowerCase (trim s))) eqn:E; simpl; [|exact Hf].
    apply test_source_shape. exact E. }
  split; [exact A|].
  set (r := normalizeSource value fallback) in *.
  pose proof (shape_chars _ A) as Hc.
  cbn [normalizeSource].
  rewrite (trim_black _ (source_black _ Hc)), (source_lower _ Hc).
  apply test_source_shape in A. rewrite A. reflexivity.
Qed.

Lemma normalizeSource_shape_witness :
  source_shape (normalizeSource (UString (lit "  GitHub-Actions ")) (lit "web"))
  /\ normalizeSource
       (UString (normalizeSource (UString (lit "  GitHub-Actions ")) (lit "web")))
       (lit "web")
     = normalizeSource (UString (lit "  GitHub-Actions ")) (lit "web").
Proof.
  apply (normalizeSource_shape (UString (lit "  GitHub-Actions ")) (lit "web")).
  apply test_source_shape. reflexivity.
Defined.

(** *** Metrics *)

Lemma total_increment counts t : total (increment counts t) = total counts + 1.
Proof. destruct t; unfold total; simpl; lia. Qed.

Lemma counts_le_increment a b t :
  counts_le a b -> counts_le (increment a t) (increment b t) /\ counts_le a (increment b t).
Proof. unfold counts_le. destruct t; simpl; lia. Qed.

(** X20: the counters of [calculateCounts()] add up to the number of
    recorded events, and no counter of a filtered count exceeds the
    unfiltered one (self-tests excluded is at most self-tests
    included). *)
Theorem counts_add_up (events : list EventRecord.t) :
  total (calculateCounts events None) = Z.of_nat (List.length events)
  /\ forall filter : bool,
       counts_le (calculateCounts events (Some filter)) (calculateCounts events None).
Proof.
  unfold calculateCounts. split.
  - assert (G : forall evs c,
      total (fold_left (fun counts event => increment counts (EventRecord.eventType event)) evs c)
      = total c + Z.of_nat (List.length evs)).
    { induction evs as [|e evs IH]; intros c.
      - simpl. lia.
      - cbn [fold_left]. rewrite IH, total_increment.
        change (List.length (e :: evs)) with (S (List.length evs)). lia. }
    rewrite G. reflexivity.
  - intros f.
    assert (G : forall evs a b, counts_le a b ->
      counts_le
        (fold_left (fun counts event =>
           if differs (EventRecord.selfTest event) f then counts
           else increment counts (EventRecord.eventType event)) evs a)
        (fold_left (fun counts event => increment counts (EventRecord.eventType event)) evs b)).
    { induction evs as [|e evs IH]; intros a b Hab; [exact Hab|].
      cbn [fold_left]. apply IH.
      destruct (counts_le_increment a b (EventRecord.eventType e) Hab) as [H1 H2].
      destruct (differs _ f); assumption. }
    apply G. unfold counts_le. lia.
Qed.

End ServerFacts.

(* ================================================================== *)
(** ** The workflow import *)
(* ================================================================== *)

Module ImportFacts.
Import Examples.
Import JsString Regex JsNumber Estimator Props JsError WorkflowImport Server TextProps ServiceProps.
Import RegexFacts ScanFacts TextFacts ServerFacts.
Local Open Scope list_scope.
Local Open Scope Z_scope.

(** *** The extension test *)

Lemma yaml_ext_at_eq s :
  yaml_ext_at s = if is_yaml_ext s then Some tt else None.
Proof.
  unfold yaml_ext_at, is_yaml_ext, ci, letter, Chr.
  destruct s as [|d [|y [|a [|m [|l [|x s]]]]]]; cbn;
    repeat match goal with
           | |- context [if ?b then _ else _] => destruct b eqn:?; cbn
           end;
    try reflexivity;
    repeat match goal with
           | H : (_ || _)%bool = true |- _ => apply orb_prop in H as [H|H]
           | H : (_ || _)%bool = false |- _ => apply orb_false_elim in H as [? ?]
           | H : (_ && _)%bool = true |- _ => apply andb_prop in H as [? ?]
           end;
    repeat match goal with
           | H : (_ =? _)%N = true |- _ => apply N.eqb_eq in H; subst
           end;
    try discriminate; try reflexivity.
Qed.

Lemma search_ok (m : jsstring -> option unit) s :
  search m s = true <-> exists p e, s = p ++ e /\ m e <> None.
Proof.
  induction s as [|c s IH].
  - simpl. destruct (m []) eqn:E.
    + split; [|reflexivity]. intros _. exists [], []. rewrite E. split; [reflexivity | discriminate].
    + split; [discriminate|].
      intros (p & e & Es & He). symmetry in Es. apply app_eq_nil in Es as [_ ->]. congruence.
  - cbn [search]. destruct (m (c :: s)) eqn:E.
    + split; [|reflexivity]. intros _. exists [], (c :: s). rewrite E.
      split; [reflexivity | discriminate].
    + rewrite IH. split.
      * intros (p & e & -> & He). exists (c :: p), e. auto.
      * intros (p & e & Es & He). destruct p as [|c' p].
        -- simpl in Es. subst e. congruence.
        -- injection Es as _ ->. exists p, e. auto.
Qed.

(** X21: [assertYamlPath] accepts exactly the paths that end in ".yml"
    or ".yaml", in any mix of upper and lower case, and throws
    "invalid_workflow_path" for every other path. *)
Theorem assertYamlPath_ends_yaml (pathname : jsstring) :
  (assertYamlPath pathname = Return tt <-> ends_yaml pathname)
  /\ (assertYamlPath pathname = Return tt
      \/ assertYamlPath pathname = Throw "invalid_workflow_path").
Proof.
  unfold assertYamlPath, ends_yaml.
  destruct (search yaml_ext_at pathname) eqn:E; simpl.
  - split; [|left; reflexivity]. split; [intros _|reflexivity].
    apply search_ok in E as (p & e & -> & He). exists p, e. split; [reflexivity|].
    rewrite yaml_ext_at_eq in He. destruct (is_yaml_ext e); congruence.
  - split; [|right; reflexivity].
    split; [discriminate|]. intros (p & e & -> & He). exfalso.
    assert (S : search yaml_ext_at (p ++ e) = true).
    { apply search_ok. exists p, e. split; [reflexivity|].
      rewrite yaml_ext_at_eq, He. discriminate. }
    congruence.
Qed.

Lemma assertYamlPath_cases s :
  (assertYamlPath s = Return tt /\ ends_yaml s)
  \/ assertYamlPath s = Throw "invalid_workflow_path".
Proof.
  unfold assertYamlPath. destruct (search yaml_ext_at s) eqn:E; simpl.
  - left. split; [reflexivity|].
    apply search_ok in E as (p & e & -> & He). exists p, e. split; [reflexivity|].
    rewrite yaml_ext_at_eq in He. destruct (is_yaml_ext e); congruence.
  - right. reflexivity.
Qed.

(** *** The address *)

(** X22: the address [sanitizeWorkflowUrl] returns is trimmed, not
    empty and at most 2048 code units long; sanitizing it again returns
    it unchanged. *)
Theorem sanitizeWorkflowUrl_fixed_point (payload : ImportPayload.t) (url : jsstring) :
  sanitizeWorkflowUrl payload = Return url ->
  url <> [] /\ Z.of_nat (List.length url) <= 2048 /\ trim url = url
  /\ sanitizeWorkflowUrl {| ImportPayload.workflowUrl := VString url |} = Return url.
Proof.
  unfold sanitizeWorkflowUrl. destruct payload as [v]. cbn [ImportPayload.workflowUrl].
  destruct (is_empty (string_or_empty trim v)
            || (2048 <? Z.of_nat (List.length (string_or_empty trim v)))) eqn:E;
    [discriminate|].
  intros [= <-]. apply orb_false_elim in E as [E1 E2].
  assert (T : trim (string_or_empty trim v) = string_or_empty trim v).
  { destruct v; simpl; try reflexivity. apply trim_idempotent. }
  split; [|split; [|split]].
  - intros H. rewrite H in E1. discriminate.
  - apply Z.ltb_ge in E2. exact E2.
  - exact T.
  - cbn [string_or_empty]. rewrite T, E1, E2. reflexivity.
Qed.

Lemma sanitizeWorkflowUrl_fixed_point_witness :
  lit "https://github.com/a/b" <> []
  /\ Z.of_nat (List.length (lit "https://github.com/a/b")) <= 2048
  /\ trim (lit "https://github.com/a/b") = lit "https://github.com/a/b"
  /\ sanitizeWorkflowUrl {| ImportPayload.workflowUrl := VString (lit "https://github.com/a/b") |}
     = Return (lit "https://github.com/a/b").
Proof.
  apply (sanitizeWorkflowUrl_fixed_point
           {| ImportPayload.workflowUrl := VString (lit "  https://github.com/a/b ") |}).
  reflexivity.
Defined.

(** *** [split] and [join] *)

Lemma split_on_piece sep x : forall acc rest,
  no_sep sep x ->
  split_on sep acc (x ++ rest) = split_on sep (rev x ++ acc) rest.
Proof.
  unfold no_sep. induction x as [|c x IH]; intros acc rest H; [reflexivity|].
  simpl in H. apply andb_prop in H as [Hc Hx].
  simpl. destruct (c =? sep)%N; [discriminate|].
  rewrite IH by exact Hx. rewrite <- app_assoc. reflexivity.
Qed.

Lemma split_on_join sep : forall parts,
  parts <> [] -> Forall (no_sep sep) parts ->
  split_on sep [] (join sep parts) = parts.
Proof.
  induction parts as [|p parts IH]; intros Hne H; [congruence|].
  inversion H as [|? ? Hp Hps]; subst.
  destruct parts as [|q parts].
  - simpl. rewrite <- (app_nil_r p) at 1.
    rewrite split_on_piece by exact Hp. simpl. rewrite app_nil_r, rev_involutive.
    reflexivity.
  - change (join sep (p :: q :: parts)) with (p ++ sep :: join sep (q :: parts)).
    rewrite split_on_piece by exact Hp. cbn [split_on]. rewrite N.eqb_refl.
    rewrite app_nil_r, rev_involutive. f_equal. apply IH; [discriminate | exact Hps].
Qed.

Lemma split_on_pieces sep : forall s acc,
  no_sep sep acc -> Forall (no_sep sep) (split_on sep acc s).
Proof.
  unfold no_sep. induction s as [|c s IH]; intros acc Hacc.
  - simpl. constructor; [|constructor].
    rewrite forallb_forall in *. intros x Hx. apply Hacc, in_rev, Hx.
  - simpl. destruct (c =? sep)%N eqn:E.
    + constructor.
      * rewrite forallb_forall in *. intros x Hx. apply Hacc, in_rev, Hx.
      * apply IH. reflexivity.
    + apply IH. simpl. rewrite E. exact Hacc.
Qed.

Lemma filter_Boolean_pieces sep s :
  Forall (fun x => no_sep sep x /\ x <> []) (filter_Boolean (split_on sep [] s)).
Proof.
  unfold filter_Boolean. apply Forall_forall. intros x Hx.
  apply filter_In in Hx as [Hin Hne].
  pose proof (split_on_pieces sep s [] eq_refl) as H.
  rewrite Forall_forall in H. split; [apply H, Hin|].
  intros ->. discriminate.
Qed.

Lemma filter_Boolean_id parts :
  Forall (fun x : jsstring => x <> []) parts -> filter_Boolean parts = parts.
Proof.
  unfold filter_Boolean. induction 1 as [|x l Hx _ IH]; [reflexivity|].
  simpl. destruct x; [congruence|]. simpl. rewrite IH. reflexivity.
Qed.

(** *** [resolveRawWorkflowUrl] *)

Lemma str_eqb_lit a (l : string) : str_eqb a (lit l) = true <-> a = lit l.
Proof.
  split; [apply str_eqb_true | intros ->; apply str_eqb_refl].
Qed.

Section Resolved.
Variable new_URL : jsstring -> option URL.

(** What a successful call went through. *)
Lemma resolve_cases url r :
  resolveRawWorkflowUrl new_URL url = Return r ->
  exists parsed,
    new_URL url = Some parsed /\ protocol parsed = lit "https:"
    /\ ((toLowerCase (hostname parsed) = lit "raw.githubusercontent.com"
         /\ ends_yaml (pathname parsed) /\ r = href parsed)
        \/ (toLowerCase (hostname parsed) = lit "github.com"
            /\ exists owner repo mode ref f1 f2 fs,
                 filter_Boolean (split_on SLASH [] (pathname parsed))
                 = owner :: repo :: mode :: ref :: f1 :: f2 :: fs
                 /\ (mode = lit "blob" \/ mode = lit "raw")
                 /\ ends_yaml (join SLASH (f1 :: f2 :: fs))
                 /\ r = lit "https://raw.githubusercontent.com/"
                        ++ join SLASH (owner :: repo :: ref :: f1 :: f2 :: fs))).
Proof.
  unfold resolveRawWorkflowUrl.
  destruct (new_URL url) as [parsed|]; [|discriminate].
  destruct (str_eqb (protocol parsed) (lit "https:")) eqn:Ep; [|discriminate].
  apply str_eqb_lit in Ep. cbn [negb].
  intros H. exists parsed. split; [reflexivity|]. split; [exact Ep|].
  destruct (str_eqb (toLowerCase (hostname parsed)) (lit "raw.githubusercontent.com")) eqn:Eh.
  - left. apply str_eqb_lit in Eh.
    destruct (assertYamlPath_cases (pathname parsed)) as [[E Y]|E];
      rewrite E in H; [|discriminate].
    injection H as <-. auto.
  - right.
    destruct (str_eqb (toLowerCase (hostname parsed)) (lit "github.com")) eqn:Eg;
      [|discriminate].
    apply str_eqb_lit in Eg. cbn [negb] in H. split; [exact Eg|].
    destruct (filter_Boolean (split_on SLASH [] (pathname parsed)))
      as [|owner [|repo [|mode [|ref [|f1 [|f2 fs]]]]]]; try discriminate H.
    replace (Z.of_nat (List.length (owner :: repo :: mode :: ref :: f1 :: f2 :: fs)) <? 6)
      with false in H
      by (symmetry; apply Z.ltb_ge; cbn [List.length]; lia).
    destruct (negb (str_eqb mode (lit "blob")) && negb (str_eqb mode (lit "raw"))) eqn:Em;
      [discriminate|]. cbn [orb] in H.
    destruct (is_empty owner || is_empty repo || is_empty ref
              || (Z.of_nat (List.length (f1 :: f2 :: fs)) =? 0)); [discriminate|].
    destruct (assertYamlPath_cases (join SLASH (f1 :: f2 :: fs))) as [[E Y]|E];
      rewrite E in H; [|discriminate].
    injection H as <-.
    exists owner, repo, mode, ref, f1, f2, fs.
    split; [reflexivity|]. split; [|split; [exact Y | reflexivity]].
    apply andb_false_elim in Em as [Em|Em]; apply negb_false_iff, str_eqb_lit in Em; auto.
Qed.

(** X23: whatever the address, a resolved URL points to
    raw.githubusercontent.com over https: it is either the given
    address itself, an https address on that host whose path ends in
    ".yml" or ".yaml", or a text that starts with
    "https://raw.githubusercontent.com/" and ends in ".yml" or ".yaml". *)
Theorem resolved_url_host (url r : jsstring) :
  resolveRawWorkflowUrl new_URL url = Return r ->
  exists parsed,
    new_URL url = Some parsed /\ protocol parsed = lit "https:"
    /\ ((toLowerCase (hostname parsed) = lit "raw.githubusercontent.com"
         /\ ends_yaml (pathname parsed) /\ r = href parsed)
        \/ (toLowerCase (hostname parsed) = lit "github.com"
            /\ startsWith (lit "https://raw.githubusercontent.com/") r = true
            /\ ends_yaml r)).
Proof.
  intros H. apply resolve_cases in H as (parsed & E & Ep & H).
  exists parsed. split; [exact E|]. split; [exact Ep|].
  destruct H as [H|(Eg & owner & repo & mode & ref & f1 & f2 & fs & _ & _ & Y & ->)].
  - left. exact H.
  - right. split; [exact Eg|]. split; [reflexivity|].
    destruct Y as (p & e & Ef & He).
    exists (lit "https://raw.githubusercontent.com/"
            ++ owner ++ SLASH :: repo ++ SLASH :: ref ++ SLASH :: p), e.
    split; [|exact He].
    change (join SLASH (owner :: repo :: ref :: f1 :: f2 :: fs))
      with (owner ++ SLASH :: repo ++ SLASH :: ref ++ SLASH :: join SLASH (f1 :: f2 :: fs)).
    rewrite Ef. repeat (rewrite <- app_assoc; cbn [app]). reflexivity.
Qed.

(** X24: a github.com address is resolved only when its path has at
    least six segments, owner, repository, "blob" or "raw", ref and
    a file path of two segments or more: the result lists the same
    segments without the third one, and splitting its path again gives
    them back. *)
Theorem github_path_round_trip (url r : jsstring) (parsed : URL) :
  resolveRawWorkflowUrl new_URL url = Return r ->
  new_URL url = Some parsed ->
  toLowerCase (hostname parsed) = lit "github.com" ->
  exists owner repo mode ref fileParts,
    filter_Boolean (split_on SLASH [] (pathname parsed))
    = owner :: repo :: mode :: ref :: fileParts
    /\ (mode = lit "blob" \/ mode = lit "raw")
    /\ (2 <= List.length fileParts)%nat
    /\ r = lit "https://raw.githubusercontent.com/"
           ++ join SLASH (owner :: repo :: ref :: fileParts)
    /\ filter_Boolean (split_on SLASH [] (join SLASH (owner :: repo :: ref :: fileParts)))
       = owner :: repo :: ref :: fileParts.
Proof.
  intros H E Eg. apply resolve_cases in H as (parsed' & E' & _ & H).
  rewrite E in E'. injection E' as <-.
  destruct H as [(Eh & _)|(_ & owner & repo & mode & ref & f1 & f2 & fs & Es & Em & _ & ->)].
  - rewrite Eg in Eh. discriminate.
  - exists owner, repo, mode, ref, (f1 :: f2 :: fs).
    split; [exact Es|]. split; [exact Em|]. split; [simpl; lia|]. split; [reflexivity|].
    pose proof (filter_Boolean_pieces SLASH (pathname parsed)) as P.
    rewrite Es in P.
    assert (Q : Forall (fun x => no_sep SLASH x /\ x <> [])
                  (owner :: repo :: ref :: f1 :: f2 :: fs)).
    { inversion P as [|? ? P1 P2]; subst. inversion P2 as [|? ? P3 P4]; subst.
      inversion P4 as [|? ? P5 P6]; subst.
      constructor; [exact P1|]. constructor; [exact P3|]. exact P6. }
    rewrite split_on_join.
    + apply filter_Boolean_id. apply Forall_impl with (2 := Q). tauto.
    + discriminate.
    + apply Forall_impl with (2 := Q). tauto.
Qed.

End Resolved.

Lemma resolved_url_host_witness :
  exists parsed,
    parse_checkout (href checkout_blob) = Some parsed /\ protocol parsed = lit "https:"
    /\ ((toLowerCase (hostname parsed) = lit "raw.githubusercontent.com"
         /\ ends_yaml (pathname parsed)
         /\ lit "https://raw.githubusercontent.com/actions/checkout/main/.github/workflows/test.yml"
            = href parsed)
        \/ (toLowerCase (hostname parsed) = lit "github.com"
            /\ startsWith (lit "https://raw.githubusercontent.com/")
                 (lit "https://raw.githubusercontent.com/actions/checkout/main/.github/workflows/test.yml")
               = true
            /\ ends_yaml
                 (lit "https://raw.githubusercontent.com/actions/checkout/main/.github/workflows/test.yml"))).
Proof.
  apply (resolved_url_host parse_checkout (href checkout_blob)). reflexivity.
Defined.

Lemma github_path_round_trip_witness :
  exists owner repo mode ref fileParts,
    filter_Boolean (split_on SLASH [] (pathname checkout_blob))
    = owner :: repo :: mode :: ref :: fileParts
    /\ (mode = lit "blob" \/ mode = lit "raw")
    /\ (2 <= List.length fileParts)%nat
    /\ lit "https://raw.githubusercontent.com/actions/checkout/main/.github/workflows/test.yml"
       = lit "https://raw.githubusercontent.com/"
           ++ join SLASH (owner :: repo :: ref :: fileParts)
    /\ filter_Boolean (split_on SLASH [] (join SLASH (owner :: repo :: ref :: fileParts)))
       = owner :: repo :: ref :: fileParts.
Proof.
  apply (github_path_round_trip parse_checkout (href checkout_blob)); reflexivity.
Defined.

(** *** [fetchWorkflowYaml] *)

Lemma byteLength_length : forall n s,
  (List.length s <= n)%nat -> Z.of_nat (List.length s) <= byteLength s.
Proof.
  induction n as [|n IH]; intros s Hn.
  - destruct s; [simpl; lia | simpl in Hn; lia].
  - destruct s as [|c s]; [simpl; lia|].
    assert (Hs : (List.length s <= n)%nat) by (simpl in Hn; lia).
    pose proof (IH s Hs) as I1.
    cbn [byteLength]. change (List.length (c :: s)) with (S (List.length s)).
    destruct (c <? 128)%N; [lia|].
    destruct (c <? 2048)%N; [lia|].
    destruct (is_high_surrogate c); [|lia].
    destruct s as [|d s']; [simpl; lia|].
    destruct (is_low_surrogate d); [|lia].
    assert (Hs' : (List.length s' <= n)%nat) by (simpl in Hs; lia).
    pose proof (IH s' Hs'). change (List.length (d :: s')) with (S (List.length s')). lia.
Qed.

Lemma fetch_ok rawWorkflowUrl fetchFn y :
  fetchWorkflowYaml rawWorkflowUrl fetchFn = Ok y ->
  fetch_attempt (fetchFn rawWorkflowUrl) = Ok y.
Proof.
  unfold fetchWorkflowYaml.
  destruct (fetch_attempt (fetchFn rawWorkflowUrl)) as [y'|[name message|]].
  - intros [= ->]. reflexivity.
  - destruct (str_eqb name (lit "AbortError")); [discriminate|].
    destruct (test WorkflowImport.re_workflow_message message); discriminate.
  - discriminate.
Qed.

(** X25: a text that [fetchWorkflowYaml] returns is not blank and has
    at most 100,000 bytes in UTF-8, hence at most 100,000 code units:
    the input sanitizer never rejects it as workflow text. *)
Theorem fetched_text_accepted (rawWorkflowUrl : jsstring)
    (fetchFn : jsstring -> fetch_result) (y : jsstring) :
  fetchWorkflowYaml rawWorkflowUrl fetchFn = Ok y ->
  trim y <> [] /\ byteLength y <= 100000
  /\ Z.of_nat (List.length y) <= 100000
  /\ workflow_rejected (VString y) = false.
Proof.
  intros H. apply fetch_ok in H. unfold fetch_attempt in H.
  destruct (fetchFn rawWorkflowUrl) as [ok [text|e]|e]; try discriminate H.
  - destruct ok; [|discriminate H]. cbn [negb] in H.
    destruct (is_empty (trim text)) eqn:E1; [discriminate H|].
    destruct (MAX_WORKFLOW_YAML_BYTES <? byteLength text) eqn:E2; [discriminate H|].
    injection H as <-. apply Z.ltb_ge in E2. unfold MAX_WORKFLOW_YAML_BYTES in E2.
    pose proof (byteLength_length _ text (Nat.le_refl _)) as L.
    pose proof (trim_length text) as T.
    split; [intros N; rewrite N in E1; discriminate|].
    split; [exact E2|]. split; [lia|].
    unfold workflow_rejected. cbn [string_or_empty]. rewrite E1. cbn [orb].
    apply Z.ltb_ge. lia.
  - destruct ok; discriminate H.
Qed.

Lemma fetched_text_accepted_witness :
  let y := Props.unlines ["name: CI"; "on: [push]"]%string in
  trim y <> [] /\ byteLength y <= 100000
  /\ Z.of_nat (List.length y) <= 100000
  /\ workflow_rejected (VString y) = false.
Proof.
  apply (fetched_text_accepted [] fetch_two_lines). reflexivity.
Defined.

Lemma workflow_code_reported name message :
  test WorkflowImport.re_workflow_message message = true ->
  error_response (ThrownError name message) = (400, message).
Proof.
  intros H. unfold error_response.
  rewrite safeErrorCode_not_too_large. unfold safeErrorCode.
  change Server.re_workflow with WorkflowImport.re_workflow_message.
  rewrite H, orb_true_r. reflexivity.
Qed.

(** X26: every error of the import reaches the client under its own
    code, with status 400: the "invalid_..." codes of
    [sanitizeWorkflowUrl] and [resolveRawWorkflowUrl], and for
    [fetchWorkflowYaml] an [Error] whose message has the form
    "workflow_..." (its own four codes, or such a message of the
    transport). *)
Theorem import_errors_reported :
  (forall payload message,
     sanitizeWorkflowUrl payload = Throw message ->
     error_response (new_Error message) = (400, lit message))
  /\ (forall new_URL url message,
        resolveRawWorkflowUrl new_URL url = Throw message ->
        error_response (new_Error message) = (400, lit message))
  /\ (forall rawWorkflowUrl fetchFn e,
        fetchWorkflowYaml rawWorkflowUrl fetchFn = Raise e ->
        exists name message,
          e = ThrownError name message
          /\ test WorkflowImport.re_workflow_message message = true
          /\ error_response e = (400, message)).
Proof.
  split; [|split].
  - intros payload message. unfold sanitizeWorkflowUrl.
    destruct (is_empty _ || _); [intros [= <-]; reflexivity | discriminate].
  - intros new_URL url message. unfold resolveRawWorkflowUrl.
    destruct (new_URL url) as [parsed|]; [|intros [= <-]; reflexivity].
    destruct (negb (str_eqb (protocol parsed) (lit "https:")));
      [intros [= <-]; reflexivity|].
    destruct (str_eqb (toLowerCase (hostname parsed)) (lit "raw.githubusercontent.com")).
    { destruct (assertYamlPath_cases (pathname parsed)) as [[E _]|E]; rewrite E;
        [discriminate | intros [= <-]; reflexivity]. }
    destruct (negb (str_eqb (toLowerCase (hostname parsed)) (lit "github.com")));
      [intros [= <-]; reflexivity|].
    destruct (Z.of_nat (List.length _) <? 6); [intros [= <-]; reflexivity|].
    destruct (filter_Boolean (split_on SLASH [] (pathname parsed)))
      as [|owner [|repo [|mode [|ref fileParts]]]];
      try (intros [= <-]; reflexivity).
    destruct (_ || _); [intros [= <-]; reflexivity|].
    destruct (assertYamlPath_cases (join SLASH fileParts)) as [[E _]|E]; rewrite E;
      [discriminate | intros [= <-]; reflexivity].
  - intros rawWorkflowUrl fetchFn e. unfold fetchWorkflowYaml.
    assert (N : forall code : string,
      test WorkflowImport.re_workflow_message (lit code) = true ->
      exists name message,
        new_Error code = ThrownError name message
        /\ test WorkflowImport.re_workflow_message message = true
        /\ error_response (new_Error code) = (400, message)).
    { intros code Hc. exists (lit "Error"), (lit code).
      split; [reflexivity|]. split; [exact Hc|].
      apply workflow_code_reported. exact Hc. }
    destruct (fetch_attempt (fetchFn rawWorkflowUrl)) as [y|[name message|]];
      [discriminate| |].
    + destruct (str_eqb name (lit "AbortError")).
      { intros [= <-]. apply N. reflexivity. }
      destruct (test WorkflowImport.re_workflow_message message) eqn:Et.
      * intros [= <-]. exists name, message.
        split; [reflexivity|]. split; [exact Et|].
        apply workflow_code_reported. exact Et.
      * intros [= <-]. apply N. reflexivity.
    + intros [= <-]. apply N. reflexivity.
Qed.

End ImportFacts.

(* ================================================================== *)
(** ** The minutes are exact *)
(* ================================================================== *)

Module MinuteFacts.
Import Values Invariants Examples Reading Amounts Minutes.
Import JsString Regex JsNumber Estimator Props AggregateFacts.
Import Binary64 MoneyFacts SizeFacts TotalFacts ScanMore AggregateMore AmountFacts.
Local Open Scope list_scope.
Local Open Scope R_scope.

(** *** Sums that need no rounding *)

(** Rounding a number that fits the format returns it. *)
Lemma binary_round_exact p e :
  let x := F2R (Zpos p) e in
  bpow (-1022) <= x < bpow 1023 ->
  (exists k, x = F2R k (Zpos (digits2_pos p) + e - 53)) ->
  B2R (binary_round prec emax false p e) = x.
Proof.
  intros x Hx Hk.
  destruct (Z_lt_le_dec (Zpos p) (2 ^ 53)) as [L|L].
  - destruct (binary_round_correct p e Hx) as (_ & _ & H). apply H. exact L.
  - pose proof (range_of_value _ _ Hx) as Hr.
    set (e1 := (Zpos (digits2_pos p) + e - 53)%Z) in *.
    assert (Hd : (54 <= Zpos (digits2_pos p))%Z).
    { apply digits2_ge. exact L. }
    unfold binary_round. rewrite fexp_normal by (unfold e1 in Hr; lia). fold e1.
    unfold shl_align.
    destruct (e1 - e)%Z as [|q|q] eqn:Eq; [unfold e1 in Eq; lia | | unfold e1 in Eq; lia].
    destruct (binary_round_aux_correct p e loc_Exact x)
      as (_ & _ & _ & Hex); [reflexivity | fold e1; lia | fold e1; lia |].
    apply Hex. exact Hk.
Qed.

(** The sum of two whole numbers of halves, below 2^51. *)
Lemma add_halves x y h1 h2 :
  pnormal x -> pnormal y ->
  B2R x = IZR h1 / 2 -> B2R y = IZR h2 / 2 ->
  (h1 + h2 <= 2 ^ 52)%Z ->
  pnormal (add x y) /\ B2R (add x y) = IZR (h1 + h2) / 2.
Proof.
  intros Hx Hy Vx Vy Hh.
  pose proof (pnormal_bounds _ Hx) as [Hx1 _]. pose proof (pnormal_pos _ Hy) as Hy1.
  assert (Hs : B2R x + B2R y = IZR (h1 + h2) / 2) by (rewrite plus_IZR, Vx, Vy; lra).
  assert (Hlt : B2R x + B2R y <= bpow 51).
  { rewrite Hs, (bpow_IZR 51) by lia. apply IZR_le in Hh.
    change (2 ^ 52)%Z with 4503599627370496%Z in Hh.
    change (2 ^ 51)%Z with 2251799813685248%Z. lra. }
  clear Vx Vy.
  destruct Hx as (mx & ex & -> & _ & _). destruct Hy as (my & ey & -> & _ & _).
  unfold add. cbn [SFadd cond_Zopp]. cbn [B2R cond_Zopp] in *.
  set (ez := Z.min ex ey).
  rewrite <- (shl_align_value mx ex ez), <- (shl_align_value my ey ez) in * by (unfold ez; lia).
  set (a := fst (shl_align mx ex ez)) in *. set (b := fst (shl_align my ey ez)) in *.
  rewrite <- F2R_plus in *. rewrite <- Pos2Z.inj_add in *. cbn [binary_normalize].
  assert (Hr : bpow (-1022) <= F2R (Zpos (a + b)) ez < bpow 1023).
  { split.
    - rewrite Pos2Z.inj_add, F2R_plus. lra.
    - apply Rle_lt_trans with (1 := Hlt). apply bpow_lt. lia. }
  destruct (binary_round_correct (a + b) ez Hr) as (Hp & _ & _).
  split; [exact Hp|]. rewrite <- Hs.
  apply binary_round_exact; [exact Hr|].
  set (d := Zpos (digits2_pos (a + b))).
  assert (Hd : (d + ez <= 52)%Z).
  { pose proof (digits2_bounds (a + b)) as [D1 _]. fold d in D1.
    assert (L : bpow (d - 1 + ez) < bpow 52).
    { rewrite <- F2R_bpow by (unfold d; lia).
      apply Rle_lt_trans with (F2R (Zpos (a + b)) ez); [apply F2R_le; exact D1|].
      apply Rle_lt_trans with (1 := Hlt). apply bpow_lt. lia. }
    apply bpow_lt_inv in L. lia. }
  exists ((h1 + h2) * 2 ^ (- 1 - (d + ez - 53)))%Z.
  rewrite F2R_shift by lia. rewrite Hs. unfold F2R.
  replace (- 1 - (d + ez - 53) + (d + ez - 53))%Z with (- (1))%Z by lia.
  rewrite bpow_opp, bpow_1. lra.
Qed.

(** The half minutes of a double that is a whole number of halves. *)
Lemma halves_intro z h :
  pnormal z -> B2R z = IZR h / 2 -> half_minutes z = h /\ whole_halves z.
Proof.
  intros Pz Vz.
  assert (E : half_minutes z = h).
  { destruct Pz as (m & e & -> & _ & _). cbn [B2R cond_Zopp half_minutes] in *.
    unfold F2R in Vz. pose proof (bpow_pos e) as Be.
    destruct (Z_le_gt_dec 0 (e + 1)) as [L|L].
    - rewrite Z.shiftl_mul_pow2 by exact L. apply eq_IZR.
      rewrite mult_IZR, <- bpow_IZR, bpow_succ by exact L.
      set (P := IZR (Zpos m) * bpow e) in *.
      replace (IZR (Zpos m) * (2 * bpow e)) with (2 * P) by (unfold P; ring). lra.
    - rewrite Z.shiftl_div_pow2 by lia.
      assert (Em : Zpos m = (h * 2 ^ (- (e + 1)))%Z).
      { apply eq_IZR. rewrite mult_IZR, <- bpow_IZR by lia.
        rewrite bpow_opp, bpow_succ.
        set (P := IZR (Zpos m) * bpow e) in *.
        replace (IZR (Zpos m)) with (P * / bpow e) by (unfold P; field; lra).
        replace (IZR h) with (2 * P) by lra. field. lra. }
      rewrite Em. apply Z.div_mul. apply Z.pow_nonzero; lia. }
  split; [exact E|]. split; [exact Pz|]. rewrite E. exact Vz.
Qed.

Lemma bpow_neg_IZR n : (0 <= n)%Z -> bpow (- n) = / IZR (2 ^ n).
Proof. intros H. rewrite bpow_opp, bpow_IZR by exact H. reflexivity. Qed.

Lemma uses_exact :
  pnormal STEP_MINUTES_uses /\ B2R STEP_MINUTES_uses = IZR 3 / 2.
Proof.
  replace STEP_MINUTES_uses with (S754_finite false 6755399441055744 (-52))
    by (vm_compute; reflexivity).
  split.
  - exists 6755399441055744%positive, (-52)%Z.
    split; [reflexivity|]. split; [reflexivity | lia].
  - cbn [B2R cond_Zopp]. unfold F2R. change (-52)%Z with (- (52))%Z.
    rewrite bpow_neg_IZR by lia. change (2 ^ 52)%Z with 4503599627370496%Z. lra.
Qed.

Lemma run_exact :
  pnormal STEP_MINUTES_run /\ B2R STEP_MINUTES_run = IZR 6 / 2.
Proof. destruct run_spec as [P V]. split; [exact P|]. rewrite V. lra. Qed.

Lemma new_job_exact : job_exact new_job /\ half_minutes (Job.minutes new_job) = 4%Z.
Proof.
  destruct two_spec as [P V].
  destruct (halves_intro (of_Z 2) 4 P) as [E W]; [rewrite V; lra|].
  split; [|exact E]. split; [apply new_job_sized | exact W].
Qed.

Lemma fallback_exact :
  job_exact fallback_job /\ half_minutes (Job.minutes fallback_job) = 17%Z.
Proof.
  assert (P : pnormal (decimal 85 1)) by apply fallback_minutes_spec.
  assert (V : B2R (decimal 85 1) = IZR 17 / 2).
  { replace (decimal 85 1) with (S754_finite false 4785074604081152 (-49))
      by (vm_compute; reflexivity).
    cbn [B2R cond_Zopp]. unfold F2R. change (-49)%Z with (- (49))%Z.
    rewrite bpow_neg_IZR by lia. change (2 ^ 49)%Z with 562949953421312%Z. lra. }
  destruct (halves_intro _ 17 P V) as [E W].
  split; [|exact E]. split; [apply fallback_job_sized | exact W].
Qed.

(** A step of 3 or 6 half minutes added to a job. *)
Lemma add_step_exact j m h :
  job_exact j -> (job_weight j < 1000000)%Z ->
  pnormal m -> B2R m = IZR h / 2 -> (3 <= h <= 6)%Z ->
  job_exact (add_step j m)
  /\ half_minutes (Job.minutes (add_step j m)) = (half_minutes (Job.minutes j) + h)%Z.
Proof.
  intros [Hs [Pj Vj]] Hw Pm Vm Hh.
  pose proof Hs as (Hs0 & _ & Hb).
  assert (Rh : 3 <= IZR h <= 6) by (split; apply IZR_le; lia).
  assert (Rw : IZR (job_weight j) <= 1000000) by (apply IZR_le; lia).
  assert (Hj8 : (half_minutes (Job.minutes j) <= 8000000)%Z).
  { apply le_IZR. lra. }
  destruct (add_halves _ _ _ _ Pj Pm Vj Vm) as [Pa Va].
  { apply Z.le_trans with 8000006%Z; [lia|]. apply Z.lt_le_incl. reflexivity. }
  destruct (halves_intro _ _ Pa Va) as [E W].
  cbn [add_step Job.minutes]. split; [|exact E].
  split; [|exact W].
  apply add_step_sized; auto. lra.
Qed.

(** *** The scanner *)

Local Open Scope Z_scope.

(** What a line does to an open job. *)
Lemma scan_line_cases st j rawLine :
  inJobs st = true -> currentJob st = Some j ->
  let st' := scan_line st rawLine in
  inJobs st' = true
  /\ ((isJobHeader (strip rawLine) = true
       /\ is_uses_line rawLine = false /\ is_run_line rawLine = false
       /\ jobs st' = push_current st /\ currentJob st' = Some new_job)
      \/ (isJobHeader (strip rawLine) = false
          /\ is_uses_line rawLine = true /\ is_run_line rawLine = false
          /\ jobs st' = jobs st
          /\ currentJob st' = Some (add_step j STEP_MINUTES_uses))
      \/ (isJobHeader (strip rawLine) = false
          /\ is_uses_line rawLine = false /\ is_run_line rawLine = true
          /\ jobs st' = jobs st
          /\ currentJob st' = Some (add_step j STEP_MINUTES_run))
      \/ (isJobHeader (strip rawLine) = false
          /\ is_uses_line rawLine = false /\ is_run_line rawLine = false
          /\ jobs st' = jobs st
          /\ exists j', currentJob st' = Some j'
                        /\ Job.steps j' = Job.steps j
                        /\ Job.minutes j' = Job.minutes j)).
Proof.
  intros Hin Hcur st'. subst st'. unfold is_uses_line, is_run_line.
  destruct (isJobHeader (strip rawLine)) eqn:Hh.
  - rewrite (scan_line_header _ _ Hin Hh). split; [reflexivity|]. left.
    assert (N : is_step_line rawLine = false).
    { destruct (is_step_line rawLine) eqn:E; [|reflexivity].
      apply step_line_not_header in E. congruence. }
    unfold is_step_line in N. apply orb_false_elim in N as [N1 N2].
    rewrite N1, N2. auto.
  - unfold scan_line. fold (strip rawLine). rewrite Hin, Hh, Hcur. cbn [negb andb orb].
    destruct (test re_uses (strip rawLine)) eqn:Eu.
    + assert (S : test re_uses (strip rawLine) = true \/ test re_run (strip rawLine) = true)
        by (left; exact Eu).
      pose proof (step_line_nonblank _ S) as Nb.
      rewrite (step_line_not_runs_on _ S).
      destruct (trim (strip rawLine)); [congruence|].
      split; [reflexivity|]. right. left. auto.
    + destruct (test re_run (strip rawLine)) eqn:Er.
      * assert (S : test re_uses (strip rawLine) = true \/ test re_run (strip rawLine) = true)
          by (right; exact Er).
        pose proof (step_line_nonblank _ S) as Nb.
        rewrite (step_line_not_runs_on _ S).
        destruct (trim (strip rawLine)); [congruence|].
        split; [reflexivity|]. right. right. left. auto.
      * cbn [negb andb].
        destruct (trim (strip rawLine)).
        { split; [exact Hin|]. right. right. right.
          repeat (split; [reflexivity|]). exists j. auto. }
        destruct (exec re_runs_on (strip rawLine)).
        -- split; [reflexivity|]. right. right. right.
           repeat (split; [reflexivity|]). eexists. split; [reflexivity|]. auto.
        -- split; [exact Hin|]. right. right. right.
           repeat (split; [reflexivity|]). exists j. auto.
Qed.

Lemma job_halves_snoc js j :
  job_halves (js ++ [j]) = job_halves js + half_minutes (Job.minutes j).
Proof.
  unfold job_halves. induction js as [|x js IH]; simpl; [lia|]. rewrite IH. lia.
Qed.

Lemma push_current_some st j : currentJob st = Some j -> push_current st = jobs st ++ [j].
Proof. unfold push_current. intros ->. reflexivity. Qed.

(** One line: the jobs stay exact and gain 4, 3 or 6 half minutes. *)
Lemma scan_line_exact st j rawLine n :
  inJobs st = true -> currentJob st = Some j ->
  scan_sized st n -> n < 1000000 ->
  Forall job_exact (push_current st) ->
  let st' := scan_line st rawLine in
  inJobs st' = true /\ currentJob st' <> None
  /\ Forall job_exact (push_current st')
  /\ job_halves (push_current st')
     = job_halves (push_current st)
       + (if isJobHeader (strip rawLine) then 4 else 0)
       + (if is_uses_line rawLine then 3 else 0)
       + (if is_run_line rawLine then 6 else 0).
Proof.
  intros Hin Hcur [Hsz Hw] Hn Hex st'.
  destruct (scan_line_cases st j rawLine Hin Hcur) as [Hi C]. fold st' in Hi, C.
  split; [exact Hi|].
  rewrite (push_current_some st j Hcur) in *.
  assert (Ej : job_exact j).
  { rewrite Forall_forall in Hex. apply Hex. apply in_or_app. right. left. reflexivity. }
  assert (Ejs : Forall job_exact (jobs st)).
  { apply Forall_app in Hex. tauto. }
  assert (Wj : job_weight j < 1000000).
  { rewrite total_weight_app in Hw.
    apply Forall_app in Hsz as [Hs1 _].
    pose proof (total_weight_nonneg _ Hs1). lia. }
  destruct C as [C|[C|[C|C]]].
  - destruct C as (-> & -> & -> & Ejobs & Ecur).
    split; [congruence|].
    rewrite (push_current_some st' new_job Ecur), Ejobs.
    destruct new_job_exact as [N1 N2].
    split.
    + apply Forall_app. split; [exact Hex|]. constructor; [exact N1 | constructor].
    + rewrite job_halves_snoc, N2. lia.
  - destruct C as (-> & -> & -> & Ejobs & Ecur).
    split; [congruence|].
    rewrite (push_current_some st' _ Ecur), Ejobs.
    destruct uses_exact as [Pu Vu].
    destruct (add_step_exact j STEP_MINUTES_uses 3 Ej Wj Pu Vu) as [A1 A2]; [lia|].
    split.
    + apply Forall_app. split; [exact Ejs|]. constructor; [exact A1 | constructor].
    + rewrite !job_halves_snoc, A2. lia.
  - destruct C as (-> & -> & -> & Ejobs & Ecur).
    split; [congruence|].
    rewrite (push_current_some st' _ Ecur), Ejobs.
    destruct run_exact as [Pu Vu].
    destruct (add_step_exact j STEP_MINUTES_run 6 Ej Wj Pu Vu) as [A1 A2]; [lia|].
    split.
    + apply Forall_app. split; [exact Ejs|]. constructor; [exact A1 | constructor].
    + rewrite !job_halves_snoc, A2. lia.
  - destruct C as (-> & -> & -> & Ejobs & j' & Ecur & Es & Em).
    split; [congruence|].
    rewrite (push_current_some st' _ Ecur), Ejobs.
    split.
    + apply Forall_app. split; [exact Ejs|]. constructor; [|constructor].
      destruct Ej as [[S1 [S2 S3]] W]. unfold job_exact, job_sized, job_weight.
      rewrite Es, Em. auto.
    + rewrite !job_halves_snoc, Em. lia.
Qed.

Lemma fold_exact : forall lines st j n,
  inJobs st = true -> currentJob st = Some j ->
  scan_sized st n -> n + Z.of_nat (List.length lines) <= 1000000 ->
  Forall job_exact (push_current st) ->
  let st' := fold_left scan_line lines st in
  Forall job_exact (push_current st')
  /\ job_halves (push_current st')
     = job_halves (push_current st)
       + 4 * Z.of_nat (List.length (header_lines lines))
       + 3 * Z.of_nat (List.length (filter is_uses_line lines))
       + 6 * Z.of_nat (List.length (filter is_run_line lines)).
Proof.
  induction lines as [|l ls IH]; intros st j n Hin Hcur Hsz Hn Hex.
  - simpl. split; [exact Hex | lia].
  - cbn [fold_left]. cbn [List.length] in Hn.
    destruct (scan_line_exact st j l n Hin Hcur Hsz) as (Hi & Hc & He & Hh);
      [lia | exact Hex |].
    destruct (currentJob (scan_line st l)) as [j'|] eqn:Ej; [|congruence].
    destruct (IH (scan_line st l) j' (n + 1) Hi Ej) as [I1 I2].
    { apply scan_line_sized; [exact Hsz | lia]. }
    { lia. }
    { exact He. }
    split; [exact I1|]. rewrite I2, Hh.
    unfold header_lines. cbn [filter].
    destruct (isJobHeader (strip l)), (is_uses_line l), (is_run_line l);
      cbn [List.length]; lia.
Qed.

(** *** Division and [roundMoney] without rounding *)

Local Open Scope R_scope.

(** A double of [2^(e+52)] or more is a multiple of [2^e]. *)
Lemma pnormal_grid z e :
  pnormal z -> bpow (e + 52) <= B2R z -> exists k, B2R z = F2R k e.
Proof.
  intros (m & ez & -> & Hd & _) H. cbn [B2R cond_Zopp] in *.
  pose proof (digits2_bounds m) as [_ D2]. rewrite Hd in D2.
  assert (L : bpow (e + 52) < bpow (53 + ez)).
  { apply Rle_lt_trans with (1 := H). rewrite <- F2R_bpow by lia.
    unfold F2R. pose proof (bpow_pos ez). apply IZR_lt in D2. nra. }
  apply bpow_lt_inv in L.
  exists (Zpos m * 2 ^ (ez - e))%Z. rewrite F2R_shift by lia.
  f_equal. lia.
Qed.

(** A quotient that is a double is computed without rounding. *)
Lemma div_exact x y z :
  pnormal x -> pnormal y -> pnormal z ->
  bpow (-1020) <= B2R x / B2R y < bpow 1020 ->
  B2R x / B2R y = B2R z ->
  B2R (div x y) = B2R z.
Proof.
  intros (mx & ex & -> & Hdx & _) (my & ey & -> & Hdy & _) Pz Hv Ez.
  unfold div. cbn [SFdiv xorb]. cbn [B2R cond_Zopp] in *.
  pose proof (digits2_bounds mx) as [Hx1 Hx2]. rewrite Hdx in Hx1, Hx2.
  pose proof (digits2_bounds my) as [Hy1 Hy2]. rewrite Hdy in Hy1, Hy2.
  change (53 - 1)%Z with 52%Z in *.
  pose proof (bpow_pos ex) as Bx. pose proof (bpow_pos ey) as By.
  assert (PX : 0 < IZR (Zpos mx)) by (apply IZR_lt; lia).
  assert (PY : 0 < IZR (Zpos my)) by (apply IZR_lt; lia).
  (* the quotient as a ratio of mantissas *)
  assert (EQ : F2R (Zpos mx) ex / F2R (Zpos my) ey
               = IZR (Zpos mx) / IZR (Zpos my) * bpow (ex - ey)).
  { unfold F2R. replace (ex - ey)%Z with (ex + - ey)%Z by lia.
    rewrite bpow_plus, bpow_opp. field. split; lra. }
  assert (Hq1 : / 2 < IZR (Zpos mx) / IZR (Zpos my)).
  { apply Rmult_lt_reg_r with (IZR (Zpos my)); [exact PY|].
    unfold Rdiv. rewrite Rmult_assoc, Rinv_l by lra.
    apply IZR_le in Hx1. apply IZR_lt in Hy2.
    change (IZR (2 ^ 52)) with 4503599627370496 in Hx1.
    change (IZR (2 ^ 53)) with 9007199254740992 in Hy2. lra. }
  assert (Hq2 : IZR (Zpos mx) / IZR (Zpos my) < 2).
  { apply Rmult_lt_reg_r with (IZR (Zpos my)); [exact PY|].
    unfold Rdiv. rewrite Rmult_assoc, Rinv_l by lra.
    apply IZR_le in Hy1. apply IZR_lt in Hx2.
    change (IZR (2 ^ 52)) with 4503599627370496 in Hy1.
    change (IZR (2 ^ 53)) with 9007199254740992 in Hx2. lra. }
  assert (Hexp : (-1020 <= ex - ey <= 1020)%Z).
  { rewrite EQ in Hv. destruct Hv as [V1 V2].
    pose proof (bpow_pos (ex - ey)) as Bd.
    assert (L : bpow (-1020) < bpow (ex - ey + 1)) by (rewrite bpow_succ; nra).
    assert (U : bpow (ex - ey - 1) < bpow 1020).
    { replace (ex - ey)%Z with (ex - ey - 1 + 1)%Z in V2, Bd by lia.
      rewrite bpow_succ in V2, Bd. nra. }
    apply bpow_lt_inv in L, U. lia. }
  (* the integer division *)
  unfold SFdiv_core_binary. cbn [Zdigits2]. rewrite Hdx, Hdy.
  replace (53 + ex - (53 + ey))%Z with (ex - ey)%Z by lia.
  rewrite fexp_normal by lia.
  replace (Z.min (ex - ey - 53) (ex - ey)) with (ex - ey - 53)%Z by lia.
  replace (ex - ey - (ex - ey - 53))%Z with 53%Z by lia.
  rewrite Z.shiftl_mul_pow2 by lia.
  pose proof (Z_div_mod (Zpos mx * 2 ^ 53) (Zpos my) ltac:(lia)) as Hdiv.
  destruct (Z.div_eucl (Zpos mx * 2 ^ 53) (Zpos my)) as [q r].
  destruct Hdiv as [Hqr Hr].
  assert (Hqlo : (2 ^ 52 <= q)%Z) by nia.
  assert (Hqhi : (q < 2 ^ 54)%Z) by nia.
  destruct q as [|q|q]; [lia| |lia].
  set (e' := (ex - ey - 53)%Z).
  assert (Hin : inbetween (Zpos q) e' (F2R (Zpos mx) ex / F2R (Zpos my) ey)
                  (new_location (Zpos my) r)).
  { apply new_location_inbetween; [lia | lia |].
    rewrite EQ. unfold F2R.
    replace (ex - ey)%Z with (53 + e')%Z by (unfold e'; lia).
    rewrite bpow_plus, (bpow_IZR 53) by lia.
    assert (E : IZR (Zpos mx) * IZR (2 ^ 53) = IZR (Zpos my) * IZR (Zpos q) + IZR r).
    { rewrite <- !mult_IZR, <- plus_IZR. f_equal. exact Hqr. }
    field_simplify_eq; [|lra]. rewrite E. ring. }
  assert (Hd1 : (53 <= Zpos (digits2_pos q))%Z) by (apply digits2_ge; exact Hqlo).
  assert (Hd2 : (Zpos (digits2_pos q) <= 54)%Z).
  { pose proof (digits2_bounds q) as [H1 _].
    destruct (Z_lt_le_dec 54 (Zpos (digits2_pos q))) as [L|L]; [|exact L].
    assert (2 ^ 54 <= 2 ^ (Zpos (digits2_pos q) - 1))%Z by (apply Z.pow_le_mono_r; lia).
    lia. }
  destruct (binary_round_aux_correct q e' _ _ Hin) as (_ & _ & Hlo & Hex);
    [lia | unfold e'; lia |].
  rewrite Hex; [exact Ez|]. rewrite Ez in *.
  apply pnormal_grid; assumption.
Qed.

(** [roundMoney] keeps a whole number of half minutes. *)
Lemma roundMoney_halves x h :
  pnormal x -> B2R x = IZR h / 2 -> (1 <= h <= 20000000)%Z ->
  roundMoney x = of_cents (50 * h)
  /\ pnormal (roundMoney x) /\ B2R (roundMoney x) = IZR h / 2.
Proof.
  intros Px Vx [H1 H2].
  pose proof (IZR_le _ _ H1) as R1. pose proof (IZR_le _ _ H2) as R2.
  destruct (roundMoney_spec x Px) as (n & _ & E & Hr & Pr & _); [lra|].
  apply Rabs_le_inv in Hr. unfold u in Hr.
  assert (L1 : IZR n < IZR (50 * h + 1)) by (rewrite plus_IZR, mult_IZR; lra).
  assert (L2 : IZR (50 * h - 1) < IZR n) by (rewrite minus_IZR, mult_IZR; lra).
  apply lt_IZR in L1, L2. assert (En : n = (50 * h)%Z) by lia. subst n.
  split; [exact E|]. split; [exact Pr|].
  rewrite E, <- Vx.
  destruct (of_Z_spec (50 * h)) as [Pn Vn]; [lia|].
  destruct hundred_spec as [Ph Vh].
  apply div_exact; [exact Pn | exact Ph | exact Px | |];
    rewrite Vn, Vh, mult_IZR.
  - split.
    + apply Rle_trans with (bpow (- (1))); [apply bpow_le; lia|].
      rewrite bpow_opp, bpow_1. lra.
    + apply Rlt_le_trans with (bpow 40); [rewrite bpow_40; lra | apply bpow_le; lia].
  - rewrite Vx. field.
Qed.

(** *** The aggregation *)

Lemma entry_halves_set : forall m k v,
  entry_halves (List.map snd (map_set m k v))
  = (entry_halves (List.map snd m)
     - match map_get m k with
       | Some e => half_minutes (OsEstimate.minutesPerRun e)
       | None => 0
       end
     + half_minutes (OsEstimate.minutesPerRun v))%Z.
Proof.
  induction m as [|[k' v'] m IH]; intros k v; cbn [map_set map_get].
  - cbn [List.map entry_halves fold_right snd]. lia.
  - destruct (String.eqb k' k).
    + cbn [List.map entry_halves fold_right snd]. fold (entry_halves (List.map snd m)). lia.
    + cbn [List.map entry_halves fold_right snd].
      fold (entry_halves (List.map snd m)).
      fold (entry_halves (List.map snd (map_set m k v))). rewrite IH. lia.
Qed.

Lemma add_job_exact m job t :
  map_exact t m -> job_exact job ->
  (0 <= t)%Z -> (t + job_weight job <= 1000000)%Z ->
  map_exact (t + job_weight job) (add_job m job)
  /\ entry_halves (List.map snd (add_job m job))
     = (entry_halves (List.map snd m) + half_minutes (Job.minutes job))%Z.
Proof.
  intros Hm [(Hs & _ & Vj) [Pj Wj]] Ht Hw.
  assert (Hw1 : (1 <= job_weight job)%Z) by (unfold job_weight; lia).
  pose proof (IZR_le _ _ Hw1) as RW1. pose proof (IZR_le _ _ Hw) as RW.
  pose proof (IZR_le _ _ Ht) as RT. rewrite plus_IZR in RW.
  unfold add_job.
  set (v := add (OsEstimate.minutesPerRun
                   match map_get m (Job.os job) with
                   | Some e => e
                   | None => _
                   end) (Job.minutes job)).
  assert (V : whole_halves v
              /\ 2 <= B2R v <= 4 * IZR (t + job_weight job)
              /\ half_minutes v
                 = (match map_get m (Job.os job) with
                    | Some e => half_minutes (OsEstimate.minutesPerRun e)
                    | None => 0
                    end + half_minutes (Job.minutes job))%Z).
  { unfold v. destruct (map_get m (Job.os job)) as [e|] eqn:E.
    - apply map_get_In in E as [k' Hin]. unfold map_exact in Hm.
      rewrite Forall_forall in Hm. destruct (Hm _ Hin) as [[Pe We] Ve]. cbn [snd] in *.
      destruct (add_halves _ _ _ _ Pe Pj We Wj) as [Pa Va].
      { assert (L : IZR (half_minutes (OsEstimate.minutesPerRun e)
                         + half_minutes (Job.minutes job)) <= IZR 8000000)
          by (rewrite plus_IZR; lra).
        apply le_IZR in L. apply Z.le_trans with (1 := L).
        apply Z.lt_le_incl. reflexivity. }
      destruct (halves_intro _ _ Pa Va) as [Eh Wh].
      split; [exact Wh|]. split; [|exact Eh].
      rewrite Va, !plus_IZR. lra.
    - cbn [OsEstimate.minutesPerRun]. rewrite (add_pos_zero _ Pj).
      split; [split; assumption|]. split; [|lia]. rewrite plus_IZR. lra. }
  destruct V as (Wv & Bv & Hv).
  split.
  - apply map_set_Forall.
    + unfold map_exact in Hm. rewrite Forall_forall in *. intros kv Hin.
      destruct (Hm kv Hin) as [W B]. split; [exact W|]. rewrite plus_IZR. lra.
    + intros k0. split; cbn [snd OsEstimate.minutesPerRun]; assumption.
  - rewrite entry_halves_set. cbn [OsEstimate.minutesPerRun]. fold v. rewrite Hv. lia.
Qed.

Lemma fold_add_job_exact : forall js m t,
  map_exact t m -> Forall job_exact js ->
  (0 <= t)%Z -> (t + total_weight js <= 1000000)%Z ->
  map_exact (t + total_weight js) (fold_left add_job js m)
  /\ entry_halves (List.map snd (fold_left add_job js m))
     = (entry_halves (List.map snd m) + job_halves js)%Z.
Proof.
  induction js as [|j js IH]; intros m t Hm Hj Ht Hw.
  - simpl. rewrite !Z.add_0_r. split; [exact Hm | reflexivity].
  - inversion Hj as [|? ? Hj1 Hj2]; subst.
    cbn [fold_left total_weight fold_right job_halves] in *.
    fold (total_weight js) in *. fold (job_halves js).
    assert (Hsz : Forall job_sized js).
    { rewrite Forall_forall in *. intros x Hx. apply Hj2. exact Hx. }
    pose proof (total_weight_nonneg _ Hsz).
    assert (1 <= job_weight j)%Z by (destruct Hj1 as [[? _] _]; unfold job_weight; lia).
    destruct (add_job_exact m j t Hm Hj1 Ht) as [A1 A2]; [lia|].
    replace (t + (job_weight j + total_weight js))%Z
      with (t + job_weight j + total_weight js)%Z by lia.
    destruct (IH (add_job m j) (t + job_weight j)%Z A1 Hj2) as [I1 I2]; [lia | lia |].
    split; [exact I1|]. rewrite I2, A2. lia.
Qed.

(** *** The jobs of a text *)

Local Open Scope Z_scope.

Lemma after_marker_length : forall ls,
  (List.length (after_marker ls) <= List.length ls)%nat.
Proof.
  induction ls as [|l ls IH]; simpl; [lia|]. destruct (is_jobs_marker l); lia.
Qed.

Lemma after_first_header_length : forall ls,
  (List.length (after_first_header ls) <= List.length ls)%nat.
Proof.
  induction ls as [|l ls IH]; simpl; [lia|]. destruct (isJobHeader (strip l)); lia.
Qed.

Lemma header_lines_first : forall ls,
  header_lines ls <> [] ->
  existsb (fun l => isJobHeader (strip l)) ls = true
  /\ List.length (header_lines ls)
     = S (List.length (header_lines (after_first_header ls))).
Proof.
  unfold header_lines. induction ls as [|l ls IH]; cbn [filter existsb after_first_header].
  - congruence.
  - destruct (isJobHeader (strip l)); cbn [orb].
    + intros _. split; reflexivity.
    + exact IH.
Qed.

Lemma header_lines_none : forall ls,
  header_lines ls = [] -> existsb (fun l => isJobHeader (strip l)) ls = false.
Proof.
  unfold header_lines. induction ls as [|l ls IH]; cbn [filter existsb]; [reflexivity|].
  destruct (isJobHeader (strip l)); [discriminate | exact IH].
Qed.

Lemma job_halves_bound js :
  Forall job_exact js -> 4 * Z.of_nat (List.length js) <= job_halves js <= 8 * total_weight js.
Proof.
  induction 1 as [|j js [(_ & _ & B1 & B2) [_ W]] _ IH].
  - simpl. lia.
  - cbn [job_halves total_weight fold_right List.length].
    fold (job_halves js). fold (total_weight js).
    rewrite W in B1, B2.
    assert (L1 : (IZR 4 <= IZR (half_minutes (Job.minutes j)))%R) by lra.
    assert (L2 : (IZR (half_minutes (Job.minutes j)) <= IZR (8 * job_weight j))%R)
      by (rewrite mult_IZR; lra).
    apply le_IZR in L1, L2. lia.
Qed.

(** The jobs of a text of at most 100,000 code units are exact; with a
    job header they hold 4 half minutes per header line, 3 per
    [- uses:] line and 6 per [- run:] line. *)
Lemma parseJobsAndSteps_exact y :
  Z.of_nat (List.length y) <= 100000 ->
  let lines := after_marker (split_lines y) in
  let js := parseJobsAndSteps y in
  Forall job_exact js
  /\ total_weight js <= 100002
  /\ (header_lines lines <> [] ->
      job_halves js
      = 4 * Z.of_nat (List.length (header_lines lines))
        + 3 * Z.of_nat (List.length (filter is_uses_line (after_first_header lines)))
        + 6 * Z.of_nat (List.length (filter is_run_line (after_first_header lines)))).
Proof.
  intros Hlen lines js. subst js. unfold parseJobsAndSteps.
  rewrite recognized_after_marker. fold lines.
  rewrite fold_until_header by reflexivity.
  assert (Fb : Forall job_exact [fallback_job]
               /\ total_weight [fallback_job] <= 100002).
  { split; [constructor; [apply fallback_exact | constructor]|].
    unfold total_weight, job_weight, fallback_job.
    cbn [fold_right Job.steps Job.minutes Job.os]. lia. }
  destruct (header_lines lines) as [|h0 hs] eqn:Eh.
  - rewrite (header_lines_none _ Eh). destruct Fb as [F1 F2].
    split; [exact F1|]. split; [exact F2 | congruence].
  - assert (Hne : header_lines lines <> []) by (rewrite Eh; discriminate).
    destruct (header_lines_first _ Hne) as [Ex El]. rewrite Ex, <- Eh, El.
    set (rest := after_first_header lines) in *.
    set (st0 := {| jobs := []; inJobs := true; currentJob := Some new_job |}).
    assert (Hrest : Z.of_nat (List.length rest) <= 100001).
    { pose proof (after_first_header_length lines).
      pose proof (after_marker_length (split_lines y)).
      pose proof (split_lines_length y). unfold rest, lines in *. lia. }
    assert (S0 : scan_sized st0 1).
    { split.
      - constructor; [apply new_job_sized | constructor].
      - unfold st0, push_current, total_weight, job_weight, new_job.
        cbn [currentJob jobs app fold_right Job.steps]. lia. }
    assert (E0 : Forall job_exact (push_current st0)).
    { constructor; [apply new_job_exact | constructor]. }
    destruct (fold_exact rest st0 new_job 1) as [F1 F2];
      [reflexivity | reflexivity | exact S0 | lia | exact E0 |].
    destruct (fold_scan_sized rest st0 1 S0) as [_ W]; [lia|].
    assert (J0 : job_halves (push_current st0) = 4).
    { unfold st0, push_current. cbn [currentJob jobs app job_halves fold_right].
      destruct new_job_exact as [_ ->]. reflexivity. }
    rewrite J0 in F2.
    destruct (push_current (fold_left scan_line rest st0)) as [|j1 js1] eqn:Ep.
    + exfalso. cbn [job_halves fold_right] in F2. lia.
    + split; [exact F1|]. split; [lia|]. intros _. rewrite F2. lia.
Qed.

(** *** The entries of [byOs] and their sum *)

Lemma emitted_exact : forall m t,
  map_exact t m -> t <= 1000000 ->
  Forall (fun e => whole_halves (OsEstimate.minutesPerRun e))
         (List.map (fun kv => emit (snd kv)) m)
  /\ entry_halves (List.map (fun kv => emit (snd kv)) m)
     = entry_halves (List.map snd m).
Proof.
  induction m as [|[k e] m IH]; intros t Hm Ht.
  - split; [constructor | reflexivity].
  - inversion Hm as [|? ? [[Pe We] [B1 B2]] Hm']; subst. cbn [snd] in *.
    destruct (IH t Hm' Ht) as [I1 I2].
    pose proof (IZR_le _ _ Ht) as RT.
    destruct (roundMoney_halves _ _ Pe We) as (_ & Pr & Vr).
    { rewrite We in B1, B2.
      assert (L1 : (IZR 1 <= IZR (half_minutes (OsEstimate.minutesPerRun e)))%R) by lra.
      assert (L2 : (IZR (half_minutes (OsEstimate.minutesPerRun e)) <= IZR 20000000)%R) by lra.
      apply le_IZR in L1, L2. lia. }
    destruct (halves_intro _ _ Pr Vr) as [Eh Wh].
    cbn [List.map snd entry_halves fold_right emit OsEstimate.minutesPerRun].
    split.
    + constructor; [exact Wh | exact I1].
    + fold (entry_halves (List.map (fun kv => emit (snd kv)) m)).
      fold (entry_halves (List.map snd m)). rewrite Eh, I2. reflexivity.
Qed.

Lemma fold_add_entry_minutes : forall l m c j t,
  fst (fst (fst (fold_left add_entry l (m, c, j, t))))
  = fold_left add (minutes_of l) m.
Proof.
  induction l as [|e l IH]; intros m c j t; [reflexivity|].
  cbn [fold_left minutes_of List.map add_entry]. apply IH.
Qed.

Lemma summary_minutes input :
  Summary.minutesPerRun (summary (estimateWorkflowCost input))
  = roundMoney (fold_left add (minutes_of (byOs (estimateWorkflowCost input))) pos_zero).
Proof.
  rewrite byOs_eq. unfold estimateWorkflowCost.
  pose proof (fold_add_entry_minutes
                (aggregateByOs (parseJobsAndSteps (workflowYaml input)))
                pos_zero pos_zero 0 0) as E.
  unfold sum_entries.
  destruct (fold_left add_entry _ _) as [[[m c] j] t]. cbn [fst snd] in E.
  cbn [summary Summary.minutesPerRun]. rewrite E. reflexivity.
Qed.

Lemma whole_halves_pos x : whole_halves x -> 1 <= half_minutes x.
Proof.
  intros [P V]. pose proof (pnormal_pos _ P) as H. rewrite V in H.
  assert (L : (IZR 0 < IZR (half_minutes x))%R) by lra.
  apply lt_IZR in L. lia.
Qed.

(** Adding up whole numbers of half minutes needs no rounding. *)
Lemma fold_add_halves : forall l a,
  whole_halves a ->
  Forall (fun e => whole_halves (OsEstimate.minutesPerRun e)) l ->
  half_minutes a + entry_halves l <= 20000000 ->
  whole_halves (fold_left add (minutes_of l) a)
  /\ half_minutes (fold_left add (minutes_of l) a) = half_minutes a + entry_halves l
  /\ B2R (fold_left add (minutes_of l) a) = (B2R a + sumR (minutes_of l))%R.
Proof.
  induction l as [|e l IH]; intros a Wa Hl Hb.
  - cbn [fold_left minutes_of List.map entry_halves fold_right sumR].
    split; [exact Wa|]. split; [lia | lra].
  - inversion Hl as [|? ? We Hl']; subst.
    cbn [fold_left minutes_of List.map entry_halves fold_right sumR] in *.
    fold (entry_halves l) in *. fold (minutes_of l). fold (sumR (minutes_of l)).
    assert (Hpos : 0 <= entry_halves l).
    { clear -Hl'. induction Hl' as [|x xs Wx _ IHx]; simpl; [lia|].
      fold (entry_halves xs). pose proof (whole_halves_pos _ Wx). lia. }
    pose proof (whole_halves_pos _ We) as He1.
    pose proof (whole_halves_pos _ Wa) as Ha1.
    destruct Wa as [Pa Va]. destruct We as [Pe Ve].
    destruct (add_halves _ _ _ _ Pa Pe Va Ve) as [Ps Vs].
    { apply Z.le_trans with 20000000; [lia|]. apply Z.lt_le_incl. reflexivity. }
    destruct (halves_intro _ _ Ps Vs) as [Es Ws].
    destruct (IH _ Ws Hl') as (I1 & I2 & I3); [lia|].
    split; [exact I1|]. split; [lia|].
    rewrite I3, Vs, plus_IZR, Va, Ve. lra.
Qed.

(** The total of the estimate of a text of at most 100,000 code units. *)
Lemma minutes_total input :
  Z.of_nat (List.length (workflowYaml input)) <= 100000 ->
  let r := estimateWorkflowCost input in
  let h := job_halves (parseJobsAndSteps (workflowYaml input)) in
  Summary.minutesPerRun (summary r) = of_cents (50 * h)
  /\ B2R (Summary.minutesPerRun (summary r)) = (IZR h / 2)%R
  /\ B2R (Summary.minutesPerRun (summary r)) = sumR (minutes_of (byOs r))
  /\ Forall (fun e => whole_halves (OsEstimate.minutesPerRun e)) (byOs r).
Proof.
  intros Hlen r h. subst r h.
  destruct (parseJobsAndSteps_exact (workflowYaml input) Hlen) as (Hj & Hw & _).
  destruct (job_halves_bound _ Hj) as [B1 B2].
  destruct (fold_add_job_exact (parseJobsAndSteps (workflowYaml input)) [] 0)
    as [M1 M2]; [constructor | exact Hj | lia | lia |].
  destruct (emitted_exact _ _ M1) as [E1 E2]; [lia|].
  rewrite summary_minutes, byOs_eq. unfold aggregateByOs.
  set (m := fold_left add_job (parseJobsAndSteps (workflowYaml input)) []) in *.
  set (l := List.map (fun kv => emit (snd kv)) m) in *.
  cbn [List.map entry_halves fold_right] in M2. rewrite Z.add_0_l in M2.
  rewrite <- M2, <- E2.
  destruct l as [|e l'] eqn:El.
  { exfalso. cbn [entry_halves fold_right] in E2.
    destruct (aggregate_map_shape (workflowYaml input)) as (Hne & _).
    fold m in Hne. destruct m; [congruence | discriminate El]. }
  inversion E1 as [|? ? We Wl]; subst.
  cbn [minutes_of List.map fold_left]. fold (minutes_of l').
  destruct We as [Pe Ve]. rewrite (add_pos_zero _ Pe).
  destruct (fold_add_halves l' (OsEstimate.minutesPerRun e) (conj Pe Ve) Wl)
    as (F1 & F2 & F3).
  { cbn [entry_halves fold_right] in E2. fold (entry_halves l') in E2. lia. }
  cbn [entry_halves fold_right sumR]. fold (entry_halves l'). fold (sumR (minutes_of l')).
  rewrite <- F2, <- F3.
  destruct F1 as [Pf Vf].
  destruct (roundMoney_halves _ _ Pf Vf) as (R1 & R2 & R3).
  { pose proof (whole_halves_pos _ (conj Pf Vf)).
    cbn [entry_halves fold_right] in E2. fold (entry_halves l') in E2. lia. }
  split; [exact R1|]. split; [exact R3|]. split; [|exact E1].
  rewrite R3. symmetry. exact Vf.
Qed.

(** X27: for a workflow text of at most 100,000 code units whose jobs
    section holds a job header, the minutes of the summary are exactly
    2 per job-header line, 1.5 per [- uses:] line and 3 per [- run:]
    line after the first job header: neither the sums nor [roundMoney]
    round anything. *)
Theorem minutes_per_line (input : EstimateInput) :
  let lines := after_marker (split_lines (workflowYaml input)) in
  let J := Z.of_nat (List.length (header_lines lines)) in
  let U := Z.of_nat (List.length (filter is_uses_line (after_first_header lines))) in
  let R := Z.of_nat (List.length (filter is_run_line (after_first_header lines))) in
  Z.of_nat (List.length (workflowYaml input)) <= 100000 ->
  header_lines lines <> [] ->
  Summary.minutesPerRun (summary (estimateWorkflowCost input))
  = of_cents (200 * J + 150 * U + 300 * R)
  /\ B2R (Summary.minutesPerRun (summary (estimateWorkflowCost input)))
     = (2 * IZR J + 3 / 2 * IZR U + 3 * IZR R)%R.
Proof.
  intros lines J U R Hlen Hh.
  destruct (minutes_total input Hlen) as (E1 & E2 & _).
  destruct (parseJobsAndSteps_exact (workflowYaml input) Hlen) as (_ & _ & Hj).
  fold lines in Hj. specialize (Hj Hh). fold J U R in Hj.
  rewrite Hj in E1, E2. split.
  - rewrite E1. f_equal. lia.
  - rewrite E2, !plus_IZR, !mult_IZR. lra.
Qed.

Lemma minutes_per_line_witness :
  Summary.minutesPerRun (summary (estimateWorkflowCost over_budget))
  = of_cents (200 * 2 + 150 * 3 + 300 * 1)
  /\ B2R (Summary.minutesPerRun (summary (estimateWorkflowCost over_budget)))
     = (2 * IZR 2 + 3 / 2 * IZR 3 + 3 * IZR 1)%R.
Proof.
  apply (minutes_per_line over_budget); vm_compute; discriminate.
Defined.



End MinuteFacts.
